(** * Triangle-Splatting-Viewer: the mesh loader and the camera of [engine.py]

    A shallow embedding of [load_custom_off] and of the [Camera] class,
    together with the properties of the specification that were checked
    against them.

    Conventions of the embedding.
    - Text is a [string]; a character is a code point below 256.  A file is
      the list of its lines, as [f.readlines()] returns them.
    - A Python [int] is a [Z].
    - A Python [float] is an IEEE 754 binary64 number, a [spec_float] handled
      with precision 53 and maximal exponent 1024; the components of a
      [glm.vec3] and of a [numpy] array of dtype [float32] are binary32
      numbers (precision 24, maximal exponent 128).  Every operation rounds
      to nearest, ties to even.
    - A raised exception is a value of type [exn]; a computation that can
      raise returns a [result].
    - Limits of the interpreter that depend on its configuration (the cap on
      the number of digits of an integer literal, memory) are not modelled. *)

From Stdlib Require Import ZArith List Bool Ascii String Lia.
From Stdlib Require Import Floats.SpecFloat.
Import ListNotations.

Local Open Scope Z_scope.

(** ** Exceptions *)

(** The subclasses of [Exception] this code can raise.  [CallbackError n]
    stands for any exception raised by the progress callback. *)
Inductive exn : Type :=
| OSError
| IndexError
| ValueError
| ZeroDivisionError
| OverflowError
| CallbackError (code : nat).

Inductive result (A : Type) : Type :=
| Ok (a : A)
| Raise (e : exn).

Arguments Ok {A} a.
Arguments Raise {A} e.

Definition or_raise {A : Type} (e : exn) (o : option A) : result A :=
  match o with
  | Some a => Ok a
  | None => Raise e
  end.

(** ** Python lists *)

Module Py.

(** [l[i]]: a negative index counts from the end; [None] is [IndexError]. *)
Definition getitem {A : Type} (l : list A) (i : Z) : option A :=
  let n := Z.of_nat (List.length l) in
  if (0 <=? i) && (i <? n) then nth_error l (Z.to_nat i)
  else if (- n <=? i) && (i <? 0) then nth_error l (Z.to_nat (n + i))
  else None.

(** [list(map(f, l))] for an [f] that can raise: the first failure wins. *)
Fixpoint map_opt {A B : Type} (f : A -> option B) (l : list A) : option (list B) :=
  match l with
  | [] => Some []
  | a :: l' =>
      match f a with
      | None => None
      | Some b =>
          match map_opt f l' with
          | None => None
          | Some bs => Some (b :: bs)
          end
      end
  end.

(** ** Python strings *)

Definition code (c : ascii) : N := N_of_ascii c.

(** [str.isspace] on one character. *)
Definition is_space (c : ascii) : bool :=
  let n := code c in
  ((9 <=? n) && (n <=? 13) || (28 <=? n) && (n <=? 32)
   || (n =? 133) || (n =? 160))%N.

Definition is_digit (c : ascii) : bool :=
  let n := code c in ((48 <=? n) && (n <=? 57))%N.

Definition digit_value (c : ascii) : Z := Z.of_N (code c) - 48.

Fixpoint lstrip (s : list ascii) : list ascii :=
  match s with
  | c :: s' => if is_space c then lstrip s' else s
  | [] => []
  end.

Definition strip_chars (s : list ascii) : list ascii :=
  rev (lstrip (rev (lstrip s))).

(** [s.strip()] *)
Definition strip (s : string) : string :=
  string_of_list_ascii (strip_chars (list_ascii_of_string s)).

(** [split_chars cur s]: [cur] is the token being read, reversed. *)
Fixpoint split_chars (cur : list ascii) (s : list ascii) : list (list ascii) :=
  match s with
  | [] => match cur with [] => [] | _ => [rev cur] end
  | c :: s' =>
      if is_space c then
        match cur with
        | [] => split_chars [] s'
        | _ => rev cur :: split_chars [] s'
        end
      else split_chars (c :: cur) s'
  end.

(** [s.split()]: the maximal runs of characters that are not white space. *)
Definition split (s : string) : list string :=
  map string_of_list_ascii (split_chars [] (list_ascii_of_string s)).

Fixpoint starts_with (p s : list ascii) : bool :=
  match p, s with
  | [], _ => true
  | _ :: _, [] => false
  | a :: p', b :: s' => Ascii.eqb a b && starts_with p' s'
  end.

Fixpoint contains_chars (p s : list ascii) : bool :=
  starts_with p s ||
  match s with
  | [] => false
  | _ :: s' => contains_chars p s'
  end.

(** [p in s] *)
Definition contains (p s : string) : bool :=
  contains_chars (list_ascii_of_string p) (list_ascii_of_string s).

(** ** Python numbers read from text *)

Definition is_underscore (c : ascii) : bool := (code c =? 95)%N.

(** Underscores group digits: each one stands between two digits.  [prev] is
    the character read last.  The text comes back without them. *)
Fixpoint drop_underscores (prev : option ascii) (s : list ascii)
  : option (list ascii) :=
  match s with
  | [] =>
      match prev with
      | Some p => if is_underscore p then None else Some []
      | None => Some []
      end
  | c :: s' =>
      if is_underscore c then
        match prev with
        | Some p => if is_digit p then drop_underscores (Some c) s' else None
        | None => None
        end
      else
        let after_underscore :=
          match prev with Some p => is_underscore p | None => false end in
        if after_underscore && negb (is_digit c) then None
        else option_map (cons c) (drop_underscores (Some c) s')
  end.

(** An optional sign; [true] is minus. *)
Definition read_sign (s : list ascii) : bool * list ascii :=
  match s with
  | c :: s' =>
      if (code c =? 45)%N then (true, s')
      else if (code c =? 43)%N then (false, s')
      else (false, s)
  | [] => (false, [])
  end.

(** The longest run of digits at the head of [s], continuing the number
    [acc] of which [n] digits were read; what follows the run comes back. *)
Fixpoint read_digits (acc : Z) (n : nat) (s : list ascii)
  : Z * nat * list ascii :=
  match s with
  | c :: s' =>
      if is_digit c then read_digits (10 * acc + digit_value c) (S n) s'
      else (acc, n, s)
  | [] => (acc, n, [])
  end.

Definition int_of_chars (s : list ascii) : option Z :=
  match drop_underscores None s with
  | None => None
  | Some s1 =>
      let (neg, s2) := read_sign s1 in
      match read_digits 0 0 s2 with
      | (v, S _, []) => Some (if neg then - v else v)
      | _ => None
      end
  end.

(** [int(s)] in base 10; [None] is [ValueError]. *)
Definition int (s : string) : option Z :=
  int_of_chars (strip_chars (list_ascii_of_string s)).

End Py.

(** ** Floating-point numbers *)

Module F64.
Definition prec : Z := 53.
Definition emax : Z := 1024.

Definition add := SFadd prec emax.
Definition sub := SFsub prec emax.
Definition mul := SFmul prec emax.
Definition div := SFdiv prec emax.
Definition ltb := SFltb.
Definition leb := SFleb.

(** [float(z)] for an [int]: the nearest binary64 number. *)
Definition of_Z (z : Z) : spec_float := binary_normalize prec emax z 0 false.

(** The binary64 number nearest to [m * 10 ^ e], for [0 <= m], with the sign
    [neg]: what reading a decimal literal gives. *)
Definition of_decimal (neg : bool) (m e : Z) : spec_float :=
  match m with
  | Zpos p =>
      if 0 <=? e then
        binary_normalize prec emax (cond_Zopp neg (Zpos p * 10 ^ e)) 0 neg
      else
        div (S754_finite neg p 0)
            (S754_finite false (Z.to_pos (10 ^ (- e))) 0)
  | _ => S754_zero neg
  end.

(** An [int] as a floating-point number with an integer mantissa that is
    not rounded. *)
Definition unrounded (z : Z) : spec_float :=
  match z with
  | Z0 => S754_zero false
  | Zpos p => S754_finite false p 0
  | Zneg p => S754_finite true p 0
  end.

(** The binary64 number nearest to the quotient of two integers. *)
Definition quotient (a b : Z) : spec_float :=
  SFdiv prec emax (unrounded a) (unrounded b).

(** [a / b] on two [int]s. *)
Definition true_div (a b : Z) : result spec_float :=
  if b =? 0 then Raise ZeroDivisionError
  else match quotient a b with
       | S754_infinity _ => Raise OverflowError
       | x => Ok x
       end.
End F64.

Module F32.
Definition prec : Z := 24.
Definition emax : Z := 128.

Definition add := SFadd prec emax.
Definition sub := SFsub prec emax.
Definition mul := SFmul prec emax.

(** The conversion of a binary64 number to binary32 (a C cast). *)
Definition of_F64 (x : spec_float) : spec_float :=
  match x with
  | S754_finite s m e => binary_normalize prec emax (cond_Zopp s (Zpos m)) e s
  | _ => x
  end.
End F32.

Module PyFloat.
Import Py.

Definition lower (c : ascii) : ascii :=
  let n := code c in
  if ((65 <=? n) && (n <=? 90))%N then ascii_of_N (n + 32) else c.

Definition is_exp_mark (c : ascii) : bool := (code (lower c) =? 101)%N.
Definition is_point (c : ascii) : bool := (code c =? 46)%N.

(** A decimal literal without sign: digits, an optional point and digits,
    at least one digit in all, an optional exponent.  The value is
    [m * 10 ^ e]. *)
Definition read_decimal (s : list ascii) : option (Z * Z) :=
  let '(ip, n1, r1) := read_digits 0 0 s in
  let '(m, n2, r2) :=
    match r1 with
    | c :: r => if is_point c then read_digits ip 0 r else (ip, O, r1)
    | [] => (ip, O, r1)
    end in
  match (n1 + n2)%nat with
  | O => None
  | S _ =>
      match r2 with
      | [] => Some (m, - Z.of_nat n2)
      | c :: r3 =>
          if is_exp_mark c then
            let (eneg, r4) := read_sign r3 in
            match read_digits 0 0 r4 with
            | (ev, S _, []) =>
                Some (m, (if eneg then - ev else ev) - Z.of_nat n2)
            | _ => None
            end
          else None
      end
  end.

Definition read_inf_or_nan (neg : bool) (s : list ascii) : option spec_float :=
  let w := string_of_list_ascii (map lower s) in
  if (String.eqb w "inf" || String.eqb w "infinity")%string
  then Some (S754_infinity neg)
  else if String.eqb w "nan" then Some S754_nan
  else None.

Definition float_of_chars (s : list ascii) : option spec_float :=
  match drop_underscores None s with
  | None => None
  | Some s1 =>
      let (neg, s2) := read_sign s1 in
      match read_decimal s2 with
      | Some (m, e) => Some (F64.of_decimal neg m e)
      | None => read_inf_or_nan neg s2
      end
  end.

(** [float(s)]; [None] is [ValueError]. *)
Definition float (s : string) : option spec_float :=
  float_of_chars (strip_chars (list_ascii_of_string s)).

End PyFloat.

(** ** What the loader prints and reports *)

Definition vec : Type := list spec_float.

Inductive message : Type :=
| Loading (filepath : string)
| Loaded (vertices : nat)
| LoadError (e : exn).

(** [Progress fraction num den] is one call
    [progress_callback(fraction, f"Parsing faces: {num}/{den}")]. *)
Inductive event : Type :=
| Printed (m : message)
| Progress (fraction : spec_float) (num den : Z).

(** A computation that prints, calls back and may raise. *)
Definition traced (A : Type) : Type := list event * result A.

Definition ret {A : Type} (a : A) : traced A := ([], Ok a).

Definition bind {A B : Type} (m : traced A) (k : A -> traced B) : traced B :=
  match m with
  | (t, Ok a) => let (t', r) := k a in (t ++ t', r)
  | (t, Raise e) => (t, Raise e)
  end.

Notation "x <- m ;; k" := (bind m (fun x => k))
  (at level 61, m at next level, right associativity).
Notation "' p <- m ;; k" := (bind m (fun x => match x with p => k end))
  (at level 61, p pattern, m at next level, right associativity).

Definition lift {A : Type} (r : result A) : traced A := ([], r).
Definition print (m : message) : traced unit := ([Printed m], Ok tt).

(** Python's [x[i]], [int(s)] and [float(s)] as steps that can raise. *)
Definition item {A : Type} (l : list A) (i : Z) : traced A :=
  lift (or_raise IndexError (Py.getitem l i)).
Definition int (s : string) : traced Z :=
  lift (or_raise ValueError (Py.int s)).
Definition float (s : string) : traced spec_float :=
  lift (or_raise ValueError (PyFloat.float s)).

(** The environment of the loader: the file system, [open(path).readlines()],
    and the progress callback, which is given the fraction and the two
    numbers of the text and returns ([None]) or raises. *)
Definition filesystem : Type := string -> result (list string).
Definition callback : Type := spec_float -> Z -> Z -> option exn.

Definition call (cb : callback) (fraction : spec_float) (num den : Z)
  : traced unit :=
  ([Progress fraction num den],
   match cb fraction num den with
   | None => Ok tt
   | Some e => Raise e
   end).

(** [np.array(rows, dtype=np.float32)] for a list of lists of floats: rows of
    unequal lengths are refused with [ValueError]. *)
Definition np_array (rows : list vec) : traced (list vec) :=
  match rows with
  | [] => ret []
  | r :: rs =>
      if forallb (fun r' => Nat.eqb (List.length r') (List.length r)) rs
      then ret (map (map F32.of_F64) rows)
      else lift (Raise ValueError)
  end.

(** ** [load_custom_off] *)

Definition f255 : spec_float := Eval vm_compute in F64.of_Z 255.

(** Lines 72-74. *)
Definition check_header (header : string) : traced unit :=
  if negb (Py.contains "COFF" header) && negb (Py.contains "OFF" header)
  then lift (Raise ValueError)
  else ret tt.

(** Lines 76-77. *)
Definition read_counts (line : string) : traced (Z * Z) :=
  counts <- lift (or_raise ValueError
                    (Py.map_opt Py.int (Py.split (Py.strip line)))) ;;
  num_vertices <- item counts 0 ;;
  num_faces <- item counts 1 ;;
  ret (num_vertices, num_faces).

(** Lines 80-81: the iterations [i, i+1, ...] of the loop, [n] of them. *)
Fixpoint read_vertices (lines : list string) (n : nat) (i : Z)
    (vertex_positions : list vec) : traced (list vec) :=
  match n with
  | O => ret vertex_positions
  | S n' =>
      line <- item lines (2 + i) ;;
      v <- lift (or_raise ValueError
                   (Py.map_opt PyFloat.float (Py.split (Py.strip line)))) ;;
      read_vertices lines n' (i + 1) (vertex_positions ++ [v])
  end.

(** Lines 92-98, one face record: [None] when the record is skipped by
    [continue], otherwise what is appended to [final_vertices] and to
    [final_colors]. *)
Definition read_face (vertex_positions : list vec) (parts : list string)
  : traced (option (list vec * list vec)) :=
  p0 <- item parts 0 ;;
  k <- int p0 ;;
  if negb (k =? 3) then ret None else
  p1 <- item parts 1 ;; idx1 <- int p1 ;;
  p2 <- item parts 2 ;; idx2 <- int p2 ;;
  p3 <- item parts 3 ;; idx3 <- int p3 ;;
  p4 <- item parts 4 ;; r <- float p4 ;;
  p5 <- item parts 5 ;; g <- float p5 ;;
  p6 <- item parts 6 ;; b <- float p6 ;;
  let color := [F64.div r f255; F64.div g f255; F64.div b f255] in
  v1 <- item vertex_positions idx1 ;;
  v2 <- item vertex_positions idx2 ;;
  v3 <- item vertex_positions idx3 ;;
  ret (Some ([v1; v2; v3], [color; color; color])).

(** Line 87: is the callback called at iteration [i]? *)
Definition reports (num_faces i : Z) : bool :=
  (i mod 15000 =? 0) || (i =? num_faces - 1).

(** Lines 86-98: the iterations [i, i+1, ...] of the loop, [n] of them. *)
Fixpoint read_faces (progress_callback : option callback)
    (lines : list string) (vertex_positions : list vec)
    (num_vertices num_faces : Z) (n : nat) (i : Z)
    (final_vertices final_colors : list vec) : traced (list vec * list vec) :=
  match n with
  | O => ret (final_vertices, final_colors)
  | S n' =>
      _ <- match progress_callback with
           | Some cb =>
               if reports num_faces i then
                 progress_percentage <-
                   lift (F64.true_div (i + 1) num_faces) ;;
                 call cb progress_percentage (i + 1) num_faces
               else ret tt
           | None => ret tt
           end ;;
      line <- item lines (2 + num_vertices + i) ;;
      face <- read_face vertex_positions (Py.split (Py.strip line)) ;;
      match face with
      | None =>
          read_faces progress_callback lines vertex_positions
            num_vertices num_faces n' (i + 1) final_vertices final_colors
      | Some (vs, cs) =>
          read_faces progress_callback lines vertex_positions
            num_vertices num_faces n' (i + 1)
            (final_vertices ++ vs) (final_colors ++ cs)
      end
  end.

(** The body of the [try] statement, lines 69-104. *)
Definition load_body (fs : filesystem) (filepath : string)
    (progress_callback : option callback) : traced (list vec * list vec) :=
  lines <- lift (fs filepath) ;;
  l0 <- item lines 0 ;;
  let header := Py.strip l0 in
  _ <- check_header header ;;
  l1 <- item lines 1 ;;
  ' (num_vertices, num_faces) <- read_counts l1 ;;
  vertex_positions <- read_vertices lines (Z.to_nat num_vertices) 0 [] ;;
  ' (final_vertices, final_colors) <-
      read_faces progress_callback lines vertex_positions
        num_vertices num_faces (Z.to_nat num_faces) 0 [] [] ;;
  vertices_np <- np_array final_vertices ;;
  colors_np <- np_array final_colors ;;
  _ <- print (Loaded (List.length vertices_np)) ;;
  ret (vertices_np, colors_np).

(** The whole function: what is printed and reported, and the pair returned,
    [None] standing for the pair [(None, None)]. *)
Definition load_custom_off (fs : filesystem) (filepath : string)
    (progress_callback : option callback)
  : list event * option (list vec * list vec) :=
  match load_body fs filepath progress_callback with
  | (t, Ok arrays) => (Printed (Loading filepath) :: t, Some arrays)
  | (t, Raise e) =>
      (Printed (Loading filepath) :: t ++ [Printed (LoadError e)], None)
  end.

Definition one_file (lines : list string) : filesystem := fun _ => Ok lines.
Definition quiet : callback := fun _ _ _ => None.

(** ** The camera *)

(** A [glm.vec3]: three binary32 components. *)
Record vec3 : Type := Vec3 { vx : spec_float; vy : spec_float; vz : spec_float }.

Module Glm.
(** [glm.vec3(x, y, z)] for Python numbers. *)
Definition vec3_of (x y z : spec_float) : vec3 :=
  Vec3 (F32.of_F64 x) (F32.of_F64 y) (F32.of_F64 z).

Definition add (a b : vec3) : vec3 :=
  Vec3 (F32.add (vx a) (vx b)) (F32.add (vy a) (vy b)) (F32.add (vz a) (vz b)).

Definition sub (a b : vec3) : vec3 :=
  Vec3 (F32.sub (vx a) (vx b)) (F32.sub (vy a) (vy b)) (F32.sub (vz a) (vz b)).

(** [v * s] for a Python float [s], which is converted to binary32 first. *)
Definition scale (v : vec3) (s : spec_float) : vec3 :=
  let s32 := F32.of_F64 s in
  Vec3 (F32.mul (vx v) s32) (F32.mul (vy v) s32) (F32.mul (vz v) s32).

(** The functions of the library whose results depend on its build: they are
    parameters of the camera. *)
Record lib : Type := Lib {
  cos : spec_float -> spec_float;
  sin : spec_float -> spec_float;
  radians : spec_float -> spec_float;
  normalize : vec3 -> vec3;
  cross : vec3 -> vec3 -> vec3
}.
End Glm.

Inductive key : Type := K_w | K_s | K_a | K_d | K_SPACE | K_LCTRL | K_LSHIFT.

Definition float_lit (neg : bool) (m e : Z) : spec_float :=
  F64.of_decimal neg m e.

Record Camera : Type := mkCamera {
  position : vec3;
  yaw : spec_float;
  pitch : spec_float;
  speed : spec_float;
  mouse_sensitivity : spec_float
}.

(** [Camera.__init__], lines 112-117. *)
Definition Camera_init (position : vec3) (speed : spec_float) : Camera :=
  {| position := position;
     yaw := float_lit true 90 0;
     pitch := float_lit false 0 0;
     speed := speed;
     mouse_sensitivity := float_lit false 1 (-1) |}.

(** [Camera()], with the default arguments. *)
Definition Camera_default : Camera :=
  Camera_init (Glm.vec3_of (F64.of_Z 0) (F64.of_Z 2) (F64.of_Z 20))
              (float_lit false 5 0).

(** [min(a, b)] and [max(a, b)] of Python: the first argument is kept unless
    the second is strictly smaller (greater). *)
Definition py_min (a b : spec_float) : spec_float :=
  if F64.ltb b a then b else a.
Definition py_max (a b : spec_float) : spec_float :=
  if F64.ltb a b then b else a.

Section Camera.
Variable G : Glm.lib.

(** Lines 126-131. *)
Definition get_forward_vector (self : Camera) : vec3 :=
  let dx := F64.mul (Glm.cos G (Glm.radians G (yaw self)))
                    (Glm.cos G (Glm.radians G (pitch self))) in
  let dy := Glm.sin G (Glm.radians G (pitch self)) in
  let dz := F64.mul (Glm.sin G (Glm.radians G (yaw self)))
                    (Glm.cos G (Glm.radians G (pitch self))) in
  Glm.normalize G (Glm.vec3_of dx dy dz).

Definition with_position (self : Camera) (p : vec3) : Camera :=
  {| position := p; yaw := yaw self; pitch := pitch self;
     speed := speed self; mouse_sensitivity := mouse_sensitivity self |}.

(** Lines 134-137: the camera turns.  The offsets are the C integers that
    [pygame.mouse.get_rel()] returns, which the product with a float converts
    to floats. *)
Definition look (self : Camera) (mouse_rel : Z * Z) : Camera :=
  let (x_offset, y_offset) := mouse_rel in
  let yaw1 := F64.add (yaw self)
                (F64.mul (F64.of_Z x_offset) (mouse_sensitivity self)) in
  let pitch1 := F64.sub (pitch self)
                  (F64.mul (F64.of_Z y_offset) (mouse_sensitivity self)) in
  let pitch2 := py_max (float_lit true 89 0)
                       (py_min (float_lit false 89 0) pitch1) in
  {| position := position self; yaw := yaw1; pitch := pitch2;
     speed := speed self; mouse_sensitivity := mouse_sensitivity self |}.

(** Lines 145-146, 147-148 and 149-150: the two keys of each axis. *)
Definition move_forward (keys : key -> bool) (forward : vec3)
    (velocity : spec_float) (p : vec3) : vec3 :=
  let p := if keys K_w then Glm.add p (Glm.scale forward velocity) else p in
  let p := if keys K_s then Glm.sub p (Glm.scale forward velocity) else p in
  p.

Definition move_right (keys : key -> bool) (right : vec3)
    (velocity : spec_float) (p : vec3) : vec3 :=
  let p := if keys K_a then Glm.sub p (Glm.scale right velocity) else p in
  let p := if keys K_d then Glm.add p (Glm.scale right velocity) else p in
  p.

Definition move_up (keys : key -> bool) (up : vec3)
    (velocity : spec_float) (p : vec3) : vec3 :=
  let p := if keys K_SPACE then Glm.add p (Glm.scale up velocity) else p in
  let p := if keys K_LCTRL || keys K_LSHIFT
           then Glm.sub p (Glm.scale up velocity) else p in
  p.

Definition world_up : vec3 := Glm.vec3_of (F64.of_Z 0) (F64.of_Z 1) (F64.of_Z 0).

(** Lines 139-143: the speed of this frame and the three axes. *)
Definition velocity (self : Camera) (delta_time : spec_float) : spec_float :=
  F64.mul (speed self) delta_time.
Definition forward_axis (self : Camera) : vec3 := get_forward_vector self.
Definition right_axis (self : Camera) : vec3 :=
  Glm.normalize G (Glm.cross G (forward_axis self) world_up).

(** Lines 133-150. *)
Definition process_input (self : Camera) (keys : key -> bool)
    (mouse_rel : Z * Z) (delta_time : spec_float) : Camera :=
  let self := look self mouse_rel in
  let velocity := velocity self delta_time in
  let forward := forward_axis self in
  let right := right_axis self in
  let up := world_up in
  with_position self
    (move_up keys up velocity
       (move_right keys right velocity
          (move_forward keys forward velocity (position self)))).

(** One frame of the main loop, and a run of frames. *)
Record frame : Type := Frame {
  keys_pressed : key -> bool;
  mouse_moved : Z * Z;
  elapsed : spec_float
}.

Definition step (self : Camera) (f : frame) : Camera :=
  process_input self (keys_pressed f) (mouse_moved f) (elapsed f).

Definition run (frames : list frame) (self : Camera) : Camera :=
  fold_left step frames self.

End Camera.

(** [-89 <= pitch <= 89] *)
Definition pitch_clamped (self : Camera) : Prop :=
  F64.leb (float_lit true 89 0) (pitch self) = true /\
  F64.leb (pitch self) (float_lit false 89 0) = true.

(** The integers of a list of fields: [fields_are fields zs] when [int] reads
    each field as the integer at the same place of [zs]. *)
Definition fields_are (fields : list string) (zs : list Z) : Prop :=
  Forall2 (fun t z => Py.int t = Some z) fields zs.

Definition key_eqb (a b : key) : bool :=
  match a, b with
  | K_w, K_w | K_s, K_s | K_a, K_a | K_d, K_d
  | K_SPACE, K_SPACE | K_LCTRL, K_LCTRL | K_LSHIFT, K_LSHIFT => true
  | _, _ => false
  end.

(** The keys of [keys] without those of [released]. *)
Definition release (released : list key) (keys : key -> bool) : key -> bool :=
  fun k => if existsb (key_eqb k) released then false else keys k.

(** The keys of [pressed] and no other. *)
Definition only (pressed : list key) : key -> bool :=
  fun k => existsb (key_eqb k) pressed.

(** Adding the displacement [d] to [p] and taking it away again (or the
    other way round) gives [p] back: no rounding error is left. *)
Definition exact_there_and_back (p d : vec3) : Prop :=
  Glm.sub (Glm.add p d) d = p.
Definition exact_back_and_there (p d : vec3) : Prop :=
  Glm.add (Glm.sub p d) d = p.

(** [n / 1000.0], the elapsed time of a frame of [n] milliseconds. *)
Definition milliseconds (n : Z) : spec_float :=
  F64.div (F64.of_Z n) (F64.of_Z 1000).

(** Library functions that are exact for a camera looking along an axis:
    angles are kept in degrees, and the cosine and sine are those of 0 and
    of -90 degrees. *)
Definition is_zero (x : spec_float) : bool :=
  match x with S754_zero _ => true | _ => false end.

Definition axis_lib : Glm.lib :=
  {| Glm.cos := fun x => if is_zero x then F64.of_Z 1 else F64.of_Z 0;
     Glm.sin := fun x => if is_zero x then F64.of_Z 0 else F64.of_Z (-1);
     Glm.radians := fun x => x;
     Glm.normalize := fun v => v;
     Glm.cross := fun a b =>
       Vec3 (F32.sub (F32.mul (vy a) (vz b)) (F32.mul (vy b) (vz a)))
            (F32.sub (F32.mul (vz a) (vx b)) (F32.mul (vz b) (vx a)))
            (F32.sub (F32.mul (vx a) (vy b)) (F32.mul (vx b) (vy a))) |}.

(** ** Observers used to state the properties *)

(** [zrange i n] is [i, i+1, ..., i+n-1]: the values a [for] loop over
    [range] takes. *)
Fixpoint zrange (i : Z) (n : nat) : list Z :=
  match n with
  | O => []
  | S n' => i :: zrange (i + 1) n'
  end.

(** [range(n)] *)
Definition range (n : Z) : list Z := zrange 0 (Z.to_nat n).

(** The counts [(V, F)] the loader reads from the second line. *)
Definition declared_counts (lines : list string) : result (Z * Z) :=
  snd (l1 <- item lines 1 ;; read_counts l1).

(** The fields of face record [i], as line 91 splits them. *)
Definition face_parts (lines : list string) (num_vertices i : Z)
  : option (list string) :=
  option_map (fun line => Py.split (Py.strip line))
             (Py.getitem lines (2 + num_vertices + i)).

(** The leading count of a record, [int(parts[0])]. *)
Definition leading_count (parts : list string) : option Z :=
  match Py.getitem parts 0 with
  | Some p0 => Py.int p0
  | None => None
  end.

(** Does face record [i] have the leading count 3? *)
Definition is_triangle (lines : list string) (num_vertices i : Z) : bool :=
  match face_parts lines num_vertices i with
  | Some parts =>
      match leading_count parts with
      | Some k => k =? 3
      | None => false
      end
  | None => false
  end.

(** The number of records with leading count 3 among the records of the
    faces in [faces]. *)
Definition triangle_count (lines : list string) (num_vertices : Z)
    (faces : list Z) : nat :=
  List.length (filter (is_triangle lines num_vertices) faces).

(** What iteration [i] of the face loop does to the two lists. *)
Definition face_at (lines : list string) (vertex_positions : list vec)
    (num_vertices i : Z) : result (option (list vec * list vec)) :=
  snd (line <- item lines (2 + num_vertices + i) ;;
       read_face vertex_positions (Py.split (Py.strip line))).

(** The vertices and the colors an iteration appends. *)
Definition emitted (r : result (option (list vec * list vec)))
  : list vec * list vec :=
  match r with
  | Ok (Some p) => p
  | _ => ([], [])
  end.

(** The pair returned by the loader. *)
Definition returned (fs : filesystem) (filepath : string)
    (cb : option callback) : option (list vec * list vec) :=
  snd (load_custom_off fs filepath cb).

(** [field parts j int] is [int(parts[j])], when it does not raise. *)
Definition field {A : Type} (parts : list string) (j : Z)
    (read : string -> option A) : option A :=
  match Py.getitem parts j with
  | Some p => read p
  | None => None
  end.

(** The color of a record, from the values of its three color fields. *)
Definition face_color (r g b : spec_float) : vec :=
  [F64.div r f255; F64.div g f255; F64.div b f255].

(** What an accepted record appends: the fields read and the vertices
    looked up. *)
Definition accepted (vertex_positions : list vec) (parts : list string)
    (vs cs : list vec) : Prop :=
  exists i1 i2 i3 r g b v1 v2 v3,
    field parts 1 Py.int = Some i1 /\
    field parts 2 Py.int = Some i2 /\
    field parts 3 Py.int = Some i3 /\
    field parts 4 PyFloat.float = Some r /\
    field parts 5 PyFloat.float = Some g /\
    field parts 6 PyFloat.float = Some b /\
    Py.getitem vertex_positions i1 = Some v1 /\
    Py.getitem vertex_positions i2 = Some v2 /\
    Py.getitem vertex_positions i3 = Some v3 /\
    vs = [v1; v2; v3] /\
    cs = [face_color r g b; face_color r g b; face_color r g b].

(** The entries the face loop appends, over the iterations [faces]. *)
Definition appended_vertices lines vp V (faces : list Z) : list vec :=
  flat_map (fun i => fst (emitted (face_at lines vp V i))) faces.
Definition appended_colors lines vp V (faces : list Z) : list vec :=
  flat_map (fun i => snd (emitted (face_at lines vp V i))) faces.

(** A step that neither prints nor calls back. *)
Definition silent {A : Type} (m : traced A) : Prop := fst m = [].

(** ** Concrete meshes *)

Definition no_file : filesystem := fun _ => Raise OSError.

(** The mesh of the specification's scenario: four vertices, two red
    triangles. *)
Definition two_red_triangles : list string :=
  ["OFF"; "4 2"; "0 0 0"; "1 0 0"; "0 1 0"; "0 0 1";
   "3 0 1 2 255 0 0"; "3 0 1 2 255 0 0"]%string.

(** A quad between two triangles. *)
Definition quad_between_triangles : list string :=
  ["COFF"; "4 3 0"; "0 0 0"; "1 0 0"; "0 1 0"; "0 0 1";
   "3 0 1 2 255 0 0"; "4 0 1 2 3 0 255 0"; "3 1 2 3 0 0 255"]%string.

(** A triangle whose third index is past the end of the vertex table. *)
Definition index_past_end : list string :=
  ["OFF"; "3 1"; "0 0 0"; "1 0 0"; "0 1 0"; "3 0 1 3 255 0 0"]%string.

(** A triangle that names its vertices from the end of the table. *)
Definition negative_indices : list string :=
  ["OFF"; "3 1"; "0 0 0"; "1 0 0"; "0 1 0"; "3 -1 -2 -3 255 0 0"]%string.

(** A first line that holds a marker without being one. *)
Definition marker_inside_word : list string :=
  ["NOFFSET"; "0 0"]%string.

(** ** Colors *)

(** Python's [x == y] on floats. *)
Definition float_eq (x y : spec_float) : Prop := SFeqb x y = true.

(** [0 <= x <= 1] for a binary32 number. *)
Definition in_unit (x : spec_float) : Prop :=
  SFleb (S754_zero false) x = true /\
  SFleb x (F32.of_F64 (F64.of_Z 1)) = true.

(** The array entry of a color channel given as the integer [z]:
    [z / 255], stored as binary32. *)
Definition channel (z : Z) : spec_float :=
  F32.of_F64 (F64.div (F64.of_Z z) f255).

(** The color [(r/255, g/255, b/255)] as an array entry. *)
Definition rgb (r g b : Z) : vec := [channel r; channel g; channel b].

(** A channel that is a number between 0 and 1. *)
Definition channel_ok (z : Z) : bool :=
  SFleb (S754_zero false) (channel z)
  && SFleb (channel z) (F32.of_F64 (F64.of_Z 1))
  && SFeqb (channel z) (channel z).

(** ** Progress reports *)

(** A binary64 number that is [+0] or, in canonical form, positive and at
    most 1. *)
Definition at_most_one (x : spec_float) : Prop :=
  x = S754_zero false \/
  exists m e, x = S754_finite false m e /\
              (e < -52 \/ (e = -52 /\ m = 4503599627370496%positive)).

(** [0 <= x <= 1] for a binary64 number. *)
Definition fraction_in_unit (x : spec_float) : Prop :=
  SFleb (S754_zero false) x = true /\ SFleb x (F64.of_Z 1) = true.

(** The faces at which the specification asks for a report: every 15000th,
    from face 0 on, and the last one. *)
Definition report_due (num_faces i : Z) : Prop :=
  i mod 15000 = 0 \/ i = num_faces - 1.

(** The same as a test. *)
Definition report_dueb (num_faces i : Z) : bool :=
  (i mod 15000 =? 0) || (i =? num_faces - 1).

(** The calls of the callback over the face iterations [faces], in order. *)
Definition calls (num_faces : Z) (faces : list Z) : list event :=
  map (fun i => Progress (F64.quotient (i + 1) num_faces) (i + 1) num_faces)
      (filter (report_dueb num_faces) faces).

(** The calls of the callback among the events of a trace. *)
Definition is_progress (e : event) : bool :=
  match e with
  | Progress _ _ _ => true
  | Printed _ => false
  end.

Definition progress_calls (t : list event) : list event :=
  filter is_progress t.

(** A callback that raises at the call for face number [num]. *)
Definition raising_at (num : Z) : callback :=
  fun _ n _ => if n =? num then Some (CallbackError 0) else None.

(** Files that make the loader fail in the four ways the specification
    names. *)
Definition unparsable_number : list string :=
  ["OFF"; "1 1"; "0 0 zero"; "3 0 0 0 255 0 0"]%string.
Definition short_face_line : list string :=
  ["OFF"; "1 1"; "0 0 0"; "3 0 0 0 255"]%string.
(** Three face records, the second with an index past the end. *)
Definition bad_second_face : list string :=
  ["OFF"; "1 3"; "0 0 0";
   "3 0 0 0 255 0 0"; "3 0 0 1 255 0 0"; "3 0 0 0 255 0 0"]%string.

(** * Further definitions *)

(** A callback that returns normally at every call. *)
Definition never_raises (cb : callback) : Prop :=
  forall fraction num den, cb fraction num den = None.

(** A file of two lines whose counts are negative. *)
Definition negative_counts : list string :=
  ["OFF"; "-5 -3"; "not a vertex"]%string.

(** A face record with an eighth field. *)
Definition face_with_alpha : list string :=
  ["3"; "0"; "1"; "2"; "255"; "0"; "0"; "128"]%string.


(** The lines printed, in order, without the calls of the callback. *)
Definition printed (t : list event) : list message :=
  flat_map (fun e => match e with
                     | Printed m => [m]
                     | Progress _ _ _ => []
                     end) t.

(** The table of four vertices of the concrete meshes. *)
Definition four_vertices : list vec :=
  [[F64.of_Z 0; F64.of_Z 0; F64.of_Z 0];
   [F64.of_Z 1; F64.of_Z 0; F64.of_Z 0];
   [F64.of_Z 0; F64.of_Z 1; F64.of_Z 0];
   [F64.of_Z 0; F64.of_Z 0; F64.of_Z 1]].

(** Lines that a text editor may leave after the last face record. *)
Definition lines_after_the_faces : list string :=
  [EmptyString; "# end of the mesh"; "3 9 9 9 0 0 0"]%string.

(** The lines as a file written with carriage returns and indentation has
    them: two spaces before each line, and a carriage return and a line feed
    after it. *)
Definition line_end : string :=
  String (ascii_of_nat 13) (String (ascii_of_nat 10) EmptyString).
Definition indented_with_line_ends (lines : list string) : list string :=
  map (fun l => ("  " ++ l ++ line_end)%string) lines.

(** The fields of the line of vertex [k], as line 81 splits them. *)
Definition vertex_parts (lines : list string) (k : Z) : option (list string) :=
  option_map (fun line => Py.split (Py.strip line)) (Py.getitem lines (2 + k)).

(** The coordinates line 81 reads from the line of vertex [k]. *)
Definition vertex_at (lines : list string) (k : Z) : option vec :=
  match vertex_parts lines k with
  | Some parts => Py.map_opt PyFloat.float parts
  | None => None
  end.

(** The row of a table of [V] rows that the subscript [idx] names: Python
    counts a negative subscript from the end. *)
Definition row_of (V idx : Z) : Z := if idx <? 0 then V + idx else idx.

(** A file that ends before its last face record. *)
Definition last_face_missing : list string :=
  ["OFF"; "3 2"; "0 0 0"; "1 0 0"; "0 1 0"; "3 0 1 2 255 0 0"]%string.

(** A file with its header only. *)
Definition header_only : list string := ["OFF"]%string.

(** A triangle record whose blue value is missing, and one whose second
    index is a word. *)
Definition blue_missing : list string :=
  ["OFF"; "3 1"; "0 0 0"; "1 0 0"; "0 1 0"; "3 0 1 2 255 0"]%string.
Definition index_is_a_word : list string :=
  ["OFF"; "3 1"; "0 0 0"; "1 0 0"; "0 1 0"; "3 0 one 2 255 0 0"]%string.

(** An empty line where the second of two face records should be. *)
Definition blank_face_line : list string :=
  ["OFF"; "3 2"; "0 0 0"; "1 0 0"; "0 1 0"; "3 0 1 2 255 0 0"; " "]%string.

(** A vertex line with a coordinate that is no number. *)
Definition vertex_with_a_word : list string :=
  ["OFF"; "3 0"; "0 0 0"; "1 zero 0"; "0 1 0"]%string.

(** A vertex table whose rows have two, three and four coordinates, and a
    face that uses rows of different lengths. *)
Definition ragged_vertices : list string :=
  ["OFF"; "3 1"; "0 0"; "1 0 0"; "0 1 0 1"; "3 0 1 2 255 0 0"]%string.

(** ** Frames of the camera *)

(** A frame in which the pointer moves and no key is down, and a frame with
    the same pointer motion in which the camera is also driven forward. *)
Definition looking_frame : frame :=
  Frame (only []) (12, -7) (milliseconds 16).
Definition moving_frame : frame :=
  Frame (only [K_w; K_d]) (12, -7) (milliseconds 33).

(** * The shaders, the window and the main loop *)

(** ** Lines 13-36: the two shaders *)

Definition VERTEX_SHADER : string := "
#version 330 core
layout (location = 0) in vec3 aPos;
layout (location = 1) in vec3 aColor;
out vec3 vertexColor;
uniform mat4 model;
uniform mat4 view;
uniform mat4 projection;
void main()
{
    gl_Position = projection * view * model * vec4(aPos, 1.0);
    vertexColor = aColor;
}
".

Definition FRAGMENT_SHADER : string := "
#version 330 core
out vec4 FragColor;
in vec3 vertexColor;
void main()
{
    FragColor = vec4(vertexColor, 1.0);
}
".

(** ** What the program calls *)

Inductive shader_type : Type := GL_VERTEX_SHADER | GL_FRAGMENT_SHADER.

(** A Python number: the first loading screen is drawn for the [int] 0, the
    others for a [float]. *)
Inductive number : Type :=
| Int (z : Z)
| Float (x : spec_float).

(** [a * x] for an [int] [a]. *)
Definition int_times (a : Z) (x : number) : number :=
  match x with
  | Int z => Int (a * z)
  | Float x => Float (F64.mul (F64.of_Z a) x)
  end.

(** The two texts of the loading screen: ["Starting Loading..."] and
    [f"Parsing faces: {num}/{den}"]. *)
Inductive label : Type :=
| Starting_Loading
| Parsing_faces (num den : Z).

(** The calls of pygame and of OpenGL, with the arguments that vary, and the
    lines that [print] writes.  [M] is the type of the matrices of the
    library. *)
Inductive effect (M : Type) : Type :=
| pygame_init
| display_set_mode (width height : Z) (opengl : bool)
| display_set_caption (title : string)
| screen_fill (r g b : Z)
| draw_rect (r g b : Z) (x y : spec_float) (width : number) (height : Z)
| font_Font (size : Z)
| font_render (text : label)
| get_rect (center_x center_y : spec_float)
| screen_blit
| display_flip
| event_pump
| print_line (m : message)
| pygame_quit
| glEnable_DEPTH_TEST
| glClearColor (r g b a : spec_float)
| glCreateShader (t : shader_type)
| glShaderSource (shader : Z) (source : string)
| glCompileShader (shader : Z)
| glGetShaderiv_COMPILE_STATUS (shader : Z)
| glGetShaderInfoLog (shader : Z)
| glCreateProgram
| glAttachShader (program shader : Z)
| glLinkProgram (program : Z)
| glGetProgramiv_LINK_STATUS (program : Z)
| glGetProgramInfoLog (program : Z)
| glDeleteShader (shader : Z)
| glGenVertexArrays
| glBindVertexArray (array : Z)
| glGenBuffers
| glBindBuffer (buffer : Z)
| glBufferData (nbytes : Z) (data : list vec)
| glVertexAttribPointer (index size : Z)
| glEnableVertexAttribArray (index : Z)
| mouse_set_visible (visible : bool)
| event_set_grab (grab : bool)
| time_Clock
| glUseProgram (program : Z)
| glGetUniformLocation (program : Z) (name : string)
| glUniformMatrix4fv (location : Z) (value : M)
| clock_tick (framerate : Z)
| event_get
| key_get_pressed
| mouse_get_rel
| glClear_COLOR_DEPTH
| glDrawArrays_TRIANGLES (first count : Z)
| glDeleteVertexArrays (array : Z)
| glDeleteBuffers (buffer : Z)
| glDeleteProgram (program : Z).

Arguments pygame_init {M}.
Arguments display_set_mode {M}.
Arguments display_set_caption {M}.
Arguments screen_fill {M}.
Arguments draw_rect {M}.
Arguments font_Font {M}.
Arguments font_render {M}.
Arguments get_rect {M}.
Arguments screen_blit {M}.
Arguments display_flip {M}.
Arguments event_pump {M}.
Arguments print_line {M}.
Arguments pygame_quit {M}.
Arguments glEnable_DEPTH_TEST {M}.
Arguments glClearColor {M}.
Arguments glCreateShader {M}.
Arguments glShaderSource {M}.
Arguments glCompileShader {M}.
Arguments glGetShaderiv_COMPILE_STATUS {M}.
Arguments glGetShaderInfoLog {M}.
Arguments glCreateProgram {M}.
Arguments glAttachShader {M}.
Arguments glLinkProgram {M}.
Arguments glGetProgramiv_LINK_STATUS {M}.
Arguments glGetProgramInfoLog {M}.
Arguments glDeleteShader {M}.
Arguments glGenVertexArrays {M}.
Arguments glBindVertexArray {M}.
Arguments glGenBuffers {M}.
Arguments glBindBuffer {M}.
Arguments glBufferData {M}.
Arguments glVertexAttribPointer {M}.
Arguments glEnableVertexAttribArray {M}.
Arguments mouse_set_visible {M}.
Arguments event_set_grab {M}.
Arguments time_Clock {M}.
Arguments glUseProgram {M}.
Arguments glGetUniformLocation {M}.
Arguments glUniformMatrix4fv {M}.
Arguments clock_tick {M}.
Arguments event_get {M}.
Arguments key_get_pressed {M}.
Arguments mouse_get_rel {M}.
Arguments glClear_COLOR_DEPTH {M}.
Arguments glDrawArrays_TRIANGLES {M}.
Arguments glDeleteVertexArrays {M}.
Arguments glDeleteBuffers {M}.
Arguments glDeleteProgram {M}.

(** How a function of the program ends: it returns, it raises
    [RuntimeError], or the frames it was given run out while its loop is
    still running. *)
Inductive ending (A : Type) : Type :=
| Returns (a : A)
| RuntimeError (message : string)
| Running.

Arguments Returns {A}.
Arguments RuntimeError {A}.
Arguments Running {A}.

(** A computation of the program: the calls it makes, in order, and how it
    ends. *)
Definition io (M A : Type) : Type := list (effect M) * ending A.

Definition io_ret {M A : Type} (a : A) : io M A := ([], Returns a).

Definition io_bind {M A B : Type} (m : io M A) (k : A -> io M B) : io M B :=
  match m with
  | (t, Returns a) => let (t', r) := k a in (t ++ t', r)
  | (t, RuntimeError message) => (t, RuntimeError message)
  | (t, Running) => (t, Running)
  end.

Notation "x <-- m ;; k" := (io_bind m (fun x => k))
  (at level 61, m at next level, right associativity).

(** One call that returns [a]. *)
Definition does {M A : Type} (e : effect M) (a : A) : io M A :=
  ([e], Returns a).

(** Calls that return nothing the program uses. *)
Definition do_all {M : Type} (es : list (effect M)) : io M unit :=
  (es, Returns tt).

Definition raise_RuntimeError {M A : Type} (message : string) : io M A :=
  ([], RuntimeError message).

(** What OpenGL returns: the names of the objects it creates, the two
    statuses with their logs, and the locations of the uniforms. *)
Record driver : Type := Driver {
  shader_name : shader_type -> Z;
  compile_status : Z -> Z;
  shader_log : Z -> string;
  program_name : Z;
  link_status : Z -> Z;
  program_log : Z -> string;
  vertex_array_name : Z;
  first_buffer_name : Z;
  second_buffer_name : Z;
  uniform_location : Z -> string -> Z
}.

(** The functions of the library that make matrices. *)
Record matrices (M : Type) : Type := Matrices {
  mat4 : spec_float -> M;
  rotate : M -> spec_float -> vec3 -> M;
  perspective : spec_float -> spec_float -> spec_float -> spec_float -> M;
  lookAt : vec3 -> vec3 -> vec3 -> M
}.

Arguments mat4 {M}.
Arguments rotate {M}.
Arguments perspective {M}.
Arguments lookAt {M}.

(** The events of a frame that the loop looks at. *)
Inductive input_event : Type :=
| QUIT
| KEYDOWN_K_ESCAPE
| KEYDOWN_other
| other_event.

(** Line 230. *)
Definition stops (e : input_event) : bool :=
  match e with
  | QUIT | KEYDOWN_K_ESCAPE => true
  | KEYDOWN_other | other_event => false
  end.

(** What pygame returns in one iteration of the loop: the milliseconds of
    [clock.tick(60)], the events, the keys that are down and the motion of
    the pointer. *)
Record tick : Type := Tick {
  passed : Z;
  events : list input_event;
  pressed : key -> bool;
  pointer : Z * Z
}.

Section Engine.
Variable G : Glm.lib.
Variable M : Type.
Variable X : matrices M.
Variable D : driver.

(** Lines 39-46. *)
Definition compile_shader (source : string) (shader_type : shader_type)
  : io M Z :=
  shader <-- does (glCreateShader shader_type) (shader_name D shader_type) ;;
  _ <-- do_all [glShaderSource shader source; glCompileShader shader] ;;
  status <-- does (glGetShaderiv_COMPILE_STATUS shader)
                  (compile_status D shader) ;;
  if status =? 0 then
    error <-- does (glGetShaderInfoLog shader) (shader_log D shader) ;;
    raise_RuntimeError ("Shader compilation failed: " ++ error)
  else io_ret shader.

(** Lines 48-60. *)
Definition create_shader_program (vertex_source fragment_source : string)
  : io M Z :=
  vertex_shader <-- compile_shader vertex_source GL_VERTEX_SHADER ;;
  fragment_shader <-- compile_shader fragment_source GL_FRAGMENT_SHADER ;;
  program <-- does glCreateProgram (program_name D) ;;
  _ <-- do_all [glAttachShader program vertex_shader;
                glAttachShader program fragment_shader;
                glLinkProgram program] ;;
  status <-- does (glGetProgramiv_LINK_STATUS program)
                  (link_status D program) ;;
  if status =? 0 then
    error <-- does (glGetProgramInfoLog program) (program_log D program) ;;
    raise_RuntimeError ("Shader linking failed: " ++ error)
  else
    _ <-- do_all [glDeleteShader vertex_shader;
                  glDeleteShader fragment_shader] ;;
    io_ret program.

(** Lines 118-119, the two calls at the end of [Camera.__init__]. *)
Definition Camera_new : io M Camera :=
  _ <-- do_all [mouse_set_visible false; event_set_grab true] ;;
  io_ret Camera_default.

(** Lines 121-124. *)
Definition get_view_matrix (self : Camera) : M :=
  let forward := get_forward_vector G self in
  lookAt X (position self) (Glm.add (position self) forward) world_up.

Definition display_width : Z := 1280.
Definition display_height : Z := 720.

(** Lines 160-174.  The divisions by 2 are exact. *)
Definition draw_loading_screen (progress : number) (text : label)
  : list (effect M) :=
  let bar_width := 400 in
  let bar_height := 30 in
  let bar_x := F64.quotient (display_width - bar_width) 2 in
  let bar_y := F64.quotient (display_height - bar_height) 2 in
  let fill_width := int_times bar_width progress in
  [screen_fill 25 25 25;
   draw_rect 50 50 50 bar_x bar_y (Int bar_width) bar_height;
   draw_rect 100 200 255 bar_x bar_y fill_width bar_height;
   font_Font 24;
   font_render text;
   get_rect (F64.quotient display_width 2)
            (F64.add (F64.add bar_y (F64.of_Z bar_height)) (F64.of_Z 20));
   screen_blit;
   display_flip;
   event_pump].

(** Line 177: what the loader prints and reports, as calls of the program.
    The loading screen is taken to return normally. *)
Definition shown (e : event) : list (effect M) :=
  match e with
  | Printed m => [print_line m]
  | Progress fraction num den =>
      draw_loading_screen (Float fraction) (Parsing_faces num den)
  end.

Definition load (fs : filesystem)
  : io M (option (list vec * list vec)) :=
  let (t, arrays) := load_custom_off fs "room.off" (Some quiet) in
  (flat_map shown t, Returns arrays).

(** [a.nbytes] for an array of binary32 numbers. *)
Definition nbytes (a : list vec) : Z := 4 * Z.of_nat (List.length (List.concat a)).

(** [len(a)] *)
Definition len {A : Type} (a : list A) : Z := Z.of_nat (List.length a).

(** Lines 227-247: one iteration of the loop, after the events were looked
    at and the camera was moved. *)
Definition draw_frame (shader_program view_loc VAO : Z)
    (vertices : list vec) (camera : Camera) : list (effect M) :=
  [glClear_COLOR_DEPTH;
   glUseProgram shader_program;
   glUniformMatrix4fv view_loc (get_view_matrix camera);
   glBindVertexArray VAO;
   glDrawArrays_TRIANGLES 0 (len vertices);
   glBindVertexArray 0;
   display_flip].

(** Lines 226-247: the loop, over the frames that pygame delivers.  It ends
    after the first frame with an event that stops it; the camera it
    returns is the one of the last frame drawn. *)
Fixpoint main_loop (shader_program view_loc VAO : Z) (vertices : list vec)
    (ticks : list tick) (camera : Camera) : io M Camera :=
  match ticks with
  | [] => ([], Running)
  | t :: ticks' =>
      delta_time <-- does (clock_tick 60) (milliseconds (passed t)) ;;
      evs <-- does event_get (events t) ;;
      let running := negb (existsb stops evs) in
      keys <-- does key_get_pressed (pressed t) ;;
      mouse_rel <-- does mouse_get_rel (pointer t) ;;
      let camera := process_input G camera keys mouse_rel delta_time in
      _ <-- do_all (draw_frame shader_program view_loc VAO vertices camera) ;;
      if running
      then main_loop shader_program view_loc VAO vertices ticks' camera
      else io_ret camera
  end.

(** What the set-up of the engine hands to the loop and to the cleanup. *)
Record engine : Type := Engine {
  shader_program : Z;
  VAO : Z;
  VBO_vertices : Z;
  VBO_colors : Z;
  view_loc : Z;
  camera : Camera
}.

(** Lines 155-177, "Part 1: Initialization and 2D Loading Screen". *)
Definition loading_screen (fs : filesystem)
  : io M (option (list vec * list vec)) :=
  _ <-- do_all [pygame_init;
                display_set_mode display_width display_height false;
                display_set_caption "Loading..."] ;;
  _ <-- do_all (draw_loading_screen (Int 0) Starting_Loading) ;;
  load fs.

(** Lines 183-222, "Part 2: Re-initialize in 3D and Setup the Engine". *)
Definition setup (vertices colors : list vec) : io M engine :=
  _ <-- do_all [display_set_mode display_width display_height true;
                display_set_caption "Triangle Splatting Real-Time Engine";
                glEnable_DEPTH_TEST;
                glClearColor (float_lit false 1 (-1)) (float_lit false 1 (-1))
                             (float_lit false 1 (-1)) (float_lit false 1 0)] ;;
  shader_program <-- create_shader_program VERTEX_SHADER FRAGMENT_SHADER ;;
  VAO <-- does glGenVertexArrays (vertex_array_name D) ;;
  _ <-- do_all [glBindVertexArray VAO] ;;
  VBO_vertices <-- does glGenBuffers (first_buffer_name D) ;;
  _ <-- do_all [glBindBuffer VBO_vertices;
                glBufferData (nbytes vertices) vertices;
                glVertexAttribPointer 0 3;
                glEnableVertexAttribArray 0] ;;
  VBO_colors <-- does glGenBuffers (second_buffer_name D) ;;
  _ <-- do_all [glBindBuffer VBO_colors;
                glBufferData (nbytes colors) colors;
                glVertexAttribPointer 1 3;
                glEnableVertexAttribArray 1;
                glBindVertexArray 0] ;;
  camera <-- Camera_new ;;
  _ <-- do_all [time_Clock; glUseProgram shader_program] ;;
  model_loc <-- does (glGetUniformLocation shader_program "model")
                     (uniform_location D shader_program "model") ;;
  view_loc <-- does (glGetUniformLocation shader_program "view")
                    (uniform_location D shader_program "view") ;;
  proj_loc <-- does (glGetUniformLocation shader_program "projection")
                    (uniform_location D shader_program "projection") ;;
  let projection_matrix :=
    perspective X (Glm.radians G (float_lit false 45 0))
      (F64.quotient display_width display_height)
      (float_lit false 1 (-1)) (float_lit false 1000 0) in
  _ <-- do_all [glUniformMatrix4fv proj_loc projection_matrix] ;;
  let model_matrix := mat4 X (float_lit false 1 0) in
  let model_matrix :=
    rotate X model_matrix (Glm.radians G (float_lit false 1512 (-1)))
           (Glm.vec3_of (F64.of_Z 1) (F64.of_Z 0) (F64.of_Z 0)) in
  let model_matrix :=
    rotate X model_matrix (Glm.radians G (float_lit true 27 (-1)))
           (Glm.vec3_of (F64.of_Z 0) (F64.of_Z 1) (F64.of_Z 0)) in
  let model_matrix :=
    rotate X model_matrix (Glm.radians G (float_lit true 135 (-2)))
           (Glm.vec3_of (F64.of_Z 0) (F64.of_Z 0) (F64.of_Z 1)) in
  _ <-- do_all [glUniformMatrix4fv model_loc model_matrix] ;;
  io_ret (Engine shader_program VAO VBO_vertices VBO_colors view_loc camera).

(** Lines 250-254, "Cleanup". *)
Definition cleanup (e : engine) : list (effect M) :=
  [glDeleteVertexArrays (VAO e);
   glDeleteBuffers (VBO_vertices e);
   glDeleteBuffers (VBO_colors e);
   glDeleteProgram (shader_program e);
   pygame_quit].

(** Lines 153-254. *)
Definition main (fs : filesystem) (ticks : list tick) : io M unit :=
  arrays <-- loading_screen fs ;;
  match arrays with
  | None => do_all [pygame_quit]
  | Some (vertices, colors) =>
      e <-- setup vertices colors ;;
      _ <-- main_loop (shader_program e) (view_loc e) (VAO e) vertices
              ticks (camera e) ;;
      do_all (cleanup e)
  end.

End Engine.

(** ** Observers of a run of the program *)

(** The calls that need the OpenGL window: those of OpenGL and the one that
    opens the window. *)
Definition is_opengl {M : Type} (e : effect M) : bool :=
  match e with
  | display_set_mode _ _ opengl => opengl
  | pygame_init | display_set_caption _ | screen_fill _ _ _
  | draw_rect _ _ _ _ _ _ _ | font_Font _ | font_render _ | get_rect _ _
  | screen_blit | display_flip | event_pump | print_line _ | pygame_quit
  | mouse_set_visible _ | event_set_grab _ | time_Clock | clock_tick _
  | event_get | key_get_pressed | mouse_get_rel => false
  | _ => true
  end.

(** The calls that delete an object of OpenGL. *)
Definition is_delete {M : Type} (e : effect M) : bool :=
  match e with
  | glDeleteShader _ | glDeleteVertexArrays _ | glDeleteBuffers _
  | glDeleteProgram _ => true
  | _ => false
  end.

(** The calls of the loop: the tick of the clock and the draw call. *)
Definition is_tick {M : Type} (e : effect M) : bool :=
  match e with
  | clock_tick _ => true
  | _ => false
  end.

Definition is_quit {M : Type} (e : effect M) : bool :=
  match e with
  | pygame_quit => true
  | _ => false
  end.

(** The vertex counts of the draw calls, in order. *)
Definition draws {M : Type} (t : list (effect M)) : list Z :=
  flat_map (fun e => match e with
                     | glDrawArrays_TRIANGLES _ count => [count]
                     | _ => []
                     end) t.

(** The matrices given to [glUniformMatrix4fv], in order. *)
Definition uploads {M : Type} (t : list (effect M)) : list M :=
  flat_map (fun e => match e with
                     | glUniformMatrix4fv _ value => [value]
                     | _ => []
                     end) t.

(** Both shaders compile and the program links. *)
Definition builds (D : driver) : Prop :=
  compile_status D (shader_name D GL_VERTEX_SHADER) <> 0 /\
  compile_status D (shader_name D GL_FRAGMENT_SHADER) <> 0 /\
  link_status D (program_name D) <> 0.

(** A frame with an event that stops the loop. *)
Definition stopping (t : tick) : bool := existsb stops (events t).

(** The frame of the camera that a frame of the loop is. *)
Definition frame_of (t : tick) : frame :=
  Frame (pressed t) (pointer t) (milliseconds (passed t)).

(** The calls of one iteration of the loop that draws with [camera]. *)
Definition frame_calls {M : Type} (G : Glm.lib) (X : matrices M)
    (shader_program view_loc VAO : Z) (vertices : list vec)
    (camera : Camera) : list (effect M) :=
  [clock_tick 60; event_get; key_get_pressed; mouse_get_rel]
  ++ draw_frame G M X shader_program view_loc VAO vertices camera.

(** The cameras of the frames [ticks], from the camera before the first. *)
Fixpoint cameras (G : Glm.lib) (ticks : list tick) (camera : Camera)
  : list Camera :=
  match ticks with
  | [] => []
  | t :: ticks' =>
      let camera := step G camera (frame_of t) in
      camera :: cameras G ticks' camera
  end.

(** Drivers: one for which everything succeeds, one whose fragment shader
    does not compile, one whose program does not link. *)
Definition good_driver : driver :=
  {| shader_name := fun t => match t with
                             | GL_VERTEX_SHADER => 1
                             | GL_FRAGMENT_SHADER => 2
                             end;
     compile_status := fun _ => 1;
     shader_log := fun _ => EmptyString;
     program_name := 3;
     link_status := fun _ => 1;
     program_log := fun _ => EmptyString;
     vertex_array_name := 1;
     first_buffer_name := 1;
     second_buffer_name := 2;
     uniform_location := fun _ name =>
       if String.eqb name "model" then 0
       else if String.eqb name "view" then 1 else 2 |}.

Definition fragment_fails : driver :=
  {| shader_name := shader_name good_driver;
     compile_status := fun shader => if shader =? 2 then 0 else 1;
     shader_log := fun _ => "0:5: syntax error"%string;
     program_name := 3;
     link_status := fun _ => 1;
     program_log := fun _ => EmptyString;
     vertex_array_name := 1;
     first_buffer_name := 1;
     second_buffer_name := 2;
     uniform_location := uniform_location good_driver |}.

Definition link_fails : driver :=
  {| shader_name := shader_name good_driver;
     compile_status := fun _ => 1;
     shader_log := fun _ => EmptyString;
     program_name := 3;
     link_status := fun _ => 0;
     program_log := fun _ => "varying not written"%string;
     vertex_array_name := 1;
     first_buffer_name := 1;
     second_buffer_name := 2;
     uniform_location := uniform_location good_driver |}.

(** Matrices reduced to the eye of [lookAt]: enough to tell the views of two
    cameras apart. *)
Definition eye_only : matrices vec3 :=
  {| mat4 := fun _ => Vec3 (S754_zero false) (S754_zero false) (S754_zero false);
     rotate := fun m _ _ => m;
     perspective := fun _ _ _ _ =>
       Vec3 (S754_zero false) (S754_zero false) (S754_zero false);
     lookAt := fun eye _ _ => eye |}.

(** Frames of the loop: one in which nothing happens, one in which a key
    other than escape goes down, one in which the window is closed. *)
Definition idle_tick : tick := Tick 16 [] (only []) (0, 0).
Definition walking_tick : tick :=
  Tick 17 [KEYDOWN_other; other_event] (only [K_w]) (3, -2).
Definition closing_tick : tick := Tick 16 [other_event; QUIT] (only []) (0, 0).

(** The calls that are none of the loop, of the cleanup or of OpenGL: those
    of the loading screen and of the loader. *)
Definition is_loading {M : Type} (e : effect M) : bool :=
  negb (is_opengl e) && negb (is_tick e) && negb (is_quit e).

(** The calls before the loop: no tick of the clock, no draw call, and no
    [pygame.quit()]. *)
Definition before_the_loop {M : Type} (t : list (effect M)) : Prop :=
  draws t = [] /\
  Forall (fun e => is_tick e = false) t /\
  Forall (fun e => is_quit e = false) t.

(** The number of ticks of the clock. *)
Definition ticks_of {M : Type} (t : list (effect M)) : nat :=
  List.length (filter is_tick t).

(** The engine that the set-up hands over when everything succeeds. *)
Definition engine_of (D : driver) : engine :=
  Engine (program_name D) (vertex_array_name D)
         (first_buffer_name D) (second_buffer_name D)
         (uniform_location D (program_name D) "view")
         Camera_default.

(** A pitch as the clamp of line 137 leaves it: strictly between the two
    bounds, or one of the two bounds as the clamp writes it. *)
Definition pitch_settled (self : Camera) : Prop :=
  (F64.ltb (float_lit true 89 0) (pitch self) = true /\
   F64.ltb (pitch self) (float_lit false 89 0) = true) \/
  pitch self = float_lit false 89 0 \/
  pitch self = float_lit true 89 0.

(** The camera after a frame that turned it. *)
Definition turned_camera : Camera :=
  process_input axis_lib Camera_default (only [K_w]) (250, -40)
    (milliseconds 16).

(** * Binary32 numbers as integers *)

(** Every finite binary32 number is a multiple of [2 ^ -149], the smallest
    positive one: [units x] is the number of times [x] holds it. *)
Definition units (x : spec_float) : Z :=
  match x with
  | S754_finite s m e => cond_Zopp s (Zpos m * 2 ^ (e + 149))
  | _ => 0
  end.

(** A zero or a finite number in the form of binary32. *)
Definition finite32 (x : spec_float) : bool :=
  match x with
  | S754_finite _ m e => bounded F32.prec F32.emax m e
  | S754_zero _ => true
  | _ => false
  end.

(** [z] units are a binary32 number: [z] has at most 24 significant bits
    and is below [2 ^ 128]. *)
Definition fits32 (z : Z) : bool :=
  let spare := Z.max (Zdigits2 z - 24) 0 in
  (Z.abs z mod 2 ^ spare =? 0) && (Zdigits2 z <=? 277).

(** The coordinate [x] can take the step [y] without rounding: both are
    finite binary32 numbers, [x] is not the negative zero, and their exact
    sum is a binary32 number. *)
Definition exact_sum (x y : spec_float) : Prop :=
  finite32 x = true /\ x <> S754_zero true /\ finite32 y = true /\
  fits32 (units x + units y) = true.

Definition exact_difference (x y : spec_float) : Prop :=
  finite32 x = true /\ x <> S754_zero true /\ finite32 y = true /\
  fits32 (units x - units y) = true.

(** The same for the three coordinates of a position [p] and of a
    displacement [d]. *)
Definition exact_step_forth (p d : vec3) : Prop :=
  exact_sum (vx p) (vx d) /\ exact_sum (vy p) (vy d) /\
  exact_sum (vz p) (vz d).

Definition exact_step_back (p d : vec3) : Prop :=
  exact_difference (vx p) (vx d) /\ exact_difference (vy p) (vy d) /\
  exact_difference (vz p) (vz d).

(** ** A step that is rounded *)

(** The unit in the last place of a finite number, in units of
    [2 ^ -149]. *)
Definition ulp32 (x : spec_float) : Z :=
  match x with
  | S754_finite _ _ e => 2 ^ (e + 149)
  | _ => 0
  end.

(** The coordinate [r], reached from [x] by way of [s], is no further from
    [x] than two roundings to nearest allow: half a unit in the last place
    of [s] and half a unit in the last place of [r]. *)
Definition within_rounding (x s r : spec_float) : Prop :=
  2 * Z.abs (units r - units x) <= ulp32 s + ulp32 r.

Definition step_within_rounding (p s r : vec3) : Prop :=
  within_rounding (vx p) (vx s) (vx r) /\
  within_rounding (vy p) (vy s) (vy r) /\
  within_rounding (vz p) (vz s) (vz r).

Definition finite3 (p : vec3) : bool :=
  finite32 (vx p) && finite32 (vy p) && finite32 (vz p).

(** No coordinate of the position [p], of the displacement [d], of the sum
    and of the difference that follows it is an infinity or a NaN. *)
Definition finite_forth_and_back (p d : vec3) : bool :=
  finite3 p && finite3 d && finite3 (Glm.add p d) &&
  finite3 (Glm.sub (Glm.add p d) d).

Definition finite_back_and_forth (p d : vec3) : bool :=
  finite3 p && finite3 d && finite3 (Glm.sub p d) &&
  finite3 (Glm.add (Glm.sub p d) d).

(** [rec] is what [k] shifts to the right leave of [M0]: the quotient, and
    in its two bits the place of the remainder. *)
Definition located (k M0 : Z) (rec : shr_record) : Prop :=
  exists rem,
    0 <= rem < 2 ^ k /\ M0 = shr_m rec * 2 ^ k + rem /\ 0 <= shr_m rec /\
    match shr_r rec, shr_s rec with
    | false, false => rem = 0
    | false, true => 0 < 2 * rem < 2 ^ k
    | true, false => 2 * rem = 2 ^ k
    | true, true => 2 ^ k < 2 * rem
    end.

(** * The [try] statement of [load_custom_off] and what it lets through

    The loader above is the function for exceptions that are subclasses of
    [Exception] and for a standard output that can be written.  Here the
    callback can raise any exception and [print] can fail, so that the
    function itself can raise: line 67 is outside the [try] statement,
    line 107 is inside its handler, and the handler is for [Exception]
    only.  Interrupts that arrive between two steps are not modelled. *)

(** The exceptions that are not subclasses of [Exception]. *)
Inductive base_exn : Type :=
| KeyboardInterrupt
| SystemExit
| GeneratorExit.

Inductive raised : Type :=
| Exception (e : exn)
| BaseException (b : base_exn).

Inductive outcome (A : Type) : Type :=
| Finishes (a : A)
| Raises (r : raised).

Arguments Finishes {A} a.
Arguments Raises {A} r.

(** A computation that prints, calls back, and finishes or raises. *)
Definition action (A : Type) : Type := list event * outcome A.

Definition act_ret {A : Type} (a : A) : action A := ([], Finishes a).

Definition act_bind {A B : Type} (m : action A) (k : A -> action B)
  : action B :=
  match m with
  | (t, Finishes a) => let (t', r) := k a in (t ++ t', r)
  | (t, Raises r) => (t, Raises r)
  end.

Notation "x <~ m ;; k" := (act_bind m (fun x => k))
  (at level 61, m at next level, right associativity).
Notation "' p <~ m ;; k" := (act_bind m (fun x => match x with p => k end))
  (at level 61, p pattern, m at next level, right associativity).

(** A step of the loader above: what it raises is an [Exception]. *)
Definition of_traced {A : Type} (m : traced A) : action A :=
  (fst m,
   match snd m with
   | Ok a => Finishes a
   | Raise e => Raises (Exception e)
   end).

Module Raising.

(** The callback returns ([None]) or raises; [print] writes its line
    ([None]) or raises. *)
Definition callback : Type := spec_float -> Z -> Z -> option raised.
Definition stdout : Type := message -> option raised.

Definition print (out : stdout) (m : message) : action unit :=
  match out m with
  | None => ([Printed m], Finishes tt)
  | Some r => ([], Raises r)
  end.

Definition call (cb : callback) (fraction : spec_float) (num den : Z)
  : action unit :=
  ([Progress fraction num den],
   match cb fraction num den with
   | None => Finishes tt
   | Some r => Raises r
   end).

(** Lines 86-98. *)
Fixpoint read_faces (progress_callback : option callback)
    (lines : list string) (vertex_positions : list vec)
    (num_vertices num_faces : Z) (n : nat) (i : Z)
    (final_vertices final_colors : list vec) : action (list vec * list vec) :=
  match n with
  | O => act_ret (final_vertices, final_colors)
  | S n' =>
      _ <~ match progress_callback with
           | Some cb =>
               if reports num_faces i then
                 progress_percentage <~
                   of_traced (lift (F64.true_div (i + 1) num_faces)) ;;
                 call cb progress_percentage (i + 1) num_faces
               else act_ret tt
           | None => act_ret tt
           end ;;
      line <~ of_traced (item lines (2 + num_vertices + i)) ;;
      face <~ of_traced
                (read_face vertex_positions (Py.split (Py.strip line))) ;;
      match face with
      | None =>
          read_faces progress_callback lines vertex_positions
            num_vertices num_faces n' (i + 1) final_vertices final_colors
      | Some (vs, cs) =>
          read_faces progress_callback lines vertex_positions
            num_vertices num_faces n' (i + 1)
            (final_vertices ++ vs) (final_colors ++ cs)
      end
  end.

(** The body of the [try] statement, lines 69-104. *)
Definition load_body (out : stdout) (fs : filesystem) (filepath : string)
    (progress_callback : option callback) : action (list vec * list vec) :=
  lines <~ of_traced (lift (fs filepath)) ;;
  l0 <~ of_traced (item lines 0) ;;
  let header := Py.strip l0 in
  _ <~ of_traced (check_header header) ;;
  l1 <~ of_traced (item lines 1) ;;
  ' (num_vertices, num_faces) <~ of_traced (read_counts l1) ;;
  vertex_positions <~
    of_traced (read_vertices lines (Z.to_nat num_vertices) 0 []) ;;
  ' (final_vertices, final_colors) <~
      read_faces progress_callback lines vertex_positions
        num_vertices num_faces (Z.to_nat num_faces) 0 [] [] ;;
  vertices_np <~ of_traced (np_array final_vertices) ;;
  colors_np <~ of_traced (np_array final_colors) ;;
  _ <~ print out (Loaded (List.length vertices_np)) ;;
  act_ret (vertices_np, colors_np).

(** Lines 67-108: the print before the [try] statement, its body, and the
    handler, which is for [Exception] and prints before it returns. *)
Definition load_custom_off (out : stdout) (fs : filesystem)
    (filepath : string) (progress_callback : option callback)
  : action (option (list vec * list vec)) :=
  _ <~ print out (Loading filepath) ;;
  match load_body out fs filepath progress_callback with
  | (t, Finishes arrays) => (t, Finishes (Some arrays))
  | (t, Raises (Exception e)) =>
      _ <~ (t, Finishes tt) ;;
      _ <~ print out (LoadError e) ;;
      act_ret None
  | (t, Raises (BaseException b)) => (t, Raises (BaseException b))
  end.

End Raising.

(** A standard output that can be written, and one that is closed. *)
Definition open_stdout : Raising.stdout := fun _ => None.
Definition closed_stdout : Raising.stdout :=
  fun _ => Some (Exception ValueError).

(** A callback of the loader above, as a callback that can raise
    anything. *)
Definition raising_exceptions (cb : callback) : Raising.callback :=
  fun fraction num den => option_map Exception (cb fraction num den).

(** A callback that is interrupted from the keyboard. *)
Definition interrupted : Raising.callback :=
  fun _ _ _ => Some (BaseException KeyboardInterrupt).

(** The callback raises subclasses of [Exception] only. *)
Definition raises_exceptions_only (cb : option Raising.callback) : Prop :=
  forall f fraction num den b,
    cb = Some f -> f fraction num den <> Some (BaseException b).

(** The callback of the loader above that raises the exceptions of [cb]. *)
Definition exceptions_of (cb : Raising.callback) : callback :=
  fun fraction num den =>
    match cb fraction num den with
    | Some (Exception e) => Some e
    | _ => None
    end.

(** * Properties *)

(** ** The monad of traced computations *)

Lemma snd_bind {A B : Type} (m : traced A) (k : A -> traced B) :
  snd (bind m k) =
  match snd m with
  | Ok a => snd (k a)
  | Raise e => Raise e
  end.
Proof.
  destruct m as [t [a | e]]; simpl; [destruct (k a) |]; reflexivity.
Qed.

Lemma fst_bind {A B : Type} (m : traced A) (k : A -> traced B) :
  fst (bind m k) =
  match snd m with
  | Ok a => fst m ++ fst (k a)
  | Raise e => fst m
  end.
Proof.
  destruct m as [t [a | e]]; simpl; [destruct (k a) |]; reflexivity.
Qed.

Lemma bind_lift_Ok {A B : Type} (a : A) (k : A -> traced B) :
  bind (lift (Ok a)) k = k a.
Proof. unfold bind, lift. destruct (k a); reflexivity. Qed.

Lemma bind_ret {A B : Type} (a : A) (k : A -> traced B) :
  bind (ret a) k = k a.
Proof. apply bind_lift_Ok. Qed.

Lemma snd_bind_Ok {A B : Type} (m : traced A) (k : A -> traced B) (b : B) :
  snd (bind m k) = Ok b -> exists a, snd m = Ok a /\ snd (k a) = Ok b.
Proof.
  rewrite snd_bind. destruct (snd m) as [a | e]; [eauto | discriminate].
Qed.

Lemma snd_item {A : Type} (l : list A) (i : Z) (a : A) :
  snd (item l i) = Ok a <-> Py.getitem l i = Some a.
Proof.
  unfold item, lift, or_raise. simpl.
  destruct (Py.getitem l i); split; congruence.
Qed.

Lemma returned_body fs filepath cb :
  returned fs filepath cb =
  match snd (load_body fs filepath cb) with
  | Ok arrays => Some arrays
  | Raise _ => None
  end.
Proof.
  unfold returned, load_custom_off.
  destruct (load_body fs filepath cb) as [t [a | e]]; reflexivity.
Qed.

Lemma returned_Some fs filepath cb arrays :
  returned fs filepath cb = Some arrays <->
  snd (load_body fs filepath cb) = Ok arrays.
Proof.
  rewrite returned_body.
  destruct (snd (load_body fs filepath cb)); split; congruence.
Qed.

(** ** Ranges and subscripts *)

Lemma in_zrange (n : nat) : forall i k,
  In k (zrange i n) <-> i <= k < i + Z.of_nat n.
Proof.
  induction n as [| n IH]; intros i k; simpl.
  - lia.
  - rewrite IH. lia.
Qed.

Lemma in_range (n k : Z) : In k (range n) <-> 0 <= k < n.
Proof. unfold range. rewrite in_zrange. lia. Qed.

Lemma zrange_app (n m : nat) : forall i,
  zrange i (n + m) = zrange i n ++ zrange (i + Z.of_nat n) m.
Proof.
  induction n as [| n IH]; intros i.
  - simpl. f_equal. lia.
  - cbn [Nat.add zrange app]. rewrite IH. do 3 f_equal. lia.
Qed.

Lemma range_split (n k : Z) :
  0 <= k < n ->
  range n = range k ++ k :: zrange (k + 1) (Z.to_nat (n - k - 1)).
Proof.
  intros H. unfold range.
  replace (Z.to_nat n) with (Z.to_nat k + S (Z.to_nat (n - k - 1)))%nat by lia.
  rewrite zrange_app. simpl. rewrite Z2Nat.id by lia. reflexivity.
Qed.

Lemma NoDup_zrange (n : nat) : forall i, NoDup (zrange i n).
Proof.
  induction n as [| n IH]; intros i; simpl; constructor.
  - rewrite in_zrange. lia.
  - apply IH.
Qed.

Lemma getitem_Some_range {A : Type} (l : list A) (i : Z) (a : A) :
  Py.getitem l i = Some a ->
  - Z.of_nat (List.length l) <= i < Z.of_nat (List.length l).
Proof.
  unfold Py.getitem.
  destruct ((0 <=? i) && (i <? Z.of_nat (List.length l))) eqn:E1.
  - intros _. apply andb_true_iff in E1. lia.
  - destruct ((- Z.of_nat (List.length l) <=? i) && (i <? 0)) eqn:E2.
    + intros _. apply andb_true_iff in E2. lia.
    + discriminate.
Qed.

Lemma getitem_0 {A : Type} (a : A) (l : list A) : Py.getitem (a :: l) 0 = Some a.
Proof.
  unfold Py.getitem. cbn [List.length].
  replace (0 <? Z.of_nat (S (List.length l))) with true
    by (symmetry; apply Z.ltb_lt; lia).
  reflexivity.
Qed.

Lemma getitem_nat {A : Type} (l : list A) (n : nat) :
  Py.getitem l (Z.of_nat n) = nth_error l n.
Proof.
  unfold Py.getitem.
  destruct (Z.of_nat n <? Z.of_nat (List.length l)) eqn:E.
  - replace (0 <=? Z.of_nat n) with true by (symmetry; apply Z.leb_le; lia).
    simpl. rewrite Nat2Z.id. reflexivity.
  - rewrite andb_false_r.
    replace (Z.of_nat n <? 0) with false by (symmetry; apply Z.ltb_ge; lia).
    rewrite andb_false_r. symmetry. apply nth_error_None.
    apply Z.ltb_ge in E. lia.
Qed.

(** ** The traces of the steps without output are empty *)

Lemma silent_lift {A : Type} (r : result A) : silent (lift r).
Proof. reflexivity. Qed.

Lemma silent_ret {A : Type} (a : A) : silent (ret a).
Proof. reflexivity. Qed.

Lemma silent_bind {A B : Type} (m : traced A) (k : A -> traced B) :
  silent m -> (forall a, silent (k a)) -> silent (bind m k).
Proof.
  unfold silent. intros Hm Hk. rewrite fst_bind.
  destruct (snd m); [rewrite Hm, Hk |]; auto.
Qed.

Ltac silence :=
  repeat first
    [ apply silent_ret
    | apply silent_lift
    | apply silent_bind; [| intros ?] ].

Lemma silent_check_header header : silent (check_header header).
Proof. unfold check_header. destruct (_ && _); silence. Qed.

Lemma silent_read_counts line : silent (read_counts line).
Proof. unfold read_counts, item. silence. Qed.

Lemma silent_read_vertices lines n : forall i acc,
  silent (read_vertices lines n i acc).
Proof.
  induction n as [| n IH]; intros i acc; cbn [read_vertices].
  - silence.
  - unfold item. silence. apply IH.
Qed.

Lemma silent_read_face vp parts : silent (read_face vp parts).
Proof.
  unfold read_face, item, int, float.
  apply silent_bind; [silence | intros p0].
  apply silent_bind; [silence | intros k].
  destruct (negb (k =? 3)); silence.
Qed.

Lemma silent_np_array rows : silent (np_array rows).
Proof.
  unfold np_array. destruct rows as [| r rs]; [silence |].
  match goal with |- context [forallb ?f rs] => destruct (forallb f rs) end;
    silence.
Qed.

(** ** One face record *)

Lemma snd_field {A : Type} (parts : list string) (j : Z)
    (read : string -> option A) (B : Type) (k : A -> traced B) (b : B) :
  snd (p <- item parts j ;; x <- lift (or_raise ValueError (read p)) ;; k x)
  = Ok b ->
  exists x, field parts j read = Some x /\ snd (k x) = Ok b.
Proof.
  intros H. apply snd_bind_Ok in H. destruct H as (p & Hp & H).
  apply snd_item in Hp. apply snd_bind_Ok in H. destruct H as (x & Hx & H).
  exists x. split; [| exact H].
  unfold field. rewrite Hp. simpl in Hx. unfold or_raise in Hx.
  destruct (read p); congruence.
Qed.

Lemma read_face_Ok vp parts face :
  snd (read_face vp parts) = Ok face ->
  exists k, leading_count parts = Some k /\
    ((k <> 3 /\ face = None) \/
     (k = 3 /\ exists vs cs, face = Some (vs, cs) /\ accepted vp parts vs cs)).
Proof.
  unfold read_face, int, float. intros H.
  apply snd_field in H. destruct H as (k & Hk & H).
  exists k. split; [exact Hk |].
  destruct (k =? 3) eqn:E; cbn [negb] in H.
  - apply Z.eqb_eq in E. right. split; [exact E |].
    apply snd_field in H. destruct H as (i1 & H1 & H).
    apply snd_field in H. destruct H as (i2 & H2 & H).
    apply snd_field in H. destruct H as (i3 & H3 & H).
    apply snd_field in H. destruct H as (r & H4 & H).
    apply snd_field in H. destruct H as (g & H5 & H).
    apply snd_field in H. destruct H as (b & H6 & H).
    apply snd_bind_Ok in H. destruct H as (v1 & Hv1 & H).
    apply snd_bind_Ok in H. destruct H as (v2 & Hv2 & H).
    apply snd_bind_Ok in H. destruct H as (v3 & Hv3 & H).
    apply snd_item in Hv1, Hv2, Hv3. simpl in H. injection H as <-.
    eexists _, _. split; [reflexivity |].
    exists i1, i2, i3, r, g, b, v1, v2, v3. repeat split; assumption.
  - apply Z.eqb_neq in E. left. split; [exact E |].
    simpl in H. injection H as <-. reflexivity.
Qed.

Lemma read_face_skip vp parts k :
  leading_count parts = Some k -> k <> 3 -> read_face vp parts = ret None.
Proof.
  unfold leading_count, read_face, item, int. intros Hk Hne.
  destruct (Py.getitem parts 0) as [p0 |]; [| discriminate].
  simpl or_raise. rewrite bind_lift_Ok. rewrite Hk. simpl or_raise.
  rewrite bind_lift_Ok.
  apply Z.eqb_neq in Hne. rewrite Hne. reflexivity.
Qed.

Lemma face_at_Ok lines vp V i face :
  face_at lines vp V i = Ok face ->
  exists parts, face_parts lines V i = Some parts /\
                snd (read_face vp parts) = Ok face.
Proof.
  unfold face_at, face_parts. intros H.
  apply snd_bind_Ok in H. destruct H as (line & Hl & H).
  apply snd_item in Hl. rewrite Hl. simpl. eauto.
Qed.

Lemma face_at_emitted lines vp V i face :
  face_at lines vp V i = Ok face ->
  (is_triangle lines V i = false /\ emitted (Ok face) = ([], [])) \/
  (is_triangle lines V i = true /\
   exists parts vs cs, face_parts lines V i = Some parts /\
     emitted (Ok face) = (vs, cs) /\ accepted vp parts vs cs).
Proof.
  intros H. apply face_at_Ok in H. destruct H as (parts & Hp & H).
  apply read_face_Ok in H. destruct H as (k & Hk & H).
  unfold is_triangle. rewrite Hp, Hk.
  destruct H as [[Hne ->] | [-> (vs & cs & -> & Hacc)]].
  - left. split; [apply Z.eqb_neq; exact Hne | reflexivity].
  - right. split; [reflexivity |]. exists parts, vs, cs. auto.
Qed.

(** ** The two loops *)

Lemma read_vertices_length lines n : forall i acc vp,
  snd (read_vertices lines n i acc) = Ok vp ->
  List.length vp = (List.length acc + n)%nat.
Proof.
  induction n as [| n IH]; intros i acc vp H; cbn [read_vertices] in H.
  - simpl in H. injection H as <-. lia.
  - apply snd_bind_Ok in H. destruct H as (line & _ & H).
    apply snd_bind_Ok in H. destruct H as (v & _ & H).
    apply IH in H. rewrite H, length_app. simpl. lia.
Qed.

Lemma read_faces_Ok cb lines vp V F n : forall i fv fc fv' fc',
  snd (read_faces cb lines vp V F n i fv fc) = Ok (fv', fc') ->
  (forall k, In k (zrange i n) -> exists face, face_at lines vp V k = Ok face)
  /\ fv' = fv ++ appended_vertices lines vp V (zrange i n)
  /\ fc' = fc ++ appended_colors lines vp V (zrange i n).
Proof.
  induction n as [| n IH]; intros i fv fc fv' fc' H; cbn [read_faces] in H.
  - simpl in H. injection H as <- <-. simpl.
    rewrite !app_nil_r. repeat split. intros k [].
  - apply snd_bind_Ok in H. destruct H as (_ & _ & H).
    assert (Hface : exists face, face_at lines vp V i = Ok face /\
              snd (match face with
                   | None => read_faces cb lines vp V F n (i + 1) fv fc
                   | Some (vs, cs) =>
                       read_faces cb lines vp V F n (i + 1)
                         (fv ++ vs) (fc ++ cs)
                   end) = Ok (fv', fc')).
    { unfold face_at. rewrite snd_bind.
      apply snd_bind_Ok in H. destruct H as (line & Hl & H). rewrite Hl.
      apply snd_bind_Ok in H. destruct H as (face & Hf & H). eauto. }
    clear H. destruct Hface as (face & Hf & H).
    unfold appended_vertices, appended_colors. cbn [zrange flat_map].
    rewrite Hf.
    destruct face as [[vs cs] |]; apply IH in H;
      destruct H as (Hall & -> & ->); cbn [emitted fst snd].
    + rewrite <- !app_assoc. repeat split.
      intros k [<- | Hk]; eauto.
    + simpl. repeat split. intros k [<- | Hk]; eauto.
Qed.

Lemma np_array_Ok rows a :
  snd (np_array rows) = Ok a -> a = map (map F32.of_F64) rows.
Proof.
  unfold np_array. destruct rows as [| r rs].
  - simpl. intros H. injection H as <-. reflexivity.
  - match goal with |- context [forallb ?f rs] => destruct (forallb f rs) end;
      simpl; intros H; [injection H as <-; reflexivity | discriminate].
Qed.

(** The steps of a load that returns arrays. *)
Lemma load_body_Ok fs filepath cb vs cs :
  snd (load_body fs filepath cb) = Ok (vs, cs) ->
  exists lines l0 V F vp fv fc,
    fs filepath = Ok lines /\
    Py.getitem lines 0 = Some l0 /\
    snd (check_header (Py.strip l0)) = Ok tt /\
    declared_counts lines = Ok (V, F) /\
    snd (read_vertices lines (Z.to_nat V) 0 []) = Ok vp /\
    snd (read_faces cb lines vp V F (Z.to_nat F) 0 [] []) = Ok (fv, fc) /\
    vs = map (map F32.of_F64) fv /\
    cs = map (map F32.of_F64) fc.
Proof.
  unfold load_body. intros H.
  apply snd_bind_Ok in H. destruct H as (lines & Hfs & H). simpl in Hfs.
  apply snd_bind_Ok in H. destruct H as (l0 & Hl0 & H). apply snd_item in Hl0.
  apply snd_bind_Ok in H. destruct H as ([] & Hh & H).
  apply snd_bind_Ok in H. destruct H as (l1 & Hl1 & H).
  apply snd_bind_Ok in H. destruct H as ([V F] & Hc & H).
  apply snd_bind_Ok in H. destruct H as (vp & Hvp & H).
  apply snd_bind_Ok in H. destruct H as ([fv fc] & Hf & H).
  apply snd_bind_Ok in H. destruct H as (vnp & Hv & H).
  apply snd_bind_Ok in H. destruct H as (cnp & Hcs & H).
  simpl in H. injection H as <- <-.
  apply np_array_Ok in Hv, Hcs.
  exists lines, l0, V, F, vp, fv, fc. repeat split; try assumption.
  unfold declared_counts. rewrite snd_bind, Hl1. exact Hc.
Qed.

Lemma appended_lengths lines vp V (faces : list Z) :
  (forall k, In k faces -> exists face, face_at lines vp V k = Ok face) ->
  List.length (appended_vertices lines vp V faces)
    = (3 * triangle_count lines V faces)%nat /\
  List.length (appended_colors lines vp V faces)
    = (3 * triangle_count lines V faces)%nat.
Proof.
  unfold appended_vertices, appended_colors, triangle_count.
  induction faces as [| i faces IH]; intros Hall; [split; reflexivity |].
  destruct IH as [IHv IHc]; [intros k Hk; apply Hall; right; exact Hk |].
  destruct (Hall i (or_introl eq_refl)) as (face & Hf).
  cbn [flat_map filter]. rewrite !length_app, IHv, IHc, Hf.
  destruct (face_at_emitted _ _ _ _ _ Hf)
    as [[-> ->] | [-> (parts & vs & cs & _ & -> & Hacc)]].
  - simpl. lia.
  - destruct Hacc as (i1 & i2 & i3 & r & g & b & v1 & v2 & v3 & Hacc).
    decompose [and] Hacc. subst vs cs. cbn [fst snd List.length]. lia.
Qed.

(** The vertex table has one row per declared vertex. *)
Lemma vertex_table_length lines V vp :
  snd (read_vertices lines (Z.to_nat V) 0 []) = Ok vp ->
  Z.of_nat (List.length vp) = Z.max 0 V.
Proof.
  intros H. apply read_vertices_length in H. rewrite H. simpl. lia.
Qed.

(** ** C3: the lengths of the two arrays *)

(** C3. When the loader returns arrays, each of the two has three entries per
    face record with leading count 3 among the [F] records read; a record
    with another leading count is skipped and appends nothing. *)
Theorem array_lengths fs filepath cb lines V F vs cs :
  fs filepath = Ok lines ->
  declared_counts lines = Ok (V, F) ->
  returned fs filepath cb = Some (vs, cs) ->
  List.length vs = (3 * triangle_count lines V (range F))%nat /\
  List.length cs = (3 * triangle_count lines V (range F))%nat /\
  (forall vp parts k,
      leading_count parts = Some k -> k <> 3 ->
      read_face vp parts = ret None).
Proof.
  intros Hfs Hc Hret. apply returned_Some, load_body_Ok in Hret.
  destruct Hret as (lines' & l0 & V' & F' & vp & fv & fc & Hfs' & _ & _ &
                    Hc' & Hvp & Hf & -> & ->).
  assert (lines' = lines) by congruence. subst lines'.
  assert (V' = V /\ F' = F) as [-> ->] by (split; congruence).
  apply read_faces_Ok in Hf. destruct Hf as (Hall & -> & ->).
  destruct (appended_lengths _ _ _ _ Hall) as [Hv Hcl].
  rewrite !length_map. simpl. unfold range. repeat split; try assumption.
  intros vp' parts k. apply read_face_skip.
Qed.

Lemma array_lengths_witness :
  match returned (one_file quad_between_triangles) "room.off" (Some quiet) with
  | Some (vs, cs) =>
      List.length vs
        = (3 * triangle_count quad_between_triangles 4 (range 3))%nat /\
      List.length cs
        = (3 * triangle_count quad_between_triangles 4 (range 3))%nat /\
      (3 * triangle_count quad_between_triangles 4 (range 3))%nat = 6%nat
  | None => False
  end.
Proof.
  destruct (returned (one_file quad_between_triangles) "room.off"
              (Some quiet)) as [[vs cs] |] eqn:H.
  - destruct (array_lengths (one_file quad_between_triangles) "room.off"
                (Some quiet) quad_between_triangles 4 3 vs cs
                eq_refl eq_refl H) as (Hv & Hc & _).
    split; [exact Hv |]. split; [exact Hc |]. vm_compute. reflexivity.
  - vm_compute in H. discriminate.
Defined.

(** The scenario of the specification: six positions and six colors, all
    of them red. *)
Example two_red_triangles_loaded :
  exists vs cs,
    returned (one_file two_red_triangles) "room.off" None = Some (vs, cs) /\
    List.length vs = 6%nat /\
    cs = repeat [F32.of_F64 (F64.of_Z 1); S754_zero false; S754_zero false] 6.
Proof.
  eexists _, _. split; [vm_compute; reflexivity |].
  split; vm_compute; reflexivity.
Qed.

(** ** C1: vertex indices *)

(** C1, as the code has it.  A face record with leading count 3 among the
    [F] records, one of whose three vertex indices is at least [V] or below
    [-V], makes the loader return [(None, None)].  (An index from [-V] to
    [-1] is accepted: it counts from the end of the vertex table.) *)
Theorem index_outside_table_fails fs filepath cb lines V F k parts j idx :
  fs filepath = Ok lines ->
  declared_counts lines = Ok (V, F) ->
  0 <= k < F ->
  face_parts lines V k = Some parts ->
  leading_count parts = Some 3 ->
  j = 1 \/ j = 2 \/ j = 3 ->
  field parts j Py.int = Some idx ->
  idx < - Z.max 0 V \/ Z.max 0 V <= idx ->
  returned fs filepath cb = None.
Proof.
  intros Hfs Hc Hk Hparts Hlead Hj Hidx Hout.
  destruct (returned fs filepath cb) as [[vs cs] |] eqn:Hret; [| reflexivity].
  exfalso. apply returned_Some, load_body_Ok in Hret.
  destruct Hret as (lines' & l0 & V' & F' & vp & fv & fc & Hfs' & _ & _ &
                    Hc' & Hvp & Hf & _).
  assert (lines' = lines) by congruence. subst lines'.
  assert (V' = V /\ F' = F) as [-> ->] by (split; congruence).
  apply vertex_table_length in Hvp.
  apply read_faces_Ok in Hf. destruct Hf as (Hall & _).
  destruct (Hall k) as (face & Hface); [apply in_range; exact Hk |].
  apply face_at_Ok in Hface. destruct Hface as (parts' & Hp' & Hface).
  assert (parts' = parts) by congruence. subst parts'.
  apply read_face_Ok in Hface. destruct Hface as (c & Hc3 & Hface).
  assert (c = 3) by congruence. subst c.
  destruct Hface as [[Hne _] | [_ (vs' & cs' & _ & Hacc)]]; [congruence |].
  destruct Hacc as (i1 & i2 & i3 & r & g & b & v1 & v2 & v3 & Hacc).
  decompose [and] Hacc.
  repeat match goal with
         | H : Py.getitem vp _ = Some _ |- _ =>
             apply getitem_Some_range in H
         end.
  destruct Hj as [-> | [-> | ->]];
    match goal with
    | H1 : field parts ?j Py.int = Some idx,
      H2 : field parts ?j Py.int = Some ?i |- _ =>
        assert (idx = i) by congruence; subst
    end; lia.
Qed.

Lemma index_outside_table_fails_witness :
  returned (one_file index_past_end) "room.off" None = None.
Proof.
  apply (index_outside_table_fails (one_file index_past_end) "room.off" None
           index_past_end 3 1 0 ["3"; "0"; "1"; "3"; "255"; "0"; "0"]%string
           3 3).
  - reflexivity.
  - vm_compute. reflexivity.
  - lia.
  - vm_compute. reflexivity.
  - vm_compute. reflexivity.
  - right. right. reflexivity.
  - vm_compute. reflexivity.
  - right. vm_compute. discriminate.
Defined.

(** The claim as the specification states it fails on negative indices: with
    three vertices, the indices [-1], [-2] and [-3] lie outside [[0, 3)], and
    the loader returns arrays, the triangle of the vertices 2, 1, 0. *)
Lemma negative_index_accepted :
  field ["3"; "-1"; "-2"; "-3"; "255"; "0"; "0"]%string 1 Py.int = Some (-1)
  /\ ~ (0 <= -1 < 3)
  /\ declared_counts negative_indices = Ok (3, 1)
  /\ face_parts negative_indices 3 0
     = Some ["3"; "-1"; "-2"; "-3"; "255"; "0"; "0"]%string
  /\ returned (one_file negative_indices) "room.off" None
     = returned (one_file
         ["OFF"; "3 1"; "0 0 0"; "1 0 0"; "0 1 0"; "3 2 1 0 255 0 0"]%string)
         "room.off" None
  /\ returned (one_file negative_indices) "room.off" None <> None
  /\ ~ (forall fs filepath cb lines V F k parts j idx,
          fs filepath = Ok lines ->
          declared_counts lines = Ok (V, F) ->
          0 <= k < F ->
          face_parts lines V k = Some parts ->
          leading_count parts = Some 3 ->
          j = 1 \/ j = 2 \/ j = 3 ->
          field parts j Py.int = Some idx ->
          ~ (0 <= idx < V) ->
          returned fs filepath cb = None).
Proof.
  split; [vm_compute; reflexivity |].
  split; [lia |].
  split; [vm_compute; reflexivity |].
  split; [vm_compute; reflexivity |].
  split; [vm_compute; reflexivity |].
  split; [vm_compute; discriminate |].
  intros H.
  specialize (H (one_file negative_indices) "room.off"%string None
                negative_indices 3 1 0
                ["3"; "-1"; "-2"; "-3"; "255"; "0"; "0"]%string 1 (-1)).
  assert (E : returned (one_file negative_indices) "room.off" None = None).
  { apply H; try (vm_compute; reflexivity); lia. }
  vm_compute in E. discriminate.
Qed.

(** ** C4: the entries of an accepted face *)

Lemma digit_value_nonneg c : Py.is_digit c = true -> 0 <= Py.digit_value c.
Proof.
  unfold Py.is_digit, Py.digit_value. intros H.
  apply andb_true_iff in H. destruct H as [H _]. apply N.leb_le in H. lia.
Qed.

Lemma read_digits_nonneg s : forall acc n v m rest,
  0 <= acc -> Py.read_digits acc n s = (v, m, rest) -> 0 <= v.
Proof.
  induction s as [| c s IH]; intros acc n v m rest Hacc H;
    cbn [Py.read_digits] in H.
  - congruence.
  - destruct (Py.is_digit c) eqn:Hd.
    + apply IH in H; [exact H |]. apply digit_value_nonneg in Hd. lia.
    + congruence.
Qed.

(** A token that [int] reads as [z >= 0] is read by [float] as the float of
    [z], or as the negative zero when it is a zero with a minus sign. *)
Lemma int_float s z :
  Py.int s = Some z -> 0 <= z ->
  exists x, PyFloat.float s = Some x /\
            (x = F64.of_Z z \/ (z = 0 /\ x = S754_zero true)).
Proof.
  unfold Py.int, PyFloat.float, Py.int_of_chars, PyFloat.float_of_chars.
  destruct (Py.drop_underscores None _) as [s1 |]; [| discriminate].
  destruct (Py.read_sign s1) as [neg s2].
  unfold PyFloat.read_decimal.
  destruct (Py.read_digits 0 0 s2) as [[v n] rest] eqn:Hd.
  destruct n as [| n]; [discriminate |].
  destruct rest as [| c rest]; [| discriminate].
  intros H Hz. injection H as H. cbn [Nat.add Z.of_nat Z.opp].
  apply read_digits_nonneg in Hd; [| lia].
  eexists. split; [reflexivity |].
  destruct neg.
  - right. assert (v = 0) by lia. subst. split; reflexivity.
  - left. subst z. destruct v as [| p | p]; [reflexivity | | lia].
    unfold F64.of_decimal, F64.of_Z.
    replace (0 <=? 0) with true by reflexivity.
    unfold cond_Zopp. rewrite Z.pow_0_r, Z.mul_1_r. reflexivity.
Qed.

Lemma channel_table :
  forallb channel_ok (zrange 0 256) = true.
Proof. vm_compute. reflexivity. Qed.

Lemma channel_in_unit z :
  0 <= z <= 255 ->
  in_unit (channel z) /\ float_eq (channel z) (channel z).
Proof.
  intros Hz. pose proof channel_table as T.
  rewrite forallb_forall in T. specialize (T z).
  unfold channel_ok in T. rewrite !andb_true_iff in T.
  unfold in_unit, float_eq. apply T. apply in_zrange. simpl. lia.
Qed.

(** The array entry of a color channel read from a field that holds the
    integer [z]. *)
Lemma channel_of_field parts j z x :
  field parts j Py.int = Some z ->
  field parts j PyFloat.float = Some x ->
  0 <= z <= 255 ->
  float_eq (F32.of_F64 (F64.div x f255)) (channel z) /\
  in_unit (F32.of_F64 (F64.div x f255)).
Proof.
  unfold field. destruct (Py.getitem parts j) as [p |]; [| discriminate].
  intros Hi Hf Hz.
  destruct (int_float p z Hi) as (x' & Hx' & Hcase); [lia |].
  assert (x' = x) by congruence. subst x'.
  destruct Hcase as [-> | [-> ->]].
  - destruct (channel_in_unit z Hz). split; assumption.
  - split; vm_compute; auto.
Qed.

Lemma appended_at lines vp V F k vs cs j :
  (forall i, In i (range F) -> exists face, face_at lines vp V i = Ok face) ->
  0 <= k < F ->
  emitted (face_at lines vp V k) = (vs, cs) ->
  (j < List.length vs)%nat -> (j < List.length cs)%nat ->
  nth_error (appended_vertices lines vp V (range F))
            (3 * triangle_count lines V (range k) + j) = nth_error vs j /\
  nth_error (appended_colors lines vp V (range F))
            (3 * triangle_count lines V (range k) + j) = nth_error cs j.
Proof.
  intros Hall Hk He Hjv Hjc.
  rewrite (range_split F k Hk) in *.
  destruct (appended_lengths lines vp V (range k)) as [Lv Lc].
  { intros i Hi. apply Hall. apply in_or_app. left. exact Hi. }
  unfold appended_vertices, appended_colors in *.
  rewrite !flat_map_app. cbn [flat_map]. rewrite He. cbn [fst snd].
  split.
  - rewrite nth_error_app2 by lia. rewrite Lv.
    replace (3 * triangle_count lines V (range k) + j
             - 3 * triangle_count lines V (range k))%nat with j by lia.
    apply nth_error_app1. exact Hjv.
  - rewrite nth_error_app2 by lia. rewrite Lc.
    replace (3 * triangle_count lines V (range k) + j
             - 3 * triangle_count lines V (range k))%nat with j by lia.
    apply nth_error_app1. exact Hjc.
Qed.

(** C4. In a load that returns arrays, a face record [k] with leading count
    3 whose color fields are integers [r], [g], [b] from 0 to 255 gives three
    consecutive entries of each array, at the offset three times the number
    of triangle records before it: the positions of its vertices [i1], [i2],
    [i3] in this order and three times the same color, which equals
    [(r/255, g/255, b/255)] and has its components between 0 and 1. *)
Theorem accepted_face_entries
    fs filepath cb lines V F vp vs cs k parts r g b :
  fs filepath = Ok lines ->
  declared_counts lines = Ok (V, F) ->
  snd (read_vertices lines (Z.to_nat V) 0 []) = Ok vp ->
  returned fs filepath cb = Some (vs, cs) ->
  0 <= k < F ->
  face_parts lines V k = Some parts ->
  leading_count parts = Some 3 ->
  field parts 4 Py.int = Some r -> 0 <= r <= 255 ->
  field parts 5 Py.int = Some g -> 0 <= g <= 255 ->
  field parts 6 Py.int = Some b -> 0 <= b <= 255 ->
  exists i1 i2 i3 v1 v2 v3 color,
    field parts 1 Py.int = Some i1 /\
    field parts 2 Py.int = Some i2 /\
    field parts 3 Py.int = Some i3 /\
    Py.getitem vp i1 = Some v1 /\
    Py.getitem vp i2 = Some v2 /\
    Py.getitem vp i3 = Some v3 /\
    let n := (3 * triangle_count lines V (range k))%nat in
    nth_error vs n = Some (map F32.of_F64 v1) /\
    nth_error vs (n + 1) = Some (map F32.of_F64 v2) /\
    nth_error vs (n + 2) = Some (map F32.of_F64 v3) /\
    nth_error cs n = Some color /\
    nth_error cs (n + 1) = Some color /\
    nth_error cs (n + 2) = Some color /\
    Forall2 float_eq color (rgb r g b) /\
    Forall in_unit color.
Proof.
  intros Hfs Hc Hvp Hret Hk Hparts Hlead Hr Hr' Hg Hg' Hb Hb'.
  apply returned_Some, load_body_Ok in Hret.
  destruct Hret as (lines' & l0 & V' & F' & vp' & fv & fc & Hfs' & _ & _ &
                    Hc' & Hvp' & Hf & -> & ->).
  assert (lines' = lines) by congruence. subst lines'.
  assert (V' = V /\ F' = F) as [-> ->] by (split; congruence).
  assert (vp' = vp) by congruence. subst vp'.
  apply read_faces_Ok in Hf. destruct Hf as (Hall & -> & ->).
  fold (range F) in Hall. fold (range F).
  destruct (Hall k) as (face & Hface); [apply in_range; exact Hk |].
  destruct (face_at_emitted _ _ _ _ _ Hface)
    as [[Htri _] | [_ (parts' & vs' & cs' & Hp' & He & Hacc)]].
  { unfold is_triangle in Htri. rewrite Hparts, Hlead in Htri. discriminate. }
  assert (parts' = parts) by congruence. subst parts'.
  destruct Hacc as (i1 & i2 & i3 & fr & fg & fb & v1 & v2 & v3 & Hacc).
  decompose [and] Hacc. clear Hacc. subst vs' cs'.
  rewrite <- Hface in He.
  exists i1, i2, i3, v1, v2, v3, (map F32.of_F64 (face_color fr fg fb)).
  repeat (split; [assumption |]).
  cbv zeta. simpl app. rewrite !nth_error_map.
  destruct (appended_at _ _ _ _ _ _ _ 0%nat Hall Hk He) as [E0 E0'];
    [simpl; lia | simpl; lia |].
  destruct (appended_at _ _ _ _ _ _ _ 1%nat Hall Hk He) as [E1 E1'];
    [simpl; lia | simpl; lia |].
  destruct (appended_at _ _ _ _ _ _ _ 2%nat Hall Hk He) as [E2 E2'];
    [simpl; lia | simpl; lia |].
  rewrite Nat.add_0_r in E0, E0'. unfold vec in *.
  rewrite E0, E1, E2, E0', E1', E2'. cbn [nth_error option_map].
  repeat (split; [reflexivity |]).
  destruct (channel_of_field parts 4 r fr) as [Er Ur]; try assumption.
  destruct (channel_of_field parts 5 g fg) as [Eg Ug]; try assumption.
  destruct (channel_of_field parts 6 b fb) as [Eb Ub]; try assumption.
  unfold face_color, rgb. cbn [map]. split.
  - constructor; [exact Er |]. constructor; [exact Eg |].
    constructor; [exact Eb |]. constructor.
  - constructor; [exact Ur |]. constructor; [exact Ug |].
    constructor; [exact Ub |]. constructor.
Qed.

Lemma accepted_face_entries_witness :
  match returned (one_file quad_between_triangles) "room.off" (Some quiet) with
  | Some (vs, cs) =>
      exists v1 v2 v3 color,
        let n := (3 * triangle_count quad_between_triangles 4 (range 2))%nat in
        nth_error vs n = Some (map F32.of_F64 v1) /\
        nth_error vs (n + 1) = Some (map F32.of_F64 v2) /\
        nth_error vs (n + 2) = Some (map F32.of_F64 v3) /\
        nth_error cs n = Some color /\
        nth_error cs (n + 1) = Some color /\
        nth_error cs (n + 2) = Some color /\
        Forall2 float_eq color (rgb 0 0 255) /\
        Forall in_unit color
  | None => False
  end.
Proof.
  destruct (returned (one_file quad_between_triangles) "room.off"
              (Some quiet)) as [[vs cs] |] eqn:H.
  - destruct (accepted_face_entries
                (one_file quad_between_triangles) "room.off" (Some quiet)
                quad_between_triangles 4 3
                [[F64.of_Z 0; F64.of_Z 0; F64.of_Z 0];
                 [F64.of_Z 1; F64.of_Z 0; F64.of_Z 0];
                 [F64.of_Z 0; F64.of_Z 1; F64.of_Z 0];
                 [F64.of_Z 0; F64.of_Z 0; F64.of_Z 1]]
                vs cs 2
                ["3"; "1"; "2"; "3"; "0"; "0"; "255"]%string 0 0 255)
      as (i1 & i2 & i3 & v1 & v2 & v3 & color & _ & _ & _ & _ & _ & _ & E).
    + reflexivity.
    + vm_compute. reflexivity.
    + vm_compute. reflexivity.
    + exact H.
    + lia.
    + vm_compute. reflexivity.
    + vm_compute. reflexivity.
    + vm_compute. reflexivity.
    + lia.
    + vm_compute. reflexivity.
    + lia.
    + vm_compute. reflexivity.
    + lia.
    + exists v1, v2, v3, color. exact E.
  - vm_compute in H. discriminate.
Defined.

(** ** The quotient of two integers *)

(** The division of [SpecFloat] takes mantissas of any size, so the quotient
    of two integers is rounded once.  For [0 < a <= b] the exponent chosen
    for the quotient is at most -53 and the integer quotient at most
    [2 ^ 53]; rounding it to 53 bits gives a number that is at most 1. *)

(** The number of binary digits. *)
Lemma digits2_size p : digits2_pos p = Pos.size p.
Proof. induction p; simpl; congruence. Qed.

Lemma digits2_bounds p :
  2 ^ (Zpos (digits2_pos p) - 1) <= Zpos p < 2 ^ Zpos (digits2_pos p).
Proof.
  rewrite digits2_size. split.
  - pose proof (Pos.size_le p) as H.
    assert (H' : Zpos (2 ^ Pos.size p) <= Zpos p~0) by exact H.
    rewrite Pos2Z.inj_pow in H'. change (Zpos p~0) with (2 * Zpos p) in H'.
    replace (Zpos (Pos.size p)) with (Z.succ (Zpos (Pos.size p) - 1)) in H'
      by lia.
    rewrite Z.pow_succ_r in H' by lia. lia.
  - pose proof (Pos.size_gt p) as H.
    assert (H' : Zpos p < Zpos (2 ^ Pos.size p)) by exact H.
    rewrite Pos2Z.inj_pow in H'. exact H'.
Qed.

Lemma Zdigits2_upper q k : 0 <= q < 2 ^ k -> 0 <= k -> Zdigits2 q <= k.
Proof.
  intros [H0 H1] Hk. destruct q as [| p | p]; simpl; try lia.
  destruct (digits2_bounds p) as [L _].
  destruct (Z_le_gt_dec (Zpos (digits2_pos p)) k) as [|G]; [assumption |].
  exfalso. assert (2 ^ k <= 2 ^ (Zpos (digits2_pos p) - 1))
    by (apply Z.pow_le_mono_r; lia). lia.
Qed.

Lemma Zdigits2_lt q : 0 <= q -> q < 2 ^ Zdigits2 q.
Proof.
  intros H. destruct q as [| p | p]; simpl; try lia.
  apply digits2_bounds.
Qed.

Lemma Zdigits2_nonneg q : 0 <= Zdigits2 q.
Proof. destruct q; simpl; lia. Qed.

(** Shifting right divides the mantissa by a power of 2. *)
Lemma shr_1_m mrs : 0 <= shr_m mrs -> shr_m (shr_1 mrs) = shr_m mrs / 2.
Proof.
  destruct mrs as [m r s]. simpl. intros H.
  destruct m as [| [p | p |] | p]; simpl; try lia; try reflexivity.
  - rewrite Pos2Z.inj_xI. apply Z.div_unique with (r := 1); lia.
  - rewrite Pos2Z.inj_xO. apply Z.div_unique with (r := 0); lia.
Qed.

Lemma iter_shr_m p : forall mrs,
  0 <= shr_m mrs -> shr_m (iter_pos shr_1 p mrs) = shr_m mrs / 2 ^ Zpos p.
Proof.
  induction p as [p IH | p IH |]; intros mrs H; simpl iter_pos.
  - assert (H1 : 0 <= shr_m (shr_1 mrs))
      by (rewrite shr_1_m by exact H; apply Z.div_pos; lia).
    assert (H2 : 0 <= shr_m (iter_pos shr_1 p (shr_1 mrs)))
      by (rewrite IH by exact H1; apply Z.div_pos; lia).
    rewrite IH by exact H2. rewrite IH by exact H1.
    rewrite shr_1_m by exact H.
    rewrite !Z.div_div by lia. f_equal.
    replace (Zpos p~1) with (1 + Zpos p + Zpos p) by lia.
    rewrite !Z.pow_add_r by lia. lia.
  - assert (H2 : 0 <= shr_m (iter_pos shr_1 p mrs))
      by (rewrite IH by exact H; apply Z.div_pos; lia).
    rewrite IH by exact H2. rewrite IH by exact H.
    rewrite !Z.div_div by lia. f_equal.
    replace (Zpos p~0) with (Zpos p + Zpos p) by lia.
    rewrite !Z.pow_add_r by lia. lia.
  - rewrite shr_1_m by exact H. reflexivity.
Qed.

Lemma shr_record_m m l : shr_m (shr_record_of_loc m l) = m.
Proof. destruct l as [| []]; reflexivity. Qed.

Lemma round_nearest_even_bounds m l :
  m <= round_nearest_even m l <= m + 1.
Proof.
  unfold round_nearest_even. destruct l as [| []]; try lia.
  destruct (Z.even m); lia.
Qed.

(** The first shift of [binary_round_aux], for a value below one. *)
Lemma first_shift q e l :
  0 <= q < 2 ^ (- e) -> -1074 <= e <= -53 ->
  let '(mrs, e1) := shr_fexp 53 1024 q e l in
  0 <= shr_m mrs < 2 ^ 53 /\ -1074 <= e1 <= -53.
Proof.
  intros [Hq0 Hq] He. unfold shr_fexp, shr, fexp, emin.
  pose proof (Zdigits2_upper q (- e) (conj Hq0 Hq) ltac:(lia)) as Hd.
  pose proof (Zdigits2_nonneg q) as Hd0.
  pose proof (Zdigits2_lt q Hq0) as Hlt.
  set (d := Zdigits2 q) in *.
  destruct (Z.max (d + e - 53) (3 - 1024 - 53) - e) as [| n | n] eqn:En.
  - rewrite shr_record_m. split; [| lia]. split; [lia |].
    assert (d <= 53) by lia.
    assert (2 ^ d <= 2 ^ 53) by (apply Z.pow_le_mono_r; lia). lia.
  - rewrite iter_shr_m by (rewrite shr_record_m; lia).
    rewrite shr_record_m. split; [| lia]. split.
    + apply Z.div_pos; lia.
    + apply Z.div_lt_upper_bound; [lia |].
      rewrite <- Z.pow_add_r by lia.
      assert (d <= Zpos n + 53) by lia.
      assert (2 ^ d <= 2 ^ (Zpos n + 53)) by (apply Z.pow_le_mono_r; lia).
      lia.
  - rewrite shr_record_m. split; [| lia]. split; [lia |].
    assert (d <= 53) by lia.
    assert (2 ^ d <= 2 ^ 53) by (apply Z.pow_le_mono_r; lia). lia.
Qed.

(** The second shift, after rounding: a mantissa of 54 bits can only be
    [2 ^ 53], which becomes [2 ^ 52] with the next exponent. *)
Lemma second_shift m e :
  0 <= m <= 2 ^ 53 -> -1074 <= e <= -53 ->
  at_most_one
    (let '(mrs, e') := shr_fexp 53 1024 m e loc_Exact in
     match shr_m mrs with
     | Z0 => S754_zero false
     | Zpos p => if e' <=? 1024 - 53 then S754_finite false p e'
                 else S754_infinity false
     | Zneg _ => S754_nan
     end).
Proof.
  intros Hm He.
  destruct (Z.eq_dec m (2 ^ 53)) as [-> | Hne].
  - unfold shr_fexp, shr, fexp, emin.
    change (Zdigits2 (2 ^ 53)) with 54.
    replace (Z.max (54 + e - 53) (3 - 1024 - 53) - e) with 1 by lia.
    simpl. replace (e + 1 <=? 971) with true by (symmetry; apply Z.leb_le; lia).
    right. eexists _, _. split; [reflexivity |]. lia.
  - assert (Hlt : m < 2 ^ 53) by lia.
    unfold shr_fexp, shr, fexp, emin.
    pose proof (Zdigits2_upper m 53 ltac:(lia) ltac:(lia)) as Hd.
    pose proof (Zdigits2_nonneg m) as Hd0.
    destruct (Z.max (Zdigits2 m + e - 53) (3 - 1024 - 53) - e)
      as [| n | n] eqn:En; try lia.
    + simpl. destruct m as [| p | p]; [left; reflexivity | | lia].
      replace (e <=? 971) with true by (symmetry; apply Z.leb_le; lia).
      right. eexists _, _. split; [reflexivity |]. lia.
    + simpl. destruct m as [| p | p]; [left; reflexivity | | lia].
      replace (e <=? 971) with true by (symmetry; apply Z.leb_le; lia).
      right. eexists _, _. split; [reflexivity |]. lia.
Qed.

Lemma round_below_one q e l :
  0 <= q < 2 ^ (- e) -> -1074 <= e <= -53 ->
  at_most_one (binary_round_aux 53 1024 false q e l).
Proof.
  intros Hq He. unfold binary_round_aux.
  pose proof (first_shift q e l Hq He) as H1.
  destruct (shr_fexp 53 1024 q e l) as [mrs e1].
  destruct H1 as [Hm He1].
  pose proof (round_nearest_even_bounds (shr_m mrs) (loc_of_shr_record mrs)).
  apply second_shift; lia.
Qed.

Lemma new_location_0 n : new_location n 0 = loc_Exact.
Proof.
  unfold new_location, new_location_even, new_location_odd.
  destruct (Z.even n); reflexivity.
Qed.

(** The quotient of [a] by [b >= a]: 1 when they are equal, and otherwise
    the rounding of a number below 1. *)
Lemma quotient_at_most_one (a b : positive) :
  (a <= b)%positive ->
  at_most_one (F64.quotient (Zpos a) (Zpos b)).
Proof.
  intros Hab. unfold F64.quotient, F64.unrounded, F64.prec, F64.emax.
  unfold SFdiv, SFdiv_core_binary.
  pose proof (digits2_bounds a) as [La Ua].
  pose proof (digits2_bounds b) as [Lb Ub].
  cbn [Zdigits2].
  set (da := Zpos (digits2_pos a)) in *. set (db := Zpos (digits2_pos b)) in *.
  assert (Hd : da <= db).
  { destruct (Z_le_gt_dec da db) as [| G]; [assumption |]. exfalso.
    assert (2 ^ db <= 2 ^ (da - 1)) by (apply Z.pow_le_mono_r; lia). lia. }
  rewrite !Z.add_0_r. unfold fexp, emin.
  set (e := Z.min (Z.max (da - db - 53) (3 - 1024 - 53)) (0 - 0)).
  assert (He : -1074 <= e <= -53) by (unfold e; lia).
  destruct (0 - 0 - e) as [| s | s] eqn:Es; try lia.
  rewrite Z.shiftl_mul_pow2 by lia.
  assert (Hs : Zpos s = - e) by lia.
  destruct (Z.div_eucl (Zpos a * 2 ^ Zpos s) (Zpos b)) as [q r] eqn:Ediv.
  pose proof (Z_div_mod (Zpos a * 2 ^ Zpos s) (Zpos b) ltac:(lia)) as Hqr.
  rewrite Ediv in Hqr. destruct Hqr as [Hqr Hr].
  assert (Hp : 0 < 2 ^ Zpos s) by (apply Z.pow_pos_nonneg; lia).
  destruct (Pos.eq_dec a b) as [-> | Hne].
  - assert (q = 2 ^ Zpos s /\ r = 0) as [-> ->].
    { assert (Eq : q = Zpos b * 2 ^ Zpos s / Zpos b)
        by (unfold Z.div; rewrite Ediv; reflexivity).
      assert (Er : r = (Zpos b * 2 ^ Zpos s) mod Zpos b)
        by (unfold Z.modulo; rewrite Ediv; reflexivity).
      rewrite Z.mul_comm, Z.div_mul in Eq by lia.
      rewrite Z.mul_comm, Z.mod_mul in Er by lia. auto. }
    rewrite new_location_0.
    revert Es. unfold e, da, db.
    replace (Zpos (digits2_pos b) - Zpos (digits2_pos b) - 53) with (-53) by lia.
    intros Es. injection Es as <-. vm_compute.
    right. eexists _, _. split; [reflexivity |]. lia.
  - simpl xorb. apply round_below_one; [| exact He].
    rewrite <- Hs. split; [nia |].
    assert (Zpos a < Zpos b) by lia. nia.
Qed.

Lemma at_most_one_in_unit x : at_most_one x -> fraction_in_unit x.
Proof.
  unfold fraction_in_unit.
  intros [-> | (m & e & -> & [He | [-> ->]])].
  - split; vm_compute; reflexivity.
  - split; [destruct m; reflexivity |].
    change (F64.of_Z 1) with (S754_finite false 4503599627370496 (-52)).
    unfold SFleb, SFcompare.
    destruct (Z.compare_spec e (-52)) as [| |]; try lia; try reflexivity.
  - split; vm_compute; reflexivity.
Qed.

(** For [1 <= a <= b] the division [a / b] does not raise, and its result
    is between 0 and 1. *)
Lemma true_div_in_unit a b :
  1 <= a <= b ->
  F64.true_div a b = Ok (F64.quotient a b) /\
  fraction_in_unit (F64.quotient a b).
Proof.
  intros H. destruct a as [| a | a]; try lia. destruct b as [| b | b]; try lia.
  pose proof (quotient_at_most_one a b ltac:(lia)) as Hq.
  split; [| apply at_most_one_in_unit; exact Hq].
  unfold F64.true_div. cbn [Z.eqb].
  destruct Hq as [-> | (m & e & -> & _)]; reflexivity.
Qed.

(** ** C5: the calls of the progress callback *)

Lemma fst_bind_silent {A B : Type} (m : traced A) (k : A -> traced B) :
  silent m ->
  fst (bind m k) =
  match snd m with
  | Ok a => fst (k a)
  | Raise _ => []
  end.
Proof.
  intros Hm. rewrite fst_bind, Hm. destruct (snd m); reflexivity.
Qed.

(** One iteration of the face loop: the report of iteration [i]. *)
Lemma report_trace cb F i :
  0 <= i < F ->
  fst (if reports F i
       then progress_percentage <- lift (F64.true_div (i + 1) F) ;;
            call cb progress_percentage (i + 1) F
       else ret tt) = calls F [i].
Proof.
  intros Hi. unfold calls, report_dueb, reports. cbn [filter].
  destruct ((i mod 15000 =? 0) || (i =? F - 1)); [| reflexivity].
  destruct (true_div_in_unit (i + 1) F) as [-> _]; [lia |].
  rewrite bind_lift_Ok. reflexivity.
Qed.

Lemma calls_cons F i faces : calls F (i :: faces) = calls F [i] ++ calls F faces.
Proof.
  unfold calls. cbn [filter]. destruct (report_dueb F i); reflexivity.
Qed.

(** The calls made by the face loop: those of the iterations it starts. *)
Lemma read_faces_trace cb lines vp V F n : forall i fv fc,
  0 <= i -> ((0 < n)%nat -> i + Z.of_nat n <= F) ->
  exists m, (m <= n)%nat /\
    fst (read_faces (Some cb) lines vp V F n i fv fc) = calls F (zrange i m) /\
    (forall r, snd (read_faces (Some cb) lines vp V F n i fv fc) = Ok r ->
               m = n).
Proof.
  induction n as [| n IH]; intros i fv fc Hi HF.
  - exists 0%nat. repeat split; auto.
  - cbn [read_faces]. specialize (HF ltac:(lia)).
    set (report := if reports F i then _ else ret tt).
    assert (Hrep : fst report = calls F [i]) by (apply report_trace; lia).
    rewrite fst_bind, snd_bind.
    destruct (snd report) as [[] | e].
    2:{ exists 1%nat. split; [lia |]. split; [exact Hrep | discriminate]. }
    rewrite fst_bind_silent by apply silent_lift. rewrite snd_bind.
    destruct (snd (item lines (2 + V + i))) as [line | e].
    2:{ exists 1%nat. split; [lia |]. split.
        - rewrite app_nil_r. exact Hrep.
        - discriminate. }
    rewrite fst_bind_silent by apply silent_read_face. rewrite snd_bind.
    destruct (snd (read_face vp (Py.split (Py.strip line)))) as [face | e].
    2:{ exists 1%nat. split; [lia |]. split.
        - rewrite app_nil_r. exact Hrep.
        - discriminate. }
    destruct face as [[vs cs] |].
    + destruct (IH (i + 1) (fv ++ vs) (fc ++ cs)) as (m & Hm & Ht & Hok);
        [lia | lia |].
      exists (S m). split; [lia |]. split.
      * cbn [zrange]. rewrite calls_cons, Hrep, Ht. reflexivity.
      * intros r Hr. f_equal. eapply Hok. exact Hr.
    + destruct (IH (i + 1) fv fc) as (m & Hm & Ht & Hok); [lia | lia |].
      exists (S m). split; [lia |]. split.
      * cbn [zrange]. rewrite calls_cons, Hrep, Ht. reflexivity.
      * intros r Hr. f_equal. eapply Hok. exact Hr.
Qed.

Ltac silent_known :=
  first [ apply silent_lift | apply silent_check_header
        | apply silent_read_counts | apply silent_read_vertices
        | apply silent_np_array ].

Ltac silent_step H x Hx :=
  apply snd_bind_Ok in H; destruct H as (x & Hx & H);
  rewrite fst_bind_silent by silent_known; rewrite Hx.

Lemma load_body_trace fs filepath cb lines V F vs cs :
  fs filepath = Ok lines ->
  declared_counts lines = Ok (V, F) ->
  snd (load_body fs filepath (Some cb)) = Ok (vs, cs) ->
  fst (load_body fs filepath (Some cb))
  = calls F (range F) ++ [Printed (Loaded (List.length vs))].
Proof.
  intros Hfs Hc H. unfold load_body in *.
  silent_step H lines' Hl.
  assert (lines' = lines) by (simpl in Hl; congruence). subst lines'.
  silent_step H l0 Hl0.
  silent_step H u Hu.
  silent_step H l1 Hl1.
  unfold declared_counts in Hc. rewrite snd_bind, Hl1 in Hc.
  silent_step H c Hc'.
  assert (c = (V, F)) by congruence. subst c.
  silent_step H vp Hvp.
  apply snd_bind_Ok in H. destruct H as ([fv fc] & Hf & H).
  rewrite fst_bind, Hf.
  destruct (read_faces_trace cb lines vp V F (Z.to_nat F) 0 [] [])
    as (m & _ & Ht & Hm); [lia | lia |].
  rewrite (Hm _ Hf) in Ht. rewrite Ht. unfold range. f_equal.
  silent_step H vnp Hv.
  silent_step H cnp Hcn.
  simpl in H. injection H as <- <-. reflexivity.
Qed.

(** What a load that returns arrays prints and reports. *)
Lemma load_trace fs filepath cb lines V F vs cs :
  fs filepath = Ok lines ->
  declared_counts lines = Ok (V, F) ->
  returned fs filepath (Some cb) = Some (vs, cs) ->
  fst (load_custom_off fs filepath (Some cb))
  = Printed (Loading filepath) :: calls F (range F)
      ++ [Printed (Loaded (List.length vs))].
Proof.
  intros Hfs Hc Hret. apply returned_Some in Hret.
  pose proof (load_body_trace _ _ _ _ _ _ _ _ Hfs Hc Hret) as Ht.
  unfold load_custom_off.
  destruct (load_body fs filepath (Some cb)) as [t [a | e]];
    simpl in Hret, Ht; [| discriminate].
  subst t. reflexivity.
Qed.

Lemma NoDup_calls F faces : NoDup faces -> NoDup (calls F faces).
Proof.
  intros H. unfold calls. apply NoDup_map_NoDup_ForallPairs.
  - intros x y _ _ E. injection E as E. lia.
  - apply NoDup_filter. exact H.
Qed.

Lemma in_calls F faces x num den :
  In (Progress x num den) (calls F faces) <->
  den = F /\ x = F64.quotient num den /\
  exists i, In i faces /\ report_due F i /\ num = i + 1.
Proof.
  unfold calls, report_due, report_dueb. rewrite in_map_iff. split.
  - intros (i & E & Hi). injection E as <- <- <-.
    apply filter_In in Hi. destruct Hi as [Hi Hd].
    split; [reflexivity |]. split; [reflexivity |].
    exists i. repeat split; auto.
    apply orb_true_iff in Hd. destruct Hd as [Hd | Hd]; [left | right].
    + apply Z.eqb_eq. exact Hd.
    + apply Z.eqb_eq. exact Hd.
  - intros (-> & -> & i & Hi & Hd & ->). exists i. split; [reflexivity |].
    apply filter_In. split; [exact Hi |].
    apply orb_true_iff. destruct Hd as [Hd | Hd]; [left | right];
      apply Z.eqb_eq; exact Hd.
Qed.

Lemma progress_calls_calls F faces :
  progress_calls (calls F faces) = calls F faces.
Proof.
  unfold progress_calls, calls.
  induction (filter (report_dueb F) faces) as [| i l IH]; simpl;
    [| rewrite IH]; reflexivity.
Qed.

(** A property of a computation that starts with a silent step: it holds
    when the step raises and when it returns. *)
Lemma silent_then {A B : Type} (m : traced A) (k : A -> traced B)
    (P : traced B -> Prop) :
  silent m ->
  (forall e, P ([], Raise e)) ->
  (forall a, snd m = Ok a -> P (k a)) ->
  P (bind m k).
Proof.
  unfold silent. destruct m as [t [a | e]]; simpl; intros -> Hraise Hok.
  - specialize (Hok a eq_refl). destruct (k a). exact Hok.
  - apply Hraise.
Qed.

(** The calls of a load, whether it returns arrays or not: those of the
    first [m] face iterations, all [F] of them when it returns arrays. *)
Lemma load_body_calls fs filepath cb lines V F :
  fs filepath = Ok lines ->
  declared_counts lines = Ok (V, F) ->
  exists m, (m <= Z.to_nat F)%nat /\
    progress_calls (fst (load_body fs filepath (Some cb)))
    = calls F (zrange 0 m) /\
    (forall arrays, snd (load_body fs filepath (Some cb)) = Ok arrays ->
                    m = Z.to_nat F).
Proof.
  intros Hfs Hc. unfold load_body.
  set (P := fun x : traced (list vec * list vec) =>
    exists m, (m <= Z.to_nat F)%nat /\
      progress_calls (fst x) = calls F (zrange 0 m) /\
      (forall arrays, snd x = Ok arrays -> m = Z.to_nat F)).
  assert (Hraise : forall e, P ([], Raise e)).
  { intros e. exists 0%nat. split; [lia |]. split; [reflexivity |].
    discriminate. }
  match goal with |- context [fst ?x] => change (P x) end.
  apply (silent_then _ _ P); [silent_known | exact Hraise | cbv beta].
  intros lines0 Hl. simpl in Hl. assert (lines0 = lines) by congruence.
  subst lines0.
  apply (silent_then _ _ P); [silent_known | exact Hraise | cbv beta].
  intros l0 _.
  apply (silent_then _ _ P); [silent_known | exact Hraise | cbv beta].
  intros _ _.
  apply (silent_then _ _ P); [silent_known | exact Hraise | cbv beta].
  intros l1 Hl1.
  unfold declared_counts in Hc. rewrite snd_bind, Hl1 in Hc.
  apply (silent_then _ _ P); [silent_known | exact Hraise | cbv beta].
  intros c Hc'. assert (c = (V, F)) by congruence. subst c.
  apply (silent_then _ _ P); [silent_known | exact Hraise | cbv beta].
  intros vp _.
  destruct (read_faces_trace cb lines vp V F (Z.to_nat F) 0 [] [])
    as (m & Hm & Ht & Hok); [lia | lia |].
  unfold P. exists m. split; [exact Hm |].
  rewrite fst_bind, snd_bind.
  destruct (snd (read_faces (Some cb) lines vp V F (Z.to_nat F) 0 [] []))
    as [[fv fc] | e] eqn:Hr.
  - specialize (Hok _ eq_refl). split; [| intros; exact Hok].
    unfold progress_calls. rewrite filter_app. fold (progress_calls
      (fst (read_faces (Some cb) lines vp V F (Z.to_nat F) 0 [] []))).
    rewrite Ht, progress_calls_calls.
    rewrite fst_bind_silent by apply silent_np_array.
    destruct (snd (np_array fv)); [| rewrite app_nil_r; reflexivity].
    rewrite fst_bind_silent by apply silent_np_array.
    destruct (snd (np_array fc)); simpl; rewrite app_nil_r; reflexivity.
  - split; [| discriminate]. rewrite Ht. apply progress_calls_calls.
Qed.

(** C5. With a callback, the loader calls it during the load, once in each
    face iteration [i] it starts with [i mod 15000 = 0] or [i = F - 1], in
    increasing order of [i], and in no other; the fraction is
    [(i + 1) / F], a float between 0 and 1.  A load that returns arrays
    starts all [F] iterations: its calls are exactly those of the faces
    with [i mod 15000 = 0] and of the last face, between its two prints. *)
Theorem progress_reports fs filepath cb lines V F :
  fs filepath = Ok lines ->
  declared_counts lines = Ok (V, F) ->
  1 <= F ->
  exists m : nat,
    (m <= Z.to_nat F)%nat /\
    progress_calls (fst (load_custom_off fs filepath (Some cb)))
    = calls F (zrange 0 m) /\
    NoDup (calls F (zrange 0 m)) /\
    (forall x num den,
        In (Progress x num den) (fst (load_custom_off fs filepath (Some cb)))
        <->
        den = F /\ x = F64.quotient num den /\
        exists i, 0 <= i < Z.of_nat m /\ report_due F i /\ num = i + 1) /\
    (forall x num den,
        In (Progress x num den) (fst (load_custom_off fs filepath (Some cb)))
        -> fraction_in_unit x) /\
    (forall vs cs,
        returned fs filepath (Some cb) = Some (vs, cs) ->
        m = Z.to_nat F /\
        fst (load_custom_off fs filepath (Some cb))
        = Printed (Loading filepath) :: calls F (range F)
            ++ [Printed (Loaded (List.length vs))]).
Proof.
  intros Hfs Hc HF.
  destruct (load_body_calls fs filepath cb lines V F Hfs Hc)
    as (m & Hm & Hcalls & Hok).
  exists m.
  assert (Ht : progress_calls (fst (load_custom_off fs filepath (Some cb)))
               = calls F (zrange 0 m)).
  { unfold load_custom_off.
    destruct (load_body fs filepath (Some cb)) as [t [a | e]];
      cbn [fst] in *; unfold progress_calls in *; cbn [filter is_progress].
    - exact Hcalls.
    - rewrite filter_app. cbn [filter is_progress]. rewrite app_nil_r.
      exact Hcalls. }
  assert (Hin : forall x num den,
      In (Progress x num den) (fst (load_custom_off fs filepath (Some cb)))
      <->
      den = F /\ x = F64.quotient num den /\
      exists i, 0 <= i < Z.of_nat m /\ report_due F i /\ num = i + 1).
  { intros x num den.
    transitivity (In (Progress x num den)
                    (progress_calls
                       (fst (load_custom_off fs filepath (Some cb))))).
    - unfold progress_calls. rewrite filter_In. simpl. tauto.
    - rewrite Ht, in_calls. split.
      + intros (-> & -> & i & Hi & Hd & ->). apply in_zrange in Hi.
        eauto 7.
      + intros (-> & -> & i & Hi & Hd & ->).
        split; [reflexivity |]. split; [reflexivity |].
        exists i. rewrite in_zrange. auto. }
  split; [exact Hm |]. split; [exact Ht |].
  split; [apply NoDup_calls, NoDup_zrange |].
  split; [exact Hin |]. split.
  - intros x num den H. apply Hin in H.
    destruct H as (-> & -> & i & Hi & _ & ->).
    apply true_div_in_unit. lia.
  - intros vs cs Hret. split.
    + apply (Hok (vs, cs)). apply returned_Some. exact Hret.
    + exact (load_trace _ _ _ _ _ _ _ _ Hfs Hc Hret).
Qed.

Lemma progress_reports_witness :
  exists m : nat,
    (m <= 3)%nat /\
    progress_calls
      (fst (load_custom_off (one_file quad_between_triangles) "room.off"
              (Some quiet)))
    = calls 3 (zrange 0 m) /\
    progress_calls
      (fst (load_custom_off (one_file quad_between_triangles) "room.off"
              (Some quiet)))
    = [Progress (F64.quotient 1 3) 1 3; Progress (F64.of_Z 1) 3 3].
Proof.
  destruct (progress_reports (one_file quad_between_triangles) "room.off"
              quiet quad_between_triangles 4 3)
    as (m & Hm & Ht & _).
  - reflexivity.
  - vm_compute. reflexivity.
  - lia.
  - exists m. split; [exact Hm |]. split; [exact Ht |].
    vm_compute. reflexivity.
Defined.

(** A load that fails makes the calls of the iterations it started only:
    here the last face is never reached. *)
Example calls_stop_at_failure :
  fst (load_custom_off (one_file bad_second_face) "room.off" (Some quiet))
  = [Printed (Loading "room.off"); Progress (F64.quotient 1 3) 1 3;
     Printed (LoadError IndexError)] /\
  fst (load_custom_off (one_file two_red_triangles) "room.off"
         (Some (raising_at 1)))
  = [Printed (Loading "room.off"); Progress (F64.quotient 1 2) 1 2;
     Printed (LoadError (CallbackError 0))].
Proof. split; vm_compute; reflexivity. Qed.

(** ** Failures of the loader *)

(** The four failures the specification names, and a callback that
    raises. *)
Example failures_return_none :
  load_custom_off no_file "room.off" None
  = ([Printed (Loading "room.off"); Printed (LoadError OSError)], None) /\
  load_custom_off (one_file short_face_line) "room.off" None
  = ([Printed (Loading "room.off"); Printed (LoadError IndexError)], None) /\
  load_custom_off (one_file unparsable_number) "room.off" None
  = ([Printed (Loading "room.off"); Printed (LoadError ValueError)], None) /\
  load_custom_off (one_file index_past_end) "room.off" None
  = ([Printed (Loading "room.off"); Printed (LoadError IndexError)], None) /\
  returned (one_file two_red_triangles) "room.off" (Some (raising_at 1))
  = None.
Proof. repeat split; vm_compute; reflexivity. Qed.

(** ** C2: the header *)

Lemma starts_with_cons c p s :
  Py.starts_with (c :: p) s = true ->
  exists s', s = c :: s' /\ Py.starts_with p s' = true.
Proof.
  destruct s as [| b s']; simpl; [discriminate |].
  intros H. apply andb_true_iff in H. destruct H as [E H].
  apply Ascii.eqb_eq in E. subst b. eauto.
Qed.

Lemma contains_COFF_OFF header :
  Py.contains "COFF" header = true -> Py.contains "OFF" header = true.
Proof.
  unfold Py.contains.
  change (list_ascii_of_string "COFF")
    with ("C"%char :: list_ascii_of_string "OFF").
  generalize (list_ascii_of_string "OFF") as off.
  generalize (list_ascii_of_string header) as s. intros s off.
  induction s as [| b s IH]; cbn [Py.contains_chars].
  - rewrite orb_false_r. intros H. apply starts_with_cons in H.
    destruct H as (s' & E & _). discriminate.
  - intros H. apply orb_true_iff in H. destruct H as [H | H].
    + apply starts_with_cons in H. destruct H as (s' & E & H).
      injection E as -> ->. apply orb_true_iff. right.
      destruct s' as [| c s'']; cbn [Py.contains_chars]; rewrite H;
        reflexivity.
    + apply orb_true_iff. right. apply IH. exact H.
Qed.

Lemma check_header_contains header :
  check_header header = ret tt <-> Py.contains "OFF" header = true.
Proof.
  unfold check_header. split.
  - destruct (Py.contains "OFF" header) eqn:E; [reflexivity |].
    destruct (Py.contains "COFF" header) eqn:E'.
    + apply contains_COFF_OFF in E'. congruence.
    + simpl. discriminate.
  - intros ->. rewrite andb_false_r. reflexivity.
Qed.

Lemma header_refused fs filepath cb lines l0 :
  fs filepath = Ok lines ->
  Py.getitem lines 0 = Some l0 ->
  check_header (Py.strip l0) <> ret tt ->
  returned fs filepath cb = None.
Proof.
  intros Hfs Hl0 Hh. rewrite returned_body. unfold load_body.
  rewrite snd_bind, Hfs. cbn [snd lift].
  rewrite snd_bind. apply snd_item in Hl0. rewrite Hl0.
  rewrite snd_bind. unfold check_header in *.
  destruct (negb (Py.contains "COFF" (Py.strip l0))
            && negb (Py.contains "OFF" (Py.strip l0))).
  - reflexivity.
  - contradiction Hh. reflexivity.
Qed.

(** C2, as the code has it.  The header, the first line without the white
    space around it, is accepted exactly when it contains the letters [OFF]
    somewhere: a header that does not makes the loader return
    [(None, None)], and the two markers [OFF] and [COFF] are accepted. *)
Theorem header_must_contain_marker fs filepath cb lines l0 :
  fs filepath = Ok lines ->
  Py.getitem lines 0 = Some l0 ->
  (check_header (Py.strip l0) = ret tt <->
   Py.contains "OFF" (Py.strip l0) = true) /\
  (Py.contains "OFF" (Py.strip l0) = false ->
   returned fs filepath cb = None) /\
  (Py.strip l0 = "OFF"%string \/ Py.strip l0 = "COFF"%string ->
   check_header (Py.strip l0) = ret tt).
Proof.
  intros Hfs Hl0. split; [apply check_header_contains |]. split.
  - intros H. apply (header_refused fs filepath cb lines l0 Hfs Hl0).
    rewrite check_header_contains. congruence.
  - intros [-> | ->]; reflexivity.
Qed.

Lemma header_must_contain_marker_witness :
  check_header (Py.strip "COFF") = ret tt /\
  returned (one_file ["PLY"; "0 0"]%string) "room.off" None = None.
Proof.
  split.
  - destruct (header_must_contain_marker
                (one_file quad_between_triangles) "room.off" None
                quad_between_triangles "COFF" eq_refl eq_refl)
      as (_ & _ & H).
    apply H. right. reflexivity.
  - destruct (header_must_contain_marker
                (one_file ["PLY"; "0 0"]%string) "room.off" None
                ["PLY"; "0 0"]%string "PLY" eq_refl eq_refl)
      as (_ & H & _).
    apply H. vm_compute. reflexivity.
Defined.

(** The claim as the specification states it fails: the first line
    [NOFFSET] is neither of the two markers, and the file is loaded. *)
Lemma header_not_a_marker_accepted :
  Py.getitem marker_inside_word 0 = Some "NOFFSET"%string /\
  Py.strip "NOFFSET" <> "OFF"%string /\
  Py.strip "NOFFSET" <> "COFF"%string /\
  returned (one_file marker_inside_word) "room.off" None = Some ([], []) /\
  ~ (forall fs filepath cb lines l0,
        fs filepath = Ok lines ->
        Py.getitem lines 0 = Some l0 ->
        Py.strip l0 <> "OFF"%string -> Py.strip l0 <> "COFF"%string ->
        returned fs filepath cb = None).
Proof.
  split; [reflexivity |].
  split; [vm_compute; discriminate |].
  split; [vm_compute; discriminate |].
  split; [vm_compute; reflexivity |].
  intros H.
  specialize (H (one_file marker_inside_word) "room.off"%string None
                marker_inside_word "NOFFSET"%string eq_refl eq_refl).
  assert (E : returned (one_file marker_inside_word) "room.off" None = None).
  { apply H; vm_compute; discriminate. }
  vm_compute in E. discriminate.
Qed.

(** ** C10: the line of the counts *)

Lemma map_opt_Forall2 {A B : Type} (f : A -> option B) l bs :
  Forall2 (fun a b => f a = Some b) l bs -> Py.map_opt f l = Some bs.
Proof.
  induction 1 as [| a b l bs Hab _ IH]; simpl.
  - reflexivity.
  - rewrite Hab, IH. reflexivity.
Qed.

Lemma map_opt_None {A B : Type} (f : A -> option B) l a :
  In a l -> f a = None -> Py.map_opt f l = None.
Proof.
  induction l as [| x l IH]; intros Hin Ha; [destruct Hin |].
  simpl. destruct Hin as [-> | Hin].
  - rewrite Ha. reflexivity.
  - destruct (f x); [| reflexivity]. rewrite (IH Hin Ha). reflexivity.
Qed.

Lemma map_opt_length {A B : Type} (f : A -> option B) l : forall bs,
  Py.map_opt f l = Some bs -> List.length bs = List.length l.
Proof.
  induction l as [| x l IH]; simpl; intros bs H.
  - injection H as <-. reflexivity.
  - destruct (f x); [| discriminate].
    destruct (Py.map_opt f l) as [bs' |]; [| discriminate].
    injection H as <-. simpl. f_equal. apply IH. reflexivity.
Qed.

Lemma counts_refused fs filepath cb lines e :
  fs filepath = Ok lines ->
  declared_counts lines = Raise e ->
  returned fs filepath cb = None.
Proof.
  intros Hfs Hc. rewrite returned_body. unfold load_body.
  rewrite snd_bind, Hfs. cbn [snd lift].
  rewrite snd_bind. destruct (snd (item lines 0)); [| reflexivity].
  rewrite snd_bind. destruct (snd (check_header _)); [| reflexivity].
  unfold declared_counts in Hc. rewrite snd_bind in Hc. rewrite snd_bind.
  destruct (snd (item lines 1)); [| reflexivity].
  rewrite snd_bind, Hc. reflexivity.
Qed.

(** The subscripts of two files that differ in their second line only. *)
Lemma getitem_other_line (l0 line line' : string) (rest : list string) k :
  k <> 1 -> k <> 1 - Z.of_nat (List.length (l0 :: line :: rest)) ->
  Py.getitem (l0 :: line :: rest) k = Py.getitem (l0 :: line' :: rest) k.
Proof.
  intros H1 H2. unfold Py.getitem. cbn [List.length] in *.
  set (n := Z.of_nat (S (S (List.length rest)))) in *.
  destruct ((0 <=? k) && (k <? n)) eqn:E1.
  - apply andb_true_iff in E1. destruct E1 as [E0 _]. apply Z.leb_le in E0.
    destruct (Z.to_nat k) as [| [| j]] eqn:Ek; try reflexivity. lia.
  - destruct ((- n <=? k) && (k <? 0)) eqn:E2; [| reflexivity].
    apply andb_true_iff in E2. destruct E2 as [Ea Eb].
    apply Z.leb_le in Ea. apply Z.ltb_lt in Eb.
    destruct (Z.to_nat (n + k)) as [| [| j]] eqn:Ek; try reflexivity. lia.
Qed.

Lemma getitem_second_line (l0 line : string) (rest : list string) k :
  k = 1 \/ k = 1 - Z.of_nat (List.length (l0 :: line :: rest)) ->
  Py.getitem (l0 :: line :: rest) k = Some line.
Proof.
  unfold Py.getitem. cbn [List.length].
  set (n := Z.of_nat (S (S (List.length rest)))).
  assert (Hn : 2 <= n) by (unfold n; lia).
  intros [-> | ->].
  - replace ((0 <=? 1) && (1 <? n)) with true; [reflexivity |].
    symmetry. apply andb_true_iff. split; [reflexivity | apply Z.ltb_lt; lia].
  - replace ((0 <=? 1 - n) && (1 - n <? n)) with false.
    + replace ((- n <=? 1 - n) && (1 - n <? 0)) with true.
      * replace (n + (1 - n)) with 1 by lia. reflexivity.
      * symmetry. apply andb_true_iff.
        split; [apply Z.leb_le | apply Z.ltb_lt]; lia.
    + symmetry. apply andb_false_iff. left. apply Z.leb_gt. lia.
Qed.

Lemma read_vertices_other_line l0 line line' rest n : forall i acc,
  0 <= i ->
  read_vertices (l0 :: line :: rest) n i acc
  = read_vertices (l0 :: line' :: rest) n i acc.
Proof.
  induction n as [| n IH]; intros i acc Hi; cbn [read_vertices].
  - reflexivity.
  - unfold item.
    rewrite (getitem_other_line l0 line line' rest (2 + i))
      by (cbn [List.length]; lia).
    destruct (Py.getitem (l0 :: line' :: rest) (2 + i)) as [l |];
      [| reflexivity].
    simpl or_raise. rewrite !bind_lift_Ok.
    destruct (Py.map_opt PyFloat.float (Py.split (Py.strip l))) as [v |];
      [| reflexivity].
    simpl or_raise. rewrite !bind_lift_Ok. apply IH. lia.
Qed.

Lemma leading_count_of_fields fields v zs :
  fields_are fields (v :: zs) -> leading_count fields = Some v.
Proof.
  intros H. inversion H as [| t z ts zs' Ht _]; subst.
  unfold leading_count. rewrite getitem_0. exact Ht.
Qed.

Lemma bind_ext {A B : Type} (m : traced A) (k k' : A -> traced B) :
  (forall a, k a = k' a) -> bind m k = bind m k'.
Proof.
  intros H. destruct m as [t [a | e]]; simpl; [rewrite H |]; reflexivity.
Qed.

Lemma read_faces_other_line cb l0 line line' rest vp V F zs zs' n :
  fields_are (Py.split (Py.strip line)) (V :: zs) ->
  fields_are (Py.split (Py.strip line')) (V :: zs') ->
  forall i fv fc,
  0 <= i ->
  read_faces cb (l0 :: line :: rest) vp V F n i fv fc
  = read_faces cb (l0 :: line' :: rest) vp V F n i fv fc.
Proof.
  intros Hl Hl'. apply leading_count_of_fields in Hl, Hl'.
  induction n as [| n IH]; intros i fv fc Hi; cbn [read_faces].
  - reflexivity.
  - apply bind_ext. intros _.
    set (k := 2 + V + i).
    assert (Hlen : Z.of_nat (List.length (l0 :: line :: rest))
                   = Z.of_nat (List.length (l0 :: line' :: rest)))
      by reflexivity.
    destruct (Z.eq_dec k 1) as [E1 | N1];
      [| destruct (Z.eq_dec k
                     (1 - Z.of_nat (List.length (l0 :: line :: rest))))
           as [E2 | N2]].
    + unfold item.
      rewrite (getitem_second_line l0 line rest k) by (left; exact E1).
      rewrite (getitem_second_line l0 line' rest k) by (left; exact E1).
      simpl or_raise. rewrite !bind_lift_Ok.
      rewrite (read_face_skip vp _ V Hl) by (unfold k in E1; lia).
      rewrite (read_face_skip vp _ V Hl') by (unfold k in E1; lia).
      rewrite !bind_ret. apply IH. lia.
    + unfold item.
      rewrite (getitem_second_line l0 line rest k) by (right; exact E2).
      rewrite (getitem_second_line l0 line' rest k)
        by (right; rewrite <- Hlen; exact E2).
      simpl or_raise. rewrite !bind_lift_Ok.
      rewrite (read_face_skip vp _ V Hl) by (unfold k in E2; lia).
      rewrite (read_face_skip vp _ V Hl') by (unfold k in E2; lia).
      rewrite !bind_ret. apply IH. lia.
    + unfold item.
      rewrite (getitem_other_line l0 line line' rest k N1 N2).
      apply bind_ext. intros line0. apply bind_ext. intros face.
      destruct face as [[vs cs] |]; apply IH; lia.
Qed.

Lemma item_0 {A : Type} (a : A) (l : list A) : item (a :: l) 0 = lift (Ok a).
Proof. unfold item. rewrite getitem_0. reflexivity. Qed.

Lemma item_1 {A : Type} (a b : A) (l : list A) :
  item (a :: b :: l) 1 = lift (Ok b).
Proof.
  unfold item. change 1 with (Z.of_nat 1). rewrite getitem_nat. reflexivity.
Qed.

Lemma read_counts_fields line v f extra :
  fields_are (Py.split (Py.strip line)) (v :: f :: extra) ->
  read_counts line = ret (v, f).
Proof.
  intros H. apply map_opt_Forall2 in H.
  unfold read_counts. rewrite H. simpl or_raise. rewrite bind_lift_Ok.
  rewrite item_0, bind_lift_Ok, item_1, bind_lift_Ok. reflexivity.
Qed.

(** The fields of the line of counts after the second play no part. *)
Lemma load_other_counts_line fs fs' filepath cb l0 line line' rest
    v f extra extra' :
  fs filepath = Ok (l0 :: line :: rest) ->
  fs' filepath = Ok (l0 :: line' :: rest) ->
  fields_are (Py.split (Py.strip line)) (v :: f :: extra) ->
  fields_are (Py.split (Py.strip line')) (v :: f :: extra') ->
  load_custom_off fs filepath cb = load_custom_off fs' filepath cb.
Proof.
  intros Hfs Hfs' Hl Hl'. unfold load_custom_off.
  replace (load_body fs' filepath cb) with (load_body fs filepath cb);
    [reflexivity |].
  unfold load_body. rewrite Hfs, Hfs', !bind_lift_Ok.
  rewrite !item_0, !bind_lift_Ok. apply bind_ext. intros _.
  rewrite !item_1, !bind_lift_Ok.
  rewrite (read_counts_fields _ _ _ _ Hl), (read_counts_fields _ _ _ _ Hl').
  rewrite !bind_ret.
  rewrite (read_vertices_other_line l0 line line' rest) by lia.
  apply bind_ext. intros vp.
  rewrite (read_faces_other_line cb l0 line line' rest vp v f
             (f :: extra) (f :: extra') _ Hl Hl') by lia.
  reflexivity.
Qed.

(** C10. Of a line of counts whose fields are all integers, at least two of
    them, the loader takes the first two as [(V, F)] and nothing else: the
    load goes as with any other further integers on this line.  A field
    that is not an integer, or fewer than two fields, make it return
    [(None, None)]. *)
Theorem counts_line fs filepath cb l0 line rest :
  fs filepath = Ok (l0 :: line :: rest) ->
  (forall v f extra,
      fields_are (Py.split (Py.strip line)) (v :: f :: extra) ->
      declared_counts (l0 :: line :: rest) = Ok (v, f) /\
      forall fs' line' extra',
        fs' filepath = Ok (l0 :: line' :: rest) ->
        fields_are (Py.split (Py.strip line')) (v :: f :: extra') ->
        load_custom_off fs filepath cb = load_custom_off fs' filepath cb) /\
  ((exists t, In t (Py.split (Py.strip line)) /\ Py.int t = None) ->
   returned fs filepath cb = None) /\
  ((List.length (Py.split (Py.strip line)) < 2)%nat ->
   returned fs filepath cb = None).
Proof.
  intros Hfs.
  assert (Hd : declared_counts (l0 :: line :: rest) = snd (read_counts line)).
  { unfold declared_counts. rewrite item_1, bind_lift_Ok. reflexivity. }
  split; [| split].
  - intros v f extra H. split.
    + rewrite Hd, (read_counts_fields _ _ _ _ H). reflexivity.
    + intros fs' line' extra' Hfs' H'.
      exact (load_other_counts_line fs fs' filepath cb l0 line line' rest
               v f extra extra' Hfs Hfs' H H').
  - intros (t & Hin & Ht).
    apply (counts_refused fs filepath cb _ ValueError Hfs).
    rewrite Hd. unfold read_counts.
    rewrite (map_opt_None _ _ _ Hin Ht). reflexivity.
  - intros Hlen.
    destruct (Py.map_opt Py.int (Py.split (Py.strip line))) as [counts |]
      eqn:E.
    + pose proof (map_opt_length _ _ _ E) as L.
      apply (counts_refused fs filepath cb _ IndexError Hfs).
      rewrite Hd. unfold read_counts. rewrite E.
      destruct counts as [| v [| f extra]]; simpl in L; try lia;
        reflexivity.
    + apply (counts_refused fs filepath cb _ ValueError Hfs).
      rewrite Hd. unfold read_counts. rewrite E. reflexivity.
Qed.

Lemma counts_fields (line : string) (zs : list Z) :
  Py.map_opt Py.int (Py.split (Py.strip line)) = Some zs ->
  fields_are (Py.split (Py.strip line)) zs.
Proof.
  unfold fields_are. generalize (Py.split (Py.strip line)) as ts.
  intros ts. revert zs.
  induction ts as [| t ts IH]; simpl; intros zs H.
  - injection H as <-. constructor.
  - destruct (Py.int t) as [z |] eqn:Et; [| discriminate].
    destruct (Py.map_opt Py.int ts) as [zs' |]; [| discriminate].
    injection H as <-. constructor; [exact Et | apply IH; reflexivity].
Qed.

Lemma counts_line_witness :
  declared_counts quad_between_triangles = Ok (4, 3) /\
  load_custom_off (one_file quad_between_triangles) "room.off" None
  = load_custom_off
      (one_file ("COFF" :: "4 3" :: skipn 2 quad_between_triangles)%string)
      "room.off" None /\
  returned (one_file ["OFF"; "4 two"]%string) "room.off" None = None /\
  returned (one_file ["OFF"; "4"]%string) "room.off" None = None.
Proof.
  destruct (counts_line (one_file quad_between_triangles) "room.off" None
              "COFF" "4 3 0" (skipn 2 quad_between_triangles) eq_refl)
    as (H & _ & _).
  destruct (H 4 3 [0]) as [Hd Hsame];
    [apply counts_fields; vm_compute; reflexivity |].
  split; [exact Hd |]. split; [| split].
  - apply (Hsame (one_file ("COFF" :: "4 3" :: skipn 2 quad_between_triangles)
                     %string) "4 3"%string []); [reflexivity |].
    apply counts_fields. vm_compute. reflexivity.
  - destruct (counts_line (one_file ["OFF"; "4 two"]%string) "room.off" None
                "OFF" "4 two" [] eq_refl) as (_ & H' & _).
    apply H'. exists "two"%string. split; vm_compute; auto.
  - destruct (counts_line (one_file ["OFF"; "4"]%string) "room.off" None
                "OFF" "4" [] eq_refl) as (_ & _ & H').
    apply H'. vm_compute. lia.
Defined.

(** ** C7: the pitch *)

Lemma clamp_in_range (p : spec_float) :
  let r := py_max (float_lit true 89 0) (py_min (float_lit false 89 0) p) in
  F64.leb (float_lit true 89 0) r = true /\
  F64.leb r (float_lit false 89 0) = true.
Proof.
  set (lo := float_lit true 89 0). set (hi := float_lit false 89 0).
  assert (Hlh : F64.ltb lo hi = true) by (vm_compute; reflexivity).
  assert (Hll : F64.leb lo lo = true) by (vm_compute; reflexivity).
  assert (Hhh : F64.leb hi hi = true) by (vm_compute; reflexivity).
  assert (Hle : F64.leb lo hi = true) by (vm_compute; reflexivity).
  assert (Hlt : forall x y, F64.ltb x y = true -> F64.leb x y = true).
  { intros x y. unfold F64.ltb, F64.leb, SFltb, SFleb.
    destruct (SFcompare x y) as [[| |] |]; congruence. }
  cbv zeta. unfold py_min.
  destruct (F64.ltb p hi) eqn:E1.
  - unfold py_max. destruct (F64.ltb lo p) eqn:E2; auto.
  - unfold py_max. rewrite Hlh. auto.
Qed.

Lemma look_clamps self mouse_rel : pitch_clamped (look self mouse_rel).
Proof.
  unfold pitch_clamped, look. destruct mouse_rel as [x_offset y_offset].
  cbn [pitch]. apply clamp_in_range.
Qed.

Lemma process_input_clamps G self keys mouse_rel delta_time :
  pitch_clamped (process_input G self keys mouse_rel delta_time).
Proof.
  unfold process_input, with_position, pitch_clamped. cbn [pitch].
  apply look_clamps.
Qed.

(** C7. From the initial camera, whose pitch is 0, after any sequence of
    calls of [process_input], whatever the keys, the pointer motion and the
    elapsed time of each, the pitch is between -89 and 89; and every call
    leaves it there, from any camera. *)
Theorem pitch_stays_clamped (G : Glm.lib) (frames : list frame) :
  pitch Camera_default = S754_zero false /\
  pitch_clamped (run G frames Camera_default) /\
  (forall self keys mouse_rel delta_time,
      pitch_clamped (process_input G self keys mouse_rel delta_time)).
Proof.
  split; [reflexivity |]. split; [| apply process_input_clamps].
  assert (H0 : pitch_clamped Camera_default)
    by (split; vm_compute; reflexivity).
  revert H0. generalize Camera_default as self.
  induction frames as [| f frames IH]; intros self Hself.
  - exact Hself.
  - cbn [run fold_left]. apply IH. apply process_input_clamps.
Qed.

(** ** C9: opposing keys *)

(** With both keys of an axis pressed, the camera adds the displacement of
    this axis to its position and subtracts it again (for left and right,
    the other way round), in binary32 arithmetic.  When the two operations
    give the position back, the frame ends as if neither key were
    pressed. *)
Lemma keys_cancel_when_round_trip_exact
    (G : Glm.lib) self keys mouse_rel delta_time :
  let c := look self mouse_rel in
  let v := velocity c delta_time in
  let p0 := position c in
  let p1 := move_forward keys (forward_axis G c) v p0 in
  let p2 := move_right keys (right_axis G c) v p1 in
  (keys K_w = true -> keys K_s = true ->
   exact_there_and_back p0 (Glm.scale (forward_axis G c) v) ->
   process_input G self keys mouse_rel delta_time
   = process_input G self (release [K_w; K_s] keys) mouse_rel delta_time) /\
  (keys K_a = true -> keys K_d = true ->
   exact_back_and_there p1 (Glm.scale (right_axis G c) v) ->
   process_input G self keys mouse_rel delta_time
   = process_input G self (release [K_a; K_d] keys) mouse_rel delta_time) /\
  (keys K_SPACE = true -> keys K_LCTRL || keys K_LSHIFT = true ->
   exact_there_and_back p2 (Glm.scale world_up v) ->
   process_input G self keys mouse_rel delta_time
   = process_input G self (release [K_SPACE; K_LCTRL; K_LSHIFT] keys)
       mouse_rel delta_time).
Proof.
  cbv zeta. unfold process_input, exact_there_and_back, exact_back_and_there.
  repeat split.
  - intros Hw Hs E. f_equal. unfold move_forward, release. cbn.
    rewrite Hw, Hs, E. reflexivity.
  - intros Ha Hd E. f_equal. unfold move_right, release. cbn.
    rewrite Ha, Hd.
    replace (move_forward (fun k => if existsb (key_eqb k) [K_a; K_d]
                                    then false else keys k))
      with (move_forward keys) by reflexivity.
    rewrite E. reflexivity.
  - intros Hs Hc E. f_equal. unfold move_up, release. cbn.
    rewrite Hs, Hc.
    replace (move_forward (fun k =>
               if existsb (key_eqb k) [K_SPACE; K_LCTRL; K_LSHIFT]
               then false else keys k))
      with (move_forward keys) by reflexivity.
    replace (move_right (fun k =>
               if existsb (key_eqb k) [K_SPACE; K_LCTRL; K_LSHIFT]
               then false else keys k))
      with (move_right keys) by reflexivity.
    rewrite E. reflexivity.
Qed.

(** The functions of the library play no part in the height of the camera
    when only the keys for up and down are pressed. *)
Lemma up_and_down_any_library (G : Glm.lib) :
  vy (position (process_input G Camera_default
                  (only [K_SPACE; K_LCTRL]) (0, 0) (milliseconds 16)))
  = S754_finite false 16777215 (-23).
Proof. vm_compute. reflexivity. Qed.

(** The claim as the specification states it fails.  The default camera
    stands at height 2; in a frame of 16 milliseconds with the keys for up
    and down pressed, the displacement is [5.0 * 0.016], as binary32
    0.08 - 1.8e-9, the sum [2 + 0.08] rounds to 2.0799999 and the difference
    to 1.9999999: the camera ends the frame lower than it was, whatever the
    functions of the library return. *)
Lemma up_and_down_leave_an_error :
  only [K_SPACE; K_LCTRL] K_SPACE = true /\
  only [K_SPACE; K_LCTRL] K_LCTRL = true /\
  vy (position Camera_default) = S754_finite false 8388608 (-22) /\
  vy (position (process_input axis_lib Camera_default
                  (only [K_SPACE; K_LCTRL]) (0, 0) (milliseconds 16)))
  = S754_finite false 16777215 (-23) /\
  SFltb (S754_finite false 16777215 (-23)) (S754_finite false 8388608 (-22))
  = true /\
  ~ (forall (G : Glm.lib) self keys mouse_rel delta_time,
        keys K_SPACE = true -> keys K_LCTRL || keys K_LSHIFT = true ->
        vy (position (process_input G self keys mouse_rel delta_time))
        = vy (position self)).
Proof.
  repeat (split; [vm_compute; reflexivity |]).
  intros H.
  specialize (H axis_lib Camera_default (only [K_SPACE; K_LCTRL]) (0, 0)
                (milliseconds 16) eq_refl eq_refl).
  vm_compute in H. discriminate.
Qed.

(** * Further properties of the loader *)

Lemma bind_ext_on {A B : Type} (m : traced A) (k k' : A -> traced B) :
  (forall a, snd m = Ok a -> k a = k' a) -> bind m k = bind m k'.
Proof.
  intros H. destruct m as [t [a | e]]; simpl; [| reflexivity].
  rewrite (H a eq_refl). reflexivity.
Qed.

(** ** The callback does not change what is returned *)

Lemma read_faces_any_callback cb lines vp V F n : forall i fv fc,
  never_raises cb ->
  0 <= i -> ((0 < n)%nat -> i + Z.of_nat n <= F) ->
  snd (read_faces (Some cb) lines vp V F n i fv fc)
  = snd (read_faces None lines vp V F n i fv fc).
Proof.
  induction n as [| n IH]; intros i fv fc Hcb Hi HF; cbn [read_faces].
  - reflexivity.
  - specialize (HF ltac:(lia)).
    rewrite !snd_bind.
    assert (Hrep : snd (bind (lift (F64.true_div (i + 1) F))
                          (fun progress_percentage =>
                             call cb progress_percentage (i + 1) F))
                   = snd (ret tt)).
    { destruct (true_div_in_unit (i + 1) F) as [-> _]; [lia |].
      rewrite bind_lift_Ok. unfold call. rewrite Hcb. reflexivity. }
    destruct (reports F i); [rewrite Hrep |]; cbn [snd ret].
    all: destruct (snd (item lines (2 + V + i))) as [line | e];
      [| reflexivity].
    all: rewrite !snd_bind.
    all: destruct (snd (read_face vp (Py.split (Py.strip line))))
      as [[[vs cs] |] | e]; try reflexivity; apply IH; auto; lia.
Qed.

Lemma snd_bind_ext {A B : Type} (m : traced A) (k k' : A -> traced B) :
  (forall a, snd (k a) = snd (k' a)) -> snd (bind m k) = snd (bind m k').
Proof.
  intros H. rewrite !snd_bind. destruct (snd m); [apply H | reflexivity].
Qed.

(** X1. A callback that never raises does not change the outcome of a load:
    the same arrays, or the same failure, as without a callback. *)
Theorem callback_does_not_change_outcome fs filepath cb :
  never_raises cb ->
  returned fs filepath (Some cb) = returned fs filepath None.
Proof.
  intros Hcb. rewrite !returned_body.
  assert (E : snd (load_body fs filepath (Some cb))
              = snd (load_body fs filepath None)).
  { unfold load_body.
    apply snd_bind_ext. intros lines. apply snd_bind_ext. intros l0.
    apply snd_bind_ext. intros _. apply snd_bind_ext. intros l1.
    apply snd_bind_ext. intros [V F]. apply snd_bind_ext. intros vp.
    rewrite !snd_bind.
    rewrite (read_faces_any_callback cb lines vp V F (Z.to_nat F) 0 [] [])
      by (auto; lia).
    reflexivity. }
  rewrite E. reflexivity.
Qed.

Lemma callback_does_not_change_outcome_witness :
  returned (one_file quad_between_triangles) "room.off" (Some quiet)
  = returned (one_file quad_between_triangles) "room.off" None.
Proof.
  apply callback_does_not_change_outcome. intros x num den. reflexivity.
Defined.

(** ** What the loader prints *)

Lemma printed_app t t' : printed (t ++ t') = printed t ++ printed t'.
Proof. unfold printed. apply flat_map_app. Qed.

(** A computation that starts with a step that prints nothing prints what
    the rest prints. *)
Lemma printed_then {A B : Type} (m : traced A) (k : A -> traced B)
    (g : result B -> list message) :
  printed (fst m) = [] ->
  (forall e, g (Raise e) = []) ->
  (forall a, snd m = Ok a -> printed (fst (k a)) = g (snd (k a))) ->
  printed (fst (bind m k)) = g (snd (bind m k)).
Proof.
  intros Hm Hg Hk. rewrite fst_bind, snd_bind.
  destruct (snd m) as [a | e].
  - rewrite printed_app, Hm. apply Hk. reflexivity.
  - rewrite Hm, Hg. reflexivity.
Qed.

Lemma printed_silent {A : Type} (m : traced A) :
  silent m -> printed (fst m) = [].
Proof. unfold silent. intros ->. reflexivity. Qed.

Lemma printed_read_faces cb lines vp V F n : forall i fv fc,
  printed (fst (read_faces cb lines vp V F n i fv fc)) = [].
Proof.
  induction n as [| n IH]; intros i fv fc; cbn [read_faces].
  - reflexivity.
  - apply (printed_then _ _ (fun _ => [])); [| reflexivity |].
    { destruct cb as [cb |]; [| reflexivity].
      destruct (reports F i); [| reflexivity].
      apply (printed_then _ _ (fun _ => [])); [reflexivity | reflexivity |].
      intros x _. reflexivity. }
    intros _ _.
    apply (printed_then _ _ (fun _ => [])); [reflexivity | reflexivity |].
    intros line _.
    apply (printed_then _ _ (fun _ => []));
      [apply printed_silent, silent_read_face | reflexivity |].
    intros [[vs cs] |] _; apply IH.
Qed.


(** ** Subscripts of a list with more elements at its end *)

Lemma getitem_app {A : Type} (l extra : list A) (i : Z) :
  0 <= i < Z.of_nat (List.length l) ->
  Py.getitem (l ++ extra) i = Py.getitem l i.
Proof.
  intros Hi. unfold Py.getitem. rewrite length_app, Nat2Z.inj_add.
  replace (0 <=? i) with true by (symmetry; apply Z.leb_le; lia).
  replace (i <? Z.of_nat (List.length l)) with true
    by (symmetry; apply Z.ltb_lt; lia).
  replace (i <? Z.of_nat (List.length l) + Z.of_nat (List.length extra))
    with true by (symmetry; apply Z.ltb_lt; lia).
  cbn [andb]. apply nth_error_app1. lia.
Qed.

Lemma item_app {A : Type} (l extra : list A) (i : Z) (a : A) :
  0 <= i -> snd (item l i) = Ok a -> item (l ++ extra) i = item l i.
Proof.
  intros Hi H. apply snd_item in H. apply getitem_Some_range in H.
  unfold item. rewrite getitem_app by lia. reflexivity.
Qed.

(** ** Fields after the seventh *)

(** X3. A face record is read through its first seven fields: fields after
    them, such as an alpha value after the three colors, change neither what
    is appended nor whether the record is refused. *)
Theorem fields_after_the_color_ignored vp parts extra :
  (7 <= List.length parts)%nat ->
  read_face vp (parts ++ extra) = read_face vp parts.
Proof.
  intros Hlen.
  assert (E : forall j, 0 <= j < 7 -> item (parts ++ extra) j = item parts j).
  { intros j Hj. unfold item. rewrite getitem_app by lia. reflexivity. }
  unfold read_face.
  rewrite (E 0) by lia. apply bind_ext. intros p0. apply bind_ext. intros k.
  destruct (negb (k =? 3)); [reflexivity |].
  rewrite (E 1) by lia. apply bind_ext. intros p1. apply bind_ext. intros i1.
  rewrite (E 2) by lia. apply bind_ext. intros p2. apply bind_ext. intros i2.
  rewrite (E 3) by lia. apply bind_ext. intros p3. apply bind_ext. intros i3.
  rewrite (E 4) by lia. apply bind_ext. intros p4. apply bind_ext. intros r.
  rewrite (E 5) by lia. apply bind_ext. intros p5. apply bind_ext. intros g.
  rewrite (E 6) by lia. reflexivity.
Qed.

Lemma fields_after_the_color_ignored_witness :
  read_face four_vertices face_with_alpha
  = read_face four_vertices (firstn 7 face_with_alpha).
Proof.
  apply (fields_after_the_color_ignored four_vertices
           (firstn 7 face_with_alpha) (skipn 7 face_with_alpha)).
  simpl. lia.
Defined.

(** ** Lines after the last face record *)

Lemma read_vertices_app lines extra n : forall i acc vp,
  0 <= i ->
  snd (read_vertices lines n i acc) = Ok vp ->
  read_vertices (lines ++ extra) n i acc = read_vertices lines n i acc.
Proof.
  induction n as [| n IH]; intros i acc vp Hi H; cbn [read_vertices] in *.
  - reflexivity.
  - apply snd_bind_Ok in H. destruct H as (line & Hl & H).
    rewrite (item_app lines extra (2 + i) line) by (auto; lia).
    apply bind_ext_on. intros line' Hl'.
    assert (line' = line) by congruence. subst line'.
    apply snd_bind_Ok in H. destruct H as (v & Hv & H).
    apply bind_ext_on. intros v' Hv'.
    assert (v' = v) by congruence. subst v'.
    apply (IH _ _ vp); [lia | exact H].
Qed.

Lemma read_faces_app cb lines extra vp V F n : forall i fv fc r,
  0 <= 2 + V + i ->
  snd (read_faces cb lines vp V F n i fv fc) = Ok r ->
  read_faces cb (lines ++ extra) vp V F n i fv fc
  = read_faces cb lines vp V F n i fv fc.
Proof.
  induction n as [| n IH]; intros i fv fc r Hi H; cbn [read_faces] in *.
  - reflexivity.
  - apply snd_bind_Ok in H. destruct H as (u & Hu & H).
    apply bind_ext_on. intros u' _.
    apply snd_bind_Ok in H. destruct H as (line & Hl & H).
    rewrite (item_app lines extra (2 + V + i) line) by (auto; lia).
    apply bind_ext_on. intros line' Hl'.
    assert (line' = line) by congruence. subst line'.
    apply snd_bind_Ok in H. destruct H as (face & Hf & H).
    apply bind_ext_on. intros face' Hf'.
    assert (face' = face) by congruence. subst face'.
    destruct face as [[vs cs] |]; apply (IH _ _ _ r); try lia; exact H.
Qed.

(** X4. Lines after the last face record are not read: when the declared
    number of vertices is not negative and the file loads, the same file
    with any lines added at its end loads with the same arrays, the same
    reports and the same printed lines. *)
Theorem lines_after_the_faces_ignored
    fs fs' filepath cb lines extra V F arrays :
  fs filepath = Ok lines ->
  fs' filepath = Ok (lines ++ extra) ->
  declared_counts lines = Ok (V, F) ->
  0 <= V ->
  returned fs filepath cb = Some arrays ->
  load_custom_off fs' filepath cb = load_custom_off fs filepath cb.
Proof.
  intros Hfs Hfs' Hc HV Hret. apply returned_Some in Hret.
  assert (E : load_body fs' filepath cb = load_body fs filepath cb).
  { unfold load_body in *. rewrite Hfs, Hfs' in *.
    rewrite !bind_lift_Ok in *.
    apply snd_bind_Ok in Hret. destruct Hret as (l0 & Hl0 & Hret).
    rewrite (item_app lines extra 0 l0) by (auto; lia).
    apply bind_ext_on. intros l0' Hl0'.
    assert (l0' = l0) by congruence. subst l0'.
    apply snd_bind_Ok in Hret. destruct Hret as (u & Hu & Hret).
    apply bind_ext_on. intros u' _.
    apply snd_bind_Ok in Hret. destruct Hret as (l1 & Hl1 & Hret).
    rewrite (item_app lines extra 1 l1) by (auto; lia).
    apply bind_ext_on. intros l1' Hl1'.
    assert (l1' = l1) by congruence. subst l1'.
    apply snd_bind_Ok in Hret. destruct Hret as ([V' F'] & Hc' & Hret).
    unfold declared_counts in Hc. rewrite snd_bind, Hl1 in Hc.
    assert (V' = V /\ F' = F) as [-> ->] by (split; congruence).
    apply bind_ext_on. intros [V' F'] Hc''.
    assert (V' = V /\ F' = F) as [-> ->] by (split; congruence).
    apply snd_bind_Ok in Hret. destruct Hret as (vp & Hvp & Hret).
    rewrite (read_vertices_app lines extra _ 0 [] vp) by (auto; lia).
    apply bind_ext_on. intros vp' Hvp'.
    assert (vp' = vp) by congruence. subst vp'.
    apply snd_bind_Ok in Hret. destruct Hret as (r & Hr & Hret).
    rewrite (read_faces_app cb lines extra vp V F _ 0 [] [] r)
      by (auto; lia).
    reflexivity. }
  unfold load_custom_off. rewrite E. reflexivity.
Qed.

Lemma lines_after_the_faces_ignored_witness :
  load_custom_off
    (one_file (quad_between_triangles ++ lines_after_the_faces))
    "room.off" (Some quiet)
  = load_custom_off (one_file quad_between_triangles) "room.off" (Some quiet).
Proof.
  destruct (returned (one_file quad_between_triangles) "room.off"
              (Some quiet)) as [arrays |] eqn:H.
  - apply (lines_after_the_faces_ignored
             (one_file quad_between_triangles)
             (one_file (quad_between_triangles ++ lines_after_the_faces))
             "room.off" (Some quiet) quad_between_triangles
             lines_after_the_faces 4 3 arrays).
    + reflexivity.
    + reflexivity.
    + vm_compute. reflexivity.
    + lia.
    + exact H.
  - vm_compute in H. discriminate.
Defined.

(** ** White space around a line *)

Lemma getitem_map {A B : Type} (f : A -> B) (l : list A) (i : Z) :
  Py.getitem (map f l) i = option_map f (Py.getitem l i).
Proof.
  unfold Py.getitem. rewrite length_map.
  destruct ((0 <=? i) && (i <? Z.of_nat (List.length l)));
    [apply nth_error_map |].
  destruct ((- Z.of_nat (List.length l) <=? i) && (i <? 0));
    [apply nth_error_map | reflexivity].
Qed.

Lemma bind_item_strip {B : Type} lines lines' i (k k' : string -> traced B) :
  map Py.strip lines = map Py.strip lines' ->
  (forall l l', Py.strip l = Py.strip l' -> k l = k' l') ->
  bind (item lines i) k = bind (item lines' i) k'.
Proof.
  intros Hmap Hk.
  assert (E : option_map Py.strip (Py.getitem lines i)
              = option_map Py.strip (Py.getitem lines' i))
    by (rewrite <- !getitem_map, Hmap; reflexivity).
  unfold item.
  destruct (Py.getitem lines i) as [l |], (Py.getitem lines' i) as [l' |];
    try discriminate; simpl or_raise.
  - rewrite !bind_lift_Ok. apply Hk. simpl in E. congruence.
  - reflexivity.
Qed.

Lemma read_vertices_strip lines lines' n : forall i acc,
  map Py.strip lines = map Py.strip lines' ->
  read_vertices lines n i acc = read_vertices lines' n i acc.
Proof.
  induction n as [| n IH]; intros i acc Hmap; cbn [read_vertices].
  - reflexivity.
  - apply bind_item_strip; [exact Hmap |]. intros l l' E. rewrite E.
    apply bind_ext. intros v. apply IH. exact Hmap.
Qed.

Lemma read_faces_strip cb lines lines' vp V F n : forall i fv fc,
  map Py.strip lines = map Py.strip lines' ->
  read_faces cb lines vp V F n i fv fc
  = read_faces cb lines' vp V F n i fv fc.
Proof.
  induction n as [| n IH]; intros i fv fc Hmap; cbn [read_faces].
  - reflexivity.
  - apply bind_ext. intros _.
    apply bind_item_strip; [exact Hmap |]. intros l l' E. rewrite E.
    apply bind_ext. intros [[vs cs] |]; apply IH; exact Hmap.
Qed.

(** X5. White space at the two ends of a line is not seen: two files whose
    lines are the same once stripped, for instance one with carriage returns
    before the line feeds, load with the same arrays, reports and printed
    lines. *)
Theorem white_space_around_lines_ignored
    fs fs' filepath cb lines lines' :
  fs filepath = Ok lines ->
  fs' filepath = Ok lines' ->
  map Py.strip lines = map Py.strip lines' ->
  load_custom_off fs' filepath cb = load_custom_off fs filepath cb.
Proof.
  intros Hfs Hfs' Hmap.
  assert (E : load_body fs filepath cb = load_body fs' filepath cb).
  { unfold load_body. rewrite Hfs, Hfs', !bind_lift_Ok.
    apply bind_item_strip; [exact Hmap |]. intros l0 l0' E0. rewrite E0.
    apply bind_ext. intros _.
    apply bind_item_strip; [exact Hmap |]. intros l1 l1' E1.
    unfold read_counts. rewrite E1.
    apply bind_ext. intros [V F].
    rewrite (read_vertices_strip lines lines') by exact Hmap.
    apply bind_ext. intros vp.
    rewrite (read_faces_strip cb lines lines') by exact Hmap.
    reflexivity. }
  unfold load_custom_off. rewrite E. reflexivity.
Qed.

Lemma white_space_around_lines_ignored_witness :
  load_custom_off
    (one_file (indented_with_line_ends quad_between_triangles))
    "room.off" (Some quiet)
  = load_custom_off (one_file quad_between_triangles) "room.off" (Some quiet).
Proof.
  apply (white_space_around_lines_ignored
           (one_file quad_between_triangles)
           (one_file (indented_with_line_ends quad_between_triangles))
           "room.off" (Some quiet) quad_between_triangles
           (indented_with_line_ends quad_between_triangles)).
  - reflexivity.
  - reflexivity.
  - vm_compute. reflexivity.
Defined.

(** ** The steps of a load that returns arrays, for a known file *)

Lemma load_steps fs filepath cb lines V F vs cs :
  fs filepath = Ok lines ->
  declared_counts lines = Ok (V, F) ->
  returned fs filepath cb = Some (vs, cs) ->
  exists vp fv fc,
    snd (read_vertices lines (Z.to_nat V) 0 []) = Ok vp /\
    snd (read_faces cb lines vp V F (Z.to_nat F) 0 [] []) = Ok (fv, fc) /\
    snd (np_array fv) = Ok vs /\
    snd (np_array fc) = Ok cs.
Proof.
  intros Hfs Hc H. apply returned_Some in H. unfold load_body in H.
  rewrite Hfs, bind_lift_Ok in H.
  apply snd_bind_Ok in H. destruct H as (l0 & _ & H).
  apply snd_bind_Ok in H. destruct H as (u & _ & H).
  apply snd_bind_Ok in H. destruct H as (l1 & Hl1 & H).
  apply snd_bind_Ok in H. destruct H as ([V' F'] & Hc' & H).
  unfold declared_counts in Hc. rewrite snd_bind, Hl1 in Hc.
  assert (V' = V /\ F' = F) as [-> ->] by (split; congruence).
  apply snd_bind_Ok in H. destruct H as (vp & Hvp & H).
  apply snd_bind_Ok in H. destruct H as ([fv fc] & Hf & H).
  apply snd_bind_Ok in H. destruct H as (vnp & Hv & H).
  apply snd_bind_Ok in H. destruct H as (cnp & Hcs & H).
  simpl in H. injection H as <- <-.
  exists vp, fv, fc. auto.
Qed.

(** ** The vertex table *)

Lemma read_vertices_rows lines n : forall i acc vp,
  snd (read_vertices lines n i acc) = Ok vp ->
  exists rows, vp = acc ++ rows /\ List.length rows = n /\
    forall j, (j < n)%nat ->
      exists v, nth_error rows j = Some v /\
                vertex_at lines (i + Z.of_nat j) = Some v.
Proof.
  induction n as [| n IH]; intros i acc vp H; cbn [read_vertices] in H.
  - simpl in H. injection H as <-. exists []. rewrite app_nil_r.
    repeat split. intros j Hj. lia.
  - apply snd_bind_Ok in H. destruct H as (line & Hl & H).
    apply snd_item in Hl.
    apply snd_bind_Ok in H. destruct H as (v & Hv & H).
    apply IH in H. destruct H as (rows & -> & Hlen & Hrows).
    exists (v :: rows). rewrite <- app_assoc. split; [reflexivity |].
    split; [simpl; lia |].
    intros [| j] Hj.
    + exists v. split; [reflexivity |]. unfold vertex_at, vertex_parts.
      rewrite Z.add_0_r, Hl. cbn [option_map].
      cbn [snd lift] in Hv. unfold or_raise in Hv.
      destruct (Py.map_opt PyFloat.float (Py.split (Py.strip line)));
        [injection Hv as ->; reflexivity | discriminate].
    + destruct (Hrows j ltac:(lia)) as (w & Hw & Hat).
      exists w. split; [exact Hw |].
      replace (i + Z.of_nat (S j)) with (i + 1 + Z.of_nat j) by lia.
      exact Hat.
Qed.

(** Row [k] of the vertex table holds the coordinates of vertex line [k]. *)
Lemma vertex_table_row lines V vp idx v :
  snd (read_vertices lines (Z.to_nat V) 0 []) = Ok vp ->
  Py.getitem vp idx = Some v ->
  - V <= idx < V /\ vertex_at lines (row_of V idx) = Some v.
Proof.
  intros Hvp Hv. pose proof (vertex_table_length _ _ _ Hvp) as Hlen.
  apply read_vertices_rows in Hvp. destruct Hvp as (rows & -> & Hn & Hrows).
  simpl app in *. pose proof (getitem_Some_range _ _ _ Hv) as Hr.
  assert (HV : 0 < V) by lia.
  split; [lia |].
  assert (E : Py.getitem rows idx = nth_error rows (Z.to_nat (row_of V idx))).
  { unfold Py.getitem, row_of. rewrite Hlen, Z.max_r by lia.
    destruct (idx <? 0) eqn:Eneg.
    - apply Z.ltb_lt in Eneg.
      replace (0 <=? idx) with false by (symmetry; apply Z.leb_gt; lia).
      replace (- V <=? idx) with true by (symmetry; apply Z.leb_le; lia).
      reflexivity.
    - apply Z.ltb_ge in Eneg.
      replace (0 <=? idx) with true by (symmetry; apply Z.leb_le; lia).
      replace (idx <? V) with true by (symmetry; apply Z.ltb_lt; lia).
      reflexivity. }
  rewrite E in Hv.
  assert (Hj : (Z.to_nat (row_of V idx) < Z.to_nat V)%nat)
    by (unfold row_of; destruct (Z.ltb_spec idx 0); lia).
  destruct (Hrows _ Hj) as (w & Hw & Hat).
  rewrite Z2Nat.id in Hat by (unfold row_of; destruct (Z.ltb_spec idx 0); lia).
  rewrite Z.add_0_l in Hat. congruence.
Qed.

(** ** Files that are too short *)

(** X6. A file that ends before the last of the vertex lines and face
    records its counts announce is refused: when the declared number of
    vertices is not negative, the loader returns [(None, None)]. *)
Theorem truncated_file_refused fs filepath cb lines V F :
  fs filepath = Ok lines ->
  declared_counts lines = Ok (V, F) ->
  0 <= V ->
  Z.of_nat (List.length lines) < 2 + V + Z.max 0 F ->
  returned fs filepath cb = None.
Proof.
  intros Hfs Hc HV Hshort.
  destruct (returned fs filepath cb) as [[vs cs] |] eqn:Hret; [| reflexivity].
  exfalso.
  destruct (load_steps _ _ _ _ _ _ _ _ Hfs Hc Hret)
    as (vp & fv & fc & Hvp & Hf & _).
  assert (H1 : 2 <= Z.of_nat (List.length lines)).
  { unfold declared_counts in Hc. apply snd_bind_Ok in Hc.
    destruct Hc as (l1 & Hl1 & _). apply snd_item in Hl1.
    apply getitem_Some_range in Hl1. lia. }
  destruct (Z.ltb_spec 0 F) as [HF | HF].
  - apply read_faces_Ok in Hf. destruct Hf as (Hall & _).
    destruct (Hall (F - 1)) as (face & Hface); [apply in_range; lia |].
    apply face_at_Ok in Hface. destruct Hface as (parts & Hp & _).
    unfold face_parts in Hp.
    destruct (Py.getitem lines (2 + V + (F - 1))) as [line |] eqn:Hl;
      [| discriminate].
    apply getitem_Some_range in Hl. lia.
  - destruct (Z.ltb_spec 0 V) as [HV' | HV']; [| lia].
    apply read_vertices_rows in Hvp. destruct Hvp as (rows & _ & Hn & Hrows).
    destruct (Hrows (Z.to_nat (V - 1)) ltac:(lia)) as (v & _ & Hat).
    unfold vertex_at, vertex_parts in Hat.
    destruct (Py.getitem lines (2 + (0 + Z.of_nat (Z.to_nat (V - 1)))))
      as [line |] eqn:Hl; [| discriminate].
    apply getitem_Some_range in Hl. lia.
Qed.

Lemma truncated_file_refused_witness :
  returned (one_file last_face_missing) "room.off" None = None.
Proof.
  apply (truncated_file_refused (one_file last_face_missing) "room.off" None
           last_face_missing 3 2).
  - reflexivity.
  - vm_compute. reflexivity.
  - lia.
  - simpl. lia.
Defined.

(** X7. A file of fewer than two lines, an empty file among them, is
    refused: the loader returns [(None, None)]. *)
Theorem file_without_counts_refused fs filepath cb lines :
  fs filepath = Ok lines ->
  (List.length lines < 2)%nat ->
  returned fs filepath cb = None.
Proof.
  intros Hfs Hlen.
  destruct (declared_counts lines) as [[V F] | e] eqn:Hc.
  - exfalso. unfold declared_counts in Hc. apply snd_bind_Ok in Hc.
    destruct Hc as (l1 & Hl1 & _). apply snd_item in Hl1.
    apply getitem_Some_range in Hl1. lia.
  - exact (counts_refused _ _ _ _ _ Hfs Hc).
Qed.

Lemma file_without_counts_refused_witness :
  returned (one_file header_only) "room.off" None = None.
Proof.
  apply (file_without_counts_refused (one_file header_only) "room.off" None
           header_only).
  - reflexivity.
  - simpl. lia.
Defined.

(** ** From the text of the file to the positions *)

(** The positions a triangle record appends, read from the vertex lines. *)
Lemma face_positions
    fs filepath cb lines V F vs cs k parts i1 i2 i3 :
  fs filepath = Ok lines ->
  declared_counts lines = Ok (V, F) ->
  returned fs filepath cb = Some (vs, cs) ->
  0 <= k < F ->
  face_parts lines V k = Some parts ->
  leading_count parts = Some 3 ->
  field parts 1 Py.int = Some i1 ->
  field parts 2 Py.int = Some i2 ->
  field parts 3 Py.int = Some i3 ->
  exists v1 v2 v3,
    vertex_at lines (row_of V i1) = Some v1 /\
    vertex_at lines (row_of V i2) = Some v2 /\
    vertex_at lines (row_of V i3) = Some v3 /\
    let n := (3 * triangle_count lines V (range k))%nat in
    nth_error vs n = Some (map F32.of_F64 v1) /\
    nth_error vs (n + 1) = Some (map F32.of_F64 v2) /\
    nth_error vs (n + 2) = Some (map F32.of_F64 v3).
Proof.
  intros Hfs Hc Hret Hk Hparts Hlead H1 H2 H3.
  destruct (load_steps _ _ _ _ _ _ _ _ Hfs Hc Hret)
    as (vp & fv & fc & Hvp & Hf & Hv & _).
  apply np_array_Ok in Hv. subst vs.
  apply read_faces_Ok in Hf. destruct Hf as (Hall & -> & _).
  fold (range F) in Hall. fold (range F).
  destruct (Hall k) as (face & Hface); [apply in_range; exact Hk |].
  destruct (face_at_emitted _ _ _ _ _ Hface)
    as [[Htri _] | [_ (parts' & vs' & cs' & Hp' & He & Hacc)]].
  { unfold is_triangle in Htri. rewrite Hparts, Hlead in Htri. discriminate. }
  assert (parts' = parts) by congruence. subst parts'.
  destruct Hacc as (j1 & j2 & j3 & fr & fg & fb & v1 & v2 & v3 & Hacc).
  decompose [and] Hacc. clear Hacc. subst vs' cs'.
  assert (j1 = i1 /\ j2 = i2 /\ j3 = i3) as (-> & -> & ->)
    by (repeat split; congruence).
  rewrite <- Hface in He.
  exists v1, v2, v3.
  repeat match goal with
         | H : Py.getitem vp _ = Some _ |- _ =>
             apply (vertex_table_row lines V vp _ _ Hvp) in H;
             destruct H as [_ H]
         end.
  repeat (split; [assumption |]).
  cbv zeta. simpl app. rewrite !nth_error_map.
  destruct (appended_at _ _ _ _ _ _ _ 0%nat Hall Hk He) as [E0 _];
    [simpl; lia | simpl; lia |].
  destruct (appended_at _ _ _ _ _ _ _ 1%nat Hall Hk He) as [E1 _];
    [simpl; lia | simpl; lia |].
  destruct (appended_at _ _ _ _ _ _ _ 2%nat Hall Hk He) as [E2 _];
    [simpl; lia | simpl; lia |].
  rewrite Nat.add_0_r in E0. unfold vec in *.
  rewrite E0, E1, E2. cbn [nth_error option_map].
  repeat split.
Qed.

(** X8. In a load that returns arrays, a face record [k] with leading count
    3 and the indices [i1], [i2], [i3] gives three consecutive positions, at
    the offset three times the number of triangle records before it: the
    coordinates written on the lines of the vertices the indices name, each
    rounded to binary32.  An index from [-V] to [-1] names a vertex from the
    end of the table. *)
Theorem positions_from_vertex_lines
    fs filepath cb lines V F vs cs k parts i1 i2 i3 :
  fs filepath = Ok lines ->
  declared_counts lines = Ok (V, F) ->
  returned fs filepath cb = Some (vs, cs) ->
  0 <= k < F ->
  face_parts lines V k = Some parts ->
  leading_count parts = Some 3 ->
  field parts 1 Py.int = Some i1 ->
  field parts 2 Py.int = Some i2 ->
  field parts 3 Py.int = Some i3 ->
  exists v1 v2 v3,
    vertex_at lines (row_of V i1) = Some v1 /\
    vertex_at lines (row_of V i2) = Some v2 /\
    vertex_at lines (row_of V i3) = Some v3 /\
    let n := (3 * triangle_count lines V (range k))%nat in
    nth_error vs n = Some (map F32.of_F64 v1) /\
    nth_error vs (n + 1) = Some (map F32.of_F64 v2) /\
    nth_error vs (n + 2) = Some (map F32.of_F64 v3).
Proof.
  intros Hfs Hc Hret Hk Hparts Hlead H1 H2 H3.
  exact (face_positions fs filepath cb lines V F vs cs k parts i1 i2 i3
           Hfs Hc Hret Hk Hparts Hlead H1 H2 H3).
Qed.

Lemma positions_from_vertex_lines_witness :
  match returned (one_file negative_indices) "room.off" None with
  | Some (vs, cs) =>
      exists v1 v2 v3,
        vertex_at negative_indices (row_of 3 (-1)) = Some v1 /\
        vertex_at negative_indices (row_of 3 (-2)) = Some v2 /\
        vertex_at negative_indices (row_of 3 (-3)) = Some v3 /\
        let n := (3 * triangle_count negative_indices 3 (range 0))%nat in
        nth_error vs n = Some (map F32.of_F64 v1) /\
        nth_error vs (n + 1) = Some (map F32.of_F64 v2) /\
        nth_error vs (n + 2) = Some (map F32.of_F64 v3)
  | None => False
  end.
Proof.
  destruct (returned (one_file negative_indices) "room.off" None)
    as [[vs cs] |] eqn:H.
  - apply (positions_from_vertex_lines
             (one_file negative_indices) "room.off" None
             negative_indices 3 1 vs cs 0
             ["3"; "-1"; "-2"; "-3"; "255"; "0"; "0"]%string).
    + reflexivity.
    + vm_compute. reflexivity.
    + exact H.
    + lia.
    + vm_compute. reflexivity.
    + vm_compute. reflexivity.
    + vm_compute. reflexivity.
    + vm_compute. reflexivity.
    + vm_compute. reflexivity.
  - vm_compute in H. discriminate.
Defined.

(** ** Records and lines that cannot be read *)

(** X9. A face record with leading count 3 needs six numbers after it: when
    one of its three indices is missing or is not an integer, or one of its
    three color values is missing or is not a number, the loader returns
    [(None, None)]. *)
Theorem triangle_record_needs_six_numbers
    fs filepath cb lines V F k parts :
  fs filepath = Ok lines ->
  declared_counts lines = Ok (V, F) ->
  0 <= k < F ->
  face_parts lines V k = Some parts ->
  leading_count parts = Some 3 ->
  field parts 1 Py.int = None \/ field parts 2 Py.int = None \/
  field parts 3 Py.int = None \/ field parts 4 PyFloat.float = None \/
  field parts 5 PyFloat.float = None \/ field parts 6 PyFloat.float = None ->
  returned fs filepath cb = None.
Proof.
  intros Hfs Hc Hk Hparts Hlead Hbad.
  destruct (returned fs filepath cb) as [[vs cs] |] eqn:Hret; [| reflexivity].
  exfalso.
  destruct (load_steps _ _ _ _ _ _ _ _ Hfs Hc Hret)
    as (vp & fv & fc & _ & Hf & _).
  apply read_faces_Ok in Hf. destruct Hf as (Hall & _).
  destruct (Hall k) as (face & Hface); [apply in_range; exact Hk |].
  apply face_at_Ok in Hface. destruct Hface as (parts' & Hp' & Hface).
  assert (parts' = parts) by congruence. subst parts'.
  apply read_face_Ok in Hface. destruct Hface as (c & Hc3 & Hface).
  assert (c = 3) by congruence. subst c.
  destruct Hface as [[Hne _] | [_ (vs' & cs' & _ & Hacc)]]; [congruence |].
  destruct Hacc as (i1 & i2 & i3 & r & g & b & v1 & v2 & v3 & Hacc).
  decompose [and] Hacc.
  decompose [or] Hbad; congruence.
Qed.

Lemma triangle_record_needs_six_numbers_witness :
  returned (one_file blue_missing) "room.off" None = None /\
  returned (one_file index_is_a_word) "room.off" None = None.
Proof.
  split.
  - apply (triangle_record_needs_six_numbers
             (one_file blue_missing) "room.off" None blue_missing 3 1 0
             ["3"; "0"; "1"; "2"; "255"; "0"]%string).
    + reflexivity.
    + vm_compute. reflexivity.
    + lia.
    + vm_compute. reflexivity.
    + vm_compute. reflexivity.
    + do 5 right. vm_compute. reflexivity.
  - apply (triangle_record_needs_six_numbers
             (one_file index_is_a_word) "room.off" None index_is_a_word 3 1 0
             ["3"; "0"; "one"; "2"; "255"; "0"; "0"]%string).
    + reflexivity.
    + vm_compute. reflexivity.
    + lia.
    + vm_compute. reflexivity.
    + vm_compute. reflexivity.
    + right. left. vm_compute. reflexivity.
Defined.

(** X10. Each of the [F] lines after the vertices must start with an
    integer: a line among them that is empty, or whose first field is not an
    integer, makes the loader return [(None, None)], even though the records
    of faces that are not triangles are skipped. *)
Theorem face_record_needs_a_count fs filepath cb lines V F k parts :
  fs filepath = Ok lines ->
  declared_counts lines = Ok (V, F) ->
  0 <= k < F ->
  face_parts lines V k = Some parts ->
  leading_count parts = None ->
  returned fs filepath cb = None.
Proof.
  intros Hfs Hc Hk Hparts Hlead.
  destruct (returned fs filepath cb) as [[vs cs] |] eqn:Hret; [| reflexivity].
  exfalso.
  destruct (load_steps _ _ _ _ _ _ _ _ Hfs Hc Hret)
    as (vp & fv & fc & _ & Hf & _).
  apply read_faces_Ok in Hf. destruct Hf as (Hall & _).
  destruct (Hall k) as (face & Hface); [apply in_range; exact Hk |].
  apply face_at_Ok in Hface. destruct Hface as (parts' & Hp' & Hface).
  assert (parts' = parts) by congruence. subst parts'.
  apply read_face_Ok in Hface. destruct Hface as (c & Hc3 & _).
  congruence.
Qed.

Lemma face_record_needs_a_count_witness :
  returned (one_file blank_face_line) "room.off" None = None.
Proof.
  apply (face_record_needs_a_count
           (one_file blank_face_line) "room.off" None blank_face_line 3 2 1
           []).
  - reflexivity.
  - vm_compute. reflexivity.
  - lia.
  - vm_compute. reflexivity.
  - vm_compute. reflexivity.
Defined.

(** X11. Each of the [V] lines after the counts must hold numbers only: a
    vertex line with a field that is not a number, or a vertex line that is
    missing, makes the loader return [(None, None)], whether or not a face
    uses the vertex. *)
Theorem vertex_line_needs_numbers fs filepath cb lines V F k :
  fs filepath = Ok lines ->
  declared_counts lines = Ok (V, F) ->
  0 <= k < V ->
  vertex_at lines k = None ->
  returned fs filepath cb = None.
Proof.
  intros Hfs Hc Hk Hbad.
  destruct (returned fs filepath cb) as [[vs cs] |] eqn:Hret; [| reflexivity].
  exfalso.
  destruct (load_steps _ _ _ _ _ _ _ _ Hfs Hc Hret)
    as (vp & fv & fc & Hvp & _).
  apply read_vertices_rows in Hvp. destruct Hvp as (rows & _ & _ & Hrows).
  destruct (Hrows (Z.to_nat k) ltac:(lia)) as (v & _ & Hat).
  rewrite Z2Nat.id, Z.add_0_l in Hat by lia. congruence.
Qed.

Lemma vertex_line_needs_numbers_witness :
  returned (one_file vertex_with_a_word) "room.off" None = None.
Proof.
  apply (vertex_line_needs_numbers
           (one_file vertex_with_a_word) "room.off" None
           vertex_with_a_word 3 0 1).
  - reflexivity.
  - vm_compute. reflexivity.
  - lia.
  - vm_compute. reflexivity.
Defined.

(** ** The shape of the two arrays *)

Lemma np_array_rows rows a :
  snd (np_array rows) = Ok a ->
  forall r r', In r a -> In r' a -> List.length r = List.length r'.
Proof.
  unfold np_array. destruct rows as [| r0 rs].
  - simpl. intros H. injection H as <-. intros r r' [].
  - match goal with |- context [forallb ?f rs] =>
      destruct (forallb f rs) eqn:E end; simpl; [| discriminate].
    intros H. injection H as <-.
    assert (Hlen : forall r, In r (map (map F32.of_F64) (r0 :: rs)) ->
                             List.length r = List.length r0).
    { intros r Hr. apply in_map_iff in Hr. destruct Hr as (x & <- & Hx).
      rewrite length_map. destruct Hx as [<- | Hx]; [reflexivity |].
      rewrite forallb_forall in E. apply Nat.eqb_eq, E, Hx. }
    intros r r' Hr Hr'. rewrite (Hlen r Hr), (Hlen r' Hr'). reflexivity.
Qed.

Lemma appended_colors_length lines vp V faces c :
  (forall k, In k faces -> exists face, face_at lines vp V k = Ok face) ->
  In c (appended_colors lines vp V faces) ->
  List.length c = 3%nat.
Proof.
  intros Hall Hc. unfold appended_colors in Hc. apply in_flat_map in Hc.
  destruct Hc as (k & Hk & Hc). destruct (Hall k Hk) as (face & Hface).
  destruct (face_at_emitted _ _ _ _ _ Hface)
    as [[_ He] | [_ (parts & vs & cs & _ & He & Hacc)]];
    rewrite <- Hface in He; rewrite He in Hc; cbn [snd] in Hc.
  - destruct Hc.
  - destruct Hacc as (i1 & i2 & i3 & r & g & b & v1 & v2 & v3 & Hacc).
    decompose [and] Hacc. subst cs.
    destruct Hc as [<- | [<- | [<- | []]]]; reflexivity.
Qed.

(** X12. The arrays the loader returns are rectangular: all positions have
    the same number of coordinates (which need not be three: it is the
    number of fields of the vertex lines that the faces use) and every color
    has three components. *)
Theorem arrays_are_rectangular fs filepath cb vs cs :
  returned fs filepath cb = Some (vs, cs) ->
  (forall v v', In v vs -> In v' vs -> List.length v = List.length v') /\
  (forall c, In c cs -> List.length c = 3%nat).
Proof.
  intros Hret.
  destruct (load_body_Ok fs filepath cb vs cs)
    as (lines & _ & V & F & _ & _ & _ & Hfs & _ & _ & Hc & _);
    [apply returned_Some; exact Hret |].
  destruct (load_steps _ _ _ _ _ _ _ _ Hfs Hc Hret)
    as (vp & fv & fc & _ & Hf & Hv & Hcs).
  split; [exact (np_array_rows _ _ Hv) |].
  apply np_array_Ok in Hcs. subst cs.
  apply read_faces_Ok in Hf. destruct Hf as (Hall & _ & ->).
  intros c Hc'. apply in_map_iff in Hc'. destruct Hc' as (x & <- & Hx).
  rewrite length_map. simpl app in Hx.
  exact (appended_colors_length _ _ _ _ _ Hall Hx).
Qed.

Lemma arrays_are_rectangular_witness :
  match returned (one_file quad_between_triangles) "room.off" None with
  | Some (vs, cs) =>
      (forall v v', In v vs -> In v' vs -> List.length v = List.length v') /\
      (forall c, In c cs -> List.length c = 3%nat)
  | None => False
  end.
Proof.
  destruct (returned (one_file quad_between_triangles) "room.off" None)
    as [[vs cs] |] eqn:H.
  - exact (arrays_are_rectangular _ _ _ _ _ H).
  - vm_compute in H. discriminate.
Defined.

(** X13. Vertex lines are not required to hold three coordinates, but a
    face that uses vertices with different numbers of coordinates makes the
    loader return [(None, None)]. *)
Theorem different_row_lengths_refused
    fs filepath cb lines V F k parts i j v w :
  fs filepath = Ok lines ->
  declared_counts lines = Ok (V, F) ->
  0 <= k < F ->
  face_parts lines V k = Some parts ->
  leading_count parts = Some 3 ->
  field parts 1 Py.int = Some i ->
  field parts 2 Py.int = Some j ->
  vertex_at lines (row_of V i) = Some v ->
  vertex_at lines (row_of V j) = Some w ->
  List.length v <> List.length w ->
  returned fs filepath cb = None.
Proof.
  intros Hfs Hc Hk Hparts Hlead Hi Hj Hv Hw Hne.
  destruct (returned fs filepath cb) as [[vs cs] |] eqn:Hret; [| reflexivity].
  exfalso.
  destruct (field parts 3 Py.int) as [l |] eqn:Hl.
  2:{ assert (Hnone : returned fs filepath cb = None); [| congruence].
      destruct (load_steps _ _ _ _ _ _ _ _ Hfs Hc Hret)
        as (vp & fv & fc & _ & Hf & _).
      apply read_faces_Ok in Hf. destruct Hf as (Hall & _).
      destruct (Hall k) as (face & Hface); [apply in_range; exact Hk |].
      apply face_at_Ok in Hface. destruct Hface as (parts' & Hp' & Hface).
      assert (parts' = parts) by congruence. subst parts'.
      apply read_face_Ok in Hface. destruct Hface as (c & Hc3 & Hface).
      assert (c = 3) by congruence. subst c.
      destruct Hface as [[Hn _] | [_ (vs' & cs' & _ & Hacc)]]; [congruence |].
      destruct Hacc as (i1 & i2 & i3 & r & g & b & v1 & v2 & v3 & Hacc).
      decompose [and] Hacc. congruence. }
  destruct (face_positions fs filepath cb lines V F vs cs k parts i j l)
    as (v1 & v2 & v3 & Hv1 & Hv2 & _ & Hn1 & Hn2 & _); try assumption.
  assert (v1 = v /\ v2 = w) as [-> ->] by (split; congruence).
  apply nth_error_In in Hn1, Hn2.
  destruct (load_steps _ _ _ _ _ _ _ _ Hfs Hc Hret)
    as (vp & fv & fc & _ & _ & Hnp & _).
  pose proof (np_array_rows _ _ Hnp _ _ Hn1 Hn2) as E.
  rewrite !length_map in E. contradiction.
Qed.

Lemma different_row_lengths_refused_witness :
  returned (one_file ragged_vertices) "room.off" None = None.
Proof.
  apply (different_row_lengths_refused
           (one_file ragged_vertices) "room.off" None ragged_vertices 3 1 0
           ["3"; "0"; "1"; "2"; "255"; "0"; "0"]%string 0 1
           [F64.of_Z 0; F64.of_Z 0] [F64.of_Z 1; F64.of_Z 0; F64.of_Z 0]).
  - reflexivity.
  - vm_compute. reflexivity.
  - lia.
  - vm_compute. reflexivity.
  - vm_compute. reflexivity.
  - vm_compute. reflexivity.
  - vm_compute. reflexivity.
  - vm_compute. reflexivity.
  - vm_compute. reflexivity.
  - simpl. lia.
Defined.

(** ** Counts that are not positive *)

(** X14. Counts are not checked against zero: with a header that holds a
    marker and two counts that are zero or negative, the loader reads no
    further line, calls nothing and returns two empty arrays. *)
Theorem counts_below_one_give_empty_arrays
    fs filepath cb lines l0 V F :
  fs filepath = Ok lines ->
  Py.getitem lines 0 = Some l0 ->
  Py.contains "OFF" (Py.strip l0) = true ->
  declared_counts lines = Ok (V, F) ->
  V <= 0 -> F <= 0 ->
  load_custom_off fs filepath cb
  = ([Printed (Loading filepath); Printed (Loaded 0)], Some ([], [])).
Proof.
  intros Hfs Hl0 Hh Hc HV HF.
  assert (E : load_body fs filepath cb
              = ([Printed (Loaded 0)], Ok ([], []))).
  { unfold load_body. rewrite Hfs, bind_lift_Ok.
    unfold item at 1. rewrite Hl0. cbn [or_raise]. rewrite bind_lift_Ok.
    unfold check_header. rewrite Hh, andb_false_r, bind_ret.
    unfold declared_counts in Hc. apply snd_bind_Ok in Hc.
    destruct Hc as (l1 & Hl1 & Hc).
    assert (E1 : item lines 1 = ret l1).
    { unfold item, lift in *. cbn [snd] in Hl1. rewrite Hl1. reflexivity. }
    assert (Ec : read_counts l1 = ret (V, F)).
    { pose proof (silent_read_counts l1) as S. unfold silent in S.
      destruct (read_counts l1) as [tc r]. cbn [fst snd] in *.
      subst tc r. reflexivity. }
    rewrite E1, bind_ret, Ec, bind_ret.
    replace (Z.to_nat V) with 0%nat by lia.
    replace (Z.to_nat F) with 0%nat by lia.
    reflexivity. }
  unfold load_custom_off. rewrite E. reflexivity.
Qed.

Lemma counts_below_one_give_empty_arrays_witness :
  load_custom_off (one_file negative_counts) "room.off" (Some quiet)
  = ([Printed (Loading "room.off"); Printed (Loaded 0)], Some ([], [])).
Proof.
  apply (counts_below_one_give_empty_arrays
           (one_file negative_counts) "room.off" (Some quiet)
           negative_counts "OFF" (-5) (-3)).
  - reflexivity.
  - reflexivity.
  - vm_compute. reflexivity.
  - vm_compute. reflexivity.
  - lia.
  - lia.
Defined.

(** ** No report before the face records *)

(** X15. The callback is not called before the face loop: a load that
    calls it at all has read a file whose header holds a marker, whose
    counts are two integers with at least one face, and all of whose vertex
    lines hold numbers.  A file refused for its header, its counts or a
    vertex line is refused without a report. *)
Theorem reports_start_after_the_vertices fs filepath cb :
  progress_calls (fst (load_custom_off fs filepath cb)) <> [] ->
  exists lines l0 V F,
    fs filepath = Ok lines /\
    Py.getitem lines 0 = Some l0 /\
    Py.contains "OFF" (Py.strip l0) = true /\
    declared_counts lines = Ok (V, F) /\
    0 < F /\
    forall k, 0 <= k < V -> vertex_at lines k <> None.
Proof.
  intros Hcalls.
  set (Q := exists lines l0 V F,
    fs filepath = Ok lines /\
    Py.getitem lines 0 = Some l0 /\
    Py.contains "OFF" (Py.strip l0) = true /\
    declared_counts lines = Ok (V, F) /\
    0 < F /\
    forall k, 0 <= k < V -> vertex_at lines k <> None).
  assert (H : progress_calls (fst (load_body fs filepath cb)) <> [] -> Q).
  { clear Hcalls. unfold load_body.
    set (P := fun x : traced (list vec * list vec) =>
                progress_calls (fst x) <> [] -> Q).
    assert (Hraise : forall e, P ([], Raise e))
      by (intros e Hne; contradiction Hne; reflexivity).
    match goal with |- progress_calls (fst ?x) <> [] -> Q => change (P x) end.
    apply (silent_then _ _ P); [silent_known | exact Hraise | cbv beta].
    intros lines Hfs. cbn [snd lift] in Hfs.
    apply (silent_then _ _ P); [silent_known | exact Hraise | cbv beta].
    intros l0 Hl0. apply snd_item in Hl0.
    apply (silent_then _ _ P); [silent_known | exact Hraise | cbv beta].
    intros [] Hh.
    assert (Hh' : Py.contains "OFF" (Py.strip l0) = true).
    { apply check_header_contains. unfold check_header in *.
      destruct (negb (Py.contains "COFF" (Py.strip l0))
                && negb (Py.contains "OFF" (Py.strip l0)));
        [discriminate | reflexivity]. }
    apply (silent_then _ _ P); [silent_known | exact Hraise | cbv beta].
    intros l1 Hl1.
    apply (silent_then _ _ P); [silent_known | exact Hraise | cbv beta].
    intros [V F] Hc.
    assert (Hc' : declared_counts lines = Ok (V, F))
      by (unfold declared_counts; rewrite snd_bind, Hl1; exact Hc).
    apply (silent_then _ _ P); [silent_known | exact Hraise | cbv beta].
    intros vp Hvp. unfold P. intros Hne.
    destruct (Z.ltb_spec 0 F) as [HF | HF].
    - exists lines, l0, V, F. repeat (split; [assumption |]).
      intros k Hk. apply read_vertices_rows in Hvp.
      destruct Hvp as (rows & _ & _ & Hrows).
      destruct (Hrows (Z.to_nat k) ltac:(lia)) as (v & _ & Hat).
      rewrite Z2Nat.id, Z.add_0_l in Hat by lia. congruence.
    - contradiction Hne.
      replace (Z.to_nat F) with 0%nat by lia. reflexivity. }
  apply H. intros E. apply Hcalls. unfold load_custom_off.
  destruct (load_body fs filepath cb) as [t [arrays | e]]; cbn [fst] in *.
  - cbn [progress_calls filter is_progress]. exact E.
  - unfold progress_calls in *. cbn [filter is_progress].
    rewrite filter_app, E. reflexivity.
Qed.

Lemma reports_start_after_the_vertices_witness :
  exists lines l0 V F,
    one_file two_red_triangles "room.off"%string = Ok lines /\
    Py.getitem lines 0 = Some l0 /\
    Py.contains "OFF" (Py.strip l0) = true /\
    declared_counts lines = Ok (V, F) /\
    0 < F /\
    forall k, 0 <= k < V -> vertex_at lines k <> None.
Proof.
  apply (reports_start_after_the_vertices
           (one_file two_red_triangles) "room.off" (Some quiet)).
  vm_compute. discriminate.
Defined.

(** ** A callback that raises *)

(** X16. An exception of the callback is caught like any other: when a file
    with at least one face is read down to its last vertex line and the
    callback raises at the first report, the loader reads no face record,
    prints the error and returns [(None, None)]. *)
Theorem error_of_the_callback_is_caught
    fs filepath cb lines l0 V F vp e :
  fs filepath = Ok lines ->
  Py.getitem lines 0 = Some l0 ->
  Py.contains "OFF" (Py.strip l0) = true ->
  declared_counts lines = Ok (V, F) ->
  snd (read_vertices lines (Z.to_nat V) 0 []) = Ok vp ->
  0 < F ->
  cb (F64.quotient 1 F) 1 F = Some e ->
  load_custom_off fs filepath (Some cb)
  = ([Printed (Loading filepath); Progress (F64.quotient 1 F) 1 F;
      Printed (LoadError e)], None).
Proof.
  intros Hfs Hl0 Hh Hc Hvp HF Hcb.
  assert (E : load_body fs filepath (Some cb)
              = ([Progress (F64.quotient 1 F) 1 F], Raise e)).
  { unfold load_body. rewrite Hfs, bind_lift_Ok.
    unfold item at 1. rewrite Hl0. cbn [or_raise]. rewrite bind_lift_Ok.
    unfold check_header. rewrite Hh, andb_false_r, bind_ret.
    unfold declared_counts in Hc. apply snd_bind_Ok in Hc.
    destruct Hc as (l1 & Hl1 & Hc).
    assert (E1 : item lines 1 = ret l1).
    { unfold item, lift in *. cbn [snd] in Hl1. rewrite Hl1. reflexivity. }
    assert (Ec : read_counts l1 = ret (V, F)).
    { pose proof (silent_read_counts l1) as S. unfold silent in S.
      destruct (read_counts l1) as [tc r]. cbn [fst snd] in *.
      subst tc r. reflexivity. }
    assert (Ev : read_vertices lines (Z.to_nat V) 0 [] = ret vp).
    { pose proof (silent_read_vertices lines (Z.to_nat V) 0 []) as S.
      unfold silent in S.
      destruct (read_vertices lines (Z.to_nat V) 0 []) as [tv r].
      cbn [fst snd] in *. subst tv r. reflexivity. }
    rewrite E1, bind_ret, Ec, bind_ret, Ev, bind_ret.
    destruct (Z.to_nat F) as [| n] eqn:En; [lia |].
    cbn [read_faces]. unfold reports.
    change (0 mod 15000 =? 0) with true. cbn [orb].
    change (0 + 1) with 1.
    destruct (true_div_in_unit 1 F) as [-> _]; [lia |].
    rewrite bind_lift_Ok. unfold call. rewrite Hcb. reflexivity. }
  unfold load_custom_off. rewrite E. reflexivity.
Qed.

Lemma error_of_the_callback_is_caught_witness :
  load_custom_off (one_file two_red_triangles) "room.off"
    (Some (raising_at 1))
  = ([Printed (Loading "room.off"); Progress (F64.quotient 1 2) 1 2;
      Printed (LoadError (CallbackError 0))], None).
Proof.
  apply (error_of_the_callback_is_caught
           (one_file two_red_triangles) "room.off" (raising_at 1)
           two_red_triangles "OFF" 4 2 four_vertices (CallbackError 0)).
  - reflexivity.
  - reflexivity.
  - vm_compute. reflexivity.
  - vm_compute. reflexivity.
  - vm_compute. reflexivity.
  - lia.
  - reflexivity.
Defined.

(** * Further properties of the camera *)

Lemma position_step G self f :
  (forall k, keys_pressed f k = false) ->
  position (step G self f) = position self.
Proof.
  intros Hk. unfold step, process_input, with_position, move_up, move_right,
    move_forward. cbn [position].
  rewrite !Hk. cbn [orb]. unfold look. destruct (mouse_moved f).
  reflexivity.
Qed.

(** X17. Looking around does not move the camera: over any run of frames in
    which no movement key is down, whatever the pointer does, whatever time
    passes and whatever the library returns, the position stays what it
    was. *)
Theorem looking_does_not_move (G : Glm.lib) (frames : list frame) self :
  (forall f, In f frames -> forall k, keys_pressed f k = false) ->
  position (run G frames self) = position self.
Proof.
  unfold run. revert self.
  induction frames as [| f frames IH]; intros self Hk; [reflexivity |].
  cbn [fold_left]. rewrite IH by (intros g Hg; apply Hk; right; exact Hg).
  apply position_step. apply Hk. left. reflexivity.
Qed.

Lemma looking_does_not_move_witness :
  position (run axis_lib [looking_frame; looking_frame] Camera_default)
  = position Camera_default.
Proof.
  apply looking_does_not_move.
  intros f [<- | [<- | []]] k; destruct k; reflexivity.
Defined.

Lemma orientation_step G G' self self' f f' :
  mouse_moved f = mouse_moved f' ->
  yaw self = yaw self' -> pitch self = pitch self' ->
  mouse_sensitivity self = mouse_sensitivity self' ->
  yaw (step G self f) = yaw (step G' self' f') /\
  pitch (step G self f) = pitch (step G' self' f') /\
  mouse_sensitivity (step G self f) = mouse_sensitivity (step G' self' f').
Proof.
  intros Hm Hy Hp Hs. unfold step, process_input, with_position.
  cbn [yaw pitch mouse_sensitivity]. rewrite Hm. unfold look.
  destruct (mouse_moved f') as [x_offset y_offset].
  cbn [yaw pitch mouse_sensitivity]. rewrite Hy, Hp, Hs. repeat split.
Qed.

(** X18. Where the camera looks depends on the pointer alone: two runs with
    the same pointer motions, from cameras with the same yaw, pitch and
    sensitivity, end with the same yaw and the same pitch, whatever keys
    are down, whatever time passes and whatever the library returns. *)
Theorem orientation_follows_the_pointer
    (G G' : Glm.lib) (frames frames' : list frame) self self' :
  map mouse_moved frames = map mouse_moved frames' ->
  yaw self = yaw self' ->
  pitch self = pitch self' ->
  mouse_sensitivity self = mouse_sensitivity self' ->
  yaw (run G frames self) = yaw (run G' frames' self') /\
  pitch (run G frames self) = pitch (run G' frames' self').
Proof.
  unfold run. revert frames' self self'.
  induction frames as [| f frames IH]; intros [| f' frames'] self self'
    Hm Hy Hp Hs; try discriminate; [split; assumption |].
  cbn [map] in Hm. injection Hm as Hf Hm. cbn [fold_left].
  destruct (orientation_step G G' self self' f f' Hf Hy Hp Hs)
    as (Hy' & Hp' & Hs').
  apply IH; assumption.
Qed.

Lemma orientation_follows_the_pointer_witness :
  yaw (run axis_lib [looking_frame; moving_frame] Camera_default)
  = yaw (run axis_lib [moving_frame; looking_frame] Camera_default) /\
  pitch (run axis_lib [looking_frame; moving_frame] Camera_default)
  = pitch (run axis_lib [moving_frame; looking_frame] Camera_default).
Proof.
  apply orientation_follows_the_pointer; reflexivity.
Defined.

(** X19. The camera never changes its speed or its sensitivity: after any
    run of frames both are what the constructor set. *)
Theorem speed_and_sensitivity_stay (G : Glm.lib) (frames : list frame) self :
  speed (run G frames self) = speed self /\
  mouse_sensitivity (run G frames self) = mouse_sensitivity self.
Proof.
  unfold run. revert self.
  induction frames as [| f frames IH]; intros self; [split; reflexivity |].
  cbn [fold_left]. destruct (IH (step G self f)) as [-> ->].
  unfold step, process_input, with_position, look.
  destruct (mouse_moved f). split; reflexivity.
Qed.

(** ** A frame in which nothing happens *)

Lemma clamp_settles (p : spec_float) :
  let r := py_max (float_lit true 89 0) (py_min (float_lit false 89 0) p) in
  (F64.ltb (float_lit true 89 0) r = true /\
   F64.ltb r (float_lit false 89 0) = true) \/
  r = float_lit false 89 0 \/ r = float_lit true 89 0.
Proof.
  cbv zeta. unfold py_min.
  destruct (F64.ltb p (float_lit false 89 0)) eqn:E1; unfold py_max.
  - destruct (F64.ltb (float_lit true 89 0) p) eqn:E2; auto.
  - replace (F64.ltb (float_lit true 89 0) (float_lit false 89 0)) with true
      by (vm_compute; reflexivity).
    auto.
Qed.

(** The pitch is settled after every call, and in the initial camera. *)
Lemma process_input_settles G self keys mouse_rel delta_time :
  pitch_settled (process_input G self keys mouse_rel delta_time).
Proof.
  unfold process_input, with_position, pitch_settled, look.
  destruct mouse_rel as [x_offset y_offset]. cbn [pitch].
  apply clamp_settles.
Qed.

Lemma run_settles G frames :
  pitch_settled (run G frames Camera_default).
Proof.
  assert (H0 : pitch_settled Camera_default)
    by (left; split; vm_compute; reflexivity).
  revert H0. unfold run. generalize Camera_default as self.
  induction frames as [| f frames IH]; intros self Hself; [exact Hself |].
  cbn [fold_left]. apply IH. apply process_input_settles.
Qed.

Lemma clamp_of_settled (p : spec_float) :
  (F64.ltb (float_lit true 89 0) p = true /\
   F64.ltb p (float_lit false 89 0) = true) \/
  p = float_lit false 89 0 \/ p = float_lit true 89 0 ->
  py_max (float_lit true 89 0) (py_min (float_lit false 89 0) p) = p.
Proof.
  intros [[H1 H2] | [-> | ->]].
  - unfold py_min, py_max. rewrite H2, H1. reflexivity.
  - vm_compute. reflexivity.
  - vm_compute. reflexivity.
Qed.

(** X29. A frame in which nothing happens changes nothing: with no
    movement key down and no pointer motion, [process_input] returns the
    camera as it was, whatever time has passed and whatever the library
    returns, for a camera with a positive finite sensitivity, a yaw that is
    not the negative zero, and a pitch as the clamp leaves it (which is the
    pitch of the initial camera and of every camera [process_input]
    returns). *)
Theorem still_frame_changes_nothing
    (G : Glm.lib) self keys delta_time mantissa exponent :
  (forall k, keys k = false) ->
  mouse_sensitivity self = S754_finite false mantissa exponent ->
  yaw self <> S754_zero true ->
  pitch_settled self ->
  process_input G self keys (0, 0) delta_time = self.
Proof.
  intros Hk Hs Hy Hp. destruct self as [pos y p sp s].
  cbn [mouse_sensitivity yaw pitch] in *. subst s.
  unfold process_input, with_position, move_up, move_right, move_forward.
  rewrite !Hk. cbn [orb]. unfold look. cbn [position yaw pitch speed
    mouse_sensitivity].
  change (F64.mul (F64.of_Z 0) (S754_finite false mantissa exponent))
    with (S754_zero false).
  assert (Ey : F64.add y (S754_zero false) = y).
  { destruct y as [[|] | | |]; try reflexivity. contradiction Hy.
    reflexivity. }
  assert (Ep : F64.sub p (S754_zero false) = p).
  { destruct p as [[|] | | |]; reflexivity. }
  rewrite Ey, Ep, (clamp_of_settled p Hp). reflexivity.
Qed.

Lemma still_frame_changes_nothing_witness :
  process_input axis_lib turned_camera (only []) (0, 0) (milliseconds 16)
  = turned_camera.
Proof.
  apply (still_frame_changes_nothing axis_lib turned_camera (only [])
           (milliseconds 16) 7205759403792794 (-56)).
  - intros k. destruct k; reflexivity.
  - vm_compute. reflexivity.
  - vm_compute. discriminate.
  - left. split; vm_compute; reflexivity.
Defined.

(** * The shaders and the main loop *)

(** ** The monad of the program *)

Lemma io_bind_eq {M A B : Type} (m : io M A) (k : A -> io M B) :
  io_bind m k =
  match snd m with
  | Returns a => (fst m ++ fst (k a), snd (k a))
  | RuntimeError message => (fst m, RuntimeError message)
  | Running => (fst m, Running)
  end.
Proof.
  destruct m as [t [a | message |]]; cbn [io_bind fst snd]; try reflexivity.
  destruct (k a); reflexivity.
Qed.

Lemma bind_does {M A B : Type} (e : effect M) (a : A) (k : A -> io M B) :
  io_bind (does e a) k = (e :: fst (k a), snd (k a)).
Proof. rewrite io_bind_eq. reflexivity. Qed.

Lemma bind_do_all {M B : Type} (es : list (effect M)) (k : unit -> io M B) :
  io_bind (do_all es) k = (es ++ fst (k tt), snd (k tt)).
Proof. rewrite io_bind_eq. reflexivity. Qed.

(** ** The two functions that build the program *)

Lemma compile_shader_eq {M : Type} (D : driver) source t :
  compile_shader M D source t =
  let shader := shader_name D t in
  if compile_status D shader =? 0
  then ([glCreateShader t; glShaderSource shader source;
         glCompileShader shader; glGetShaderiv_COMPILE_STATUS shader;
         glGetShaderInfoLog shader],
        RuntimeError ("Shader compilation failed: " ++ shader_log D shader))
  else ([glCreateShader t; glShaderSource shader source;
         glCompileShader shader; glGetShaderiv_COMPILE_STATUS shader],
        Returns shader).
Proof.
  unfold compile_shader. rewrite bind_does, bind_do_all, bind_does.
  cbv zeta. destruct (compile_status D (shader_name D t) =? 0).
  - rewrite bind_does. reflexivity.
  - reflexivity.
Qed.

(** X20. [create_shader_program] returns a program exactly when the two
    shaders compile and the program links, and the program is then the one
    OpenGL created; otherwise it raises [RuntimeError]. *)
Theorem program_returned_iff_built
    (M : Type) (D : driver) vertex_source fragment_source :
  (forall program,
     snd (create_shader_program M D vertex_source fragment_source)
     = Returns program <-> builds D /\ program = program_name D) /\
  (~ builds D ->
   exists message,
     snd (create_shader_program M D vertex_source fragment_source)
     = RuntimeError message).
Proof.
  unfold builds, create_shader_program.
  rewrite !io_bind_eq, !compile_shader_eq. cbv zeta.
  destruct (compile_status D (shader_name D GL_VERTEX_SHADER) =? 0) eqn:E1;
    cbn [fst snd].
  { apply Z.eqb_eq in E1. split.
    - intros program. split; [discriminate | intros [[H _] _]; contradiction].
    - intros _. eexists. reflexivity. }
  apply Z.eqb_neq in E1. rewrite ?io_bind_eq, ?compile_shader_eq. cbv zeta.
  destruct (compile_status D (shader_name D GL_FRAGMENT_SHADER) =? 0) eqn:E2;
    cbn [fst snd].
  { apply Z.eqb_eq in E2. split.
    - intros program. split;
        [discriminate | intros [(_ & H & _) _]; contradiction].
    - intros _. eexists. reflexivity. }
  apply Z.eqb_neq in E2. rewrite bind_does, bind_do_all, bind_does.
  cbn [fst snd].
  destruct (link_status D (program_name D) =? 0) eqn:E3.
  { apply Z.eqb_eq in E3. rewrite bind_does. cbn [fst snd]. split.
    - intros program. split;
        [discriminate | intros [(_ & _ & H) _]; contradiction].
    - intros _. eexists. reflexivity. }
  apply Z.eqb_neq in E3. rewrite bind_do_all. cbn [fst snd io_ret]. split.
  - intros program. split.
    + intros H. injection H as <-. auto.
    + intros [_ ->]. reflexivity.
  - intros H. contradiction H. auto.
Qed.

Lemma program_built (M : Type) (D : driver) vertex_source fragment_source :
  builds D ->
  create_shader_program M D vertex_source fragment_source =
  let vertex_shader := shader_name D GL_VERTEX_SHADER in
  let fragment_shader := shader_name D GL_FRAGMENT_SHADER in
  let program := program_name D in
  ([glCreateShader GL_VERTEX_SHADER;
    glShaderSource vertex_shader vertex_source;
    glCompileShader vertex_shader;
    glGetShaderiv_COMPILE_STATUS vertex_shader;
    glCreateShader GL_FRAGMENT_SHADER;
    glShaderSource fragment_shader fragment_source;
    glCompileShader fragment_shader;
    glGetShaderiv_COMPILE_STATUS fragment_shader;
    glCreateProgram;
    glAttachShader program vertex_shader;
    glAttachShader program fragment_shader;
    glLinkProgram program;
    glGetProgramiv_LINK_STATUS program;
    glDeleteShader vertex_shader;
    glDeleteShader fragment_shader],
   Returns program).
Proof.
  intros (H1 & H2 & H3). apply Z.eqb_neq in H1, H2, H3.
  unfold create_shader_program. rewrite !compile_shader_eq. cbv zeta.
  rewrite H1, H2. cbn [io_bind does do_all app]. rewrite H3. reflexivity.
Qed.

(** A build that fails: its calls and its message. *)
Lemma program_not_built (M : Type) (D : driver) vertex_source fragment_source :
  ~ builds D ->
  exists calls log,
    (create_shader_program M D vertex_source fragment_source
     = (calls, RuntimeError ("Shader compilation failed: " ++ log)) \/
     create_shader_program M D vertex_source fragment_source
     = (calls, RuntimeError ("Shader linking failed: " ++ log))) /\
    Forall (fun e => is_delete e = false) calls /\
    before_the_loop calls.
Proof.
  intros Hnot. unfold create_shader_program, before_the_loop.
  rewrite !compile_shader_eq. cbv zeta.
  destruct (compile_status D (shader_name D GL_VERTEX_SHADER) =? 0) eqn:E1.
  { cbn [io_bind]. eexists _, _. split; [left; reflexivity |].
    repeat split; repeat constructor. }
  destruct (compile_status D (shader_name D GL_FRAGMENT_SHADER) =? 0) eqn:E2.
  { cbn [io_bind app]. eexists _, _. split; [left; reflexivity |].
    repeat split; repeat constructor. }
  cbn [io_bind does do_all app].
  destruct (link_status D (program_name D) =? 0) eqn:E3.
  { cbn [io_bind does raise_RuntimeError app]. eexists _, _.
    split; [right; reflexivity |]. repeat split; repeat constructor. }
  contradiction Hnot. apply Z.eqb_neq in E1, E2, E3. repeat split; assumption.
Qed.

(** X21. A build that fails deletes nothing: when [create_shader_program]
    raises, with the log of the shader or of the program in its message, it
    has deleted none of the shaders and programs it created. *)
Theorem failed_build_deletes_nothing
    (M : Type) (D : driver) vertex_source fragment_source message :
  snd (create_shader_program M D vertex_source fragment_source)
  = RuntimeError message ->
  Forall (fun e => is_delete e = false)
         (fst (create_shader_program M D vertex_source fragment_source)) /\
  exists log, message = ("Shader compilation failed: " ++ log)%string \/
              message = ("Shader linking failed: " ++ log)%string.
Proof.
  intros H.
  assert (Hnot : ~ builds D).
  { intros Hb. rewrite (program_built M D _ _ Hb) in H. discriminate. }
  destruct (program_not_built M D vertex_source fragment_source Hnot)
    as (calls & log & [E | E] & Hdel & _); rewrite E in *;
    cbn [fst snd] in *; injection H as <-; (split; [exact Hdel |]);
    exists log; [left | right]; reflexivity.
Qed.

Lemma failed_build_deletes_nothing_witness :
  Forall (fun e => is_delete e = false)
         (fst (create_shader_program vec3 link_fails
                 VERTEX_SHADER FRAGMENT_SHADER)) /\
  exists log,
    ("Shader linking failed: varying not written"
     = "Shader compilation failed: " ++ log \/
     "Shader linking failed: varying not written"
     = "Shader linking failed: " ++ log)%string.
Proof.
  apply (failed_build_deletes_nothing vec3 link_fails
           VERTEX_SHADER FRAGMENT_SHADER).
  reflexivity.
Defined.

(** ** The loading screen and the set-up *)

Lemma load_eq (M : Type) fs :
  load M fs
  = (flat_map (shown M) (fst (load_custom_off fs "room.off" (Some quiet))),
     Returns (returned fs "room.off" (Some quiet))).
Proof.
  unfold load, returned.
  destruct (load_custom_off fs "room.off" (Some quiet)). reflexivity.
Qed.

Lemma shown_loading (M : Type) (t : list event) :
  Forall (fun e => is_loading e = true) (flat_map (shown M) t).
Proof.
  induction t as [| e t IH]; [constructor |].
  cbn [flat_map]. apply Forall_app. split; [| exact IH].
  destruct e; repeat constructor.
Qed.

Lemma loading_screen_eq (M : Type) fs :
  exists calls,
    loading_screen M fs
    = (calls, Returns (returned fs "room.off" (Some quiet))) /\
    Forall (fun e => is_loading e = true) calls.
Proof.
  unfold loading_screen. rewrite !bind_do_all, load_eq. cbn [fst snd].
  eexists. split; [reflexivity |].
  repeat (apply Forall_cons; [reflexivity |]).
  first [ apply shown_loading
        | apply Forall_app; split; [repeat constructor | apply shown_loading] ].
Qed.

Lemma loading_before_the_loop {M : Type} (calls : list (effect M)) :
  Forall (fun e => is_loading e = true) calls ->
  before_the_loop calls /\ Forall (fun e => is_opengl e = false) calls.
Proof.
  unfold before_the_loop, is_loading. intros H.
  induction H as [| e calls He H IH]; [repeat split; constructor |].
  destruct IH as ((Hd & Ht & Hq) & Hg).
  apply andb_true_iff in He. destruct He as [He He3].
  apply andb_true_iff in He. destruct He as [He1 He2].
  apply negb_true_iff in He1, He2, He3.
  repeat split; try (constructor; assumption).
  unfold draws in *. cbn [flat_map]. rewrite Hd.
  destruct e; try reflexivity; discriminate.
Qed.

Lemma setup_built G (M : Type) (X : matrices M) (D : driver) vertices colors :
  builds D ->
  exists calls,
    setup G M X D vertices colors
    = (calls,
       Returns (Engine (program_name D) (vertex_array_name D)
                  (first_buffer_name D) (second_buffer_name D)
                  (uniform_location D (program_name D) "view")
                  Camera_default)) /\
    before_the_loop calls.
Proof.
  intros Hb. unfold setup. rewrite (program_built M D _ _ Hb). cbv zeta.
  cbn [io_bind does do_all io_ret Camera_new app].
  eexists. split; [reflexivity |].
  unfold before_the_loop. repeat split; repeat constructor.
Qed.

Lemma setup_not_built G (M : Type) (X : matrices M) (D : driver)
    vertices colors :
  ~ builds D ->
  exists calls message,
    setup G M X D vertices colors = (calls, RuntimeError message) /\
    before_the_loop calls /\
    Forall (fun e => is_delete e = false) calls.
Proof.
  intros Hnot. unfold setup.
  destruct (program_not_built M D VERTEX_SHADER FRAGMENT_SHADER Hnot)
    as (calls & log & E & Hdel & Hd & Ht & Hq).
  rewrite bind_do_all, io_bind_eq.
  destruct E as [E | E]; rewrite E; cbn [fst snd]; eexists _, _;
    (split; [reflexivity |]); unfold before_the_loop;
    repeat split;
    try (repeat (apply Forall_cons; [reflexivity |]); assumption);
    unfold draws in *; cbn [flat_map app]; exact Hd.
Qed.

(** ** The loop *)

Lemma main_loop_step G (M : Type) (X : matrices M) p vl vao vs t ticks cam :
  main_loop G M X p vl vao vs (t :: ticks) cam =
  let cam' := step G cam (frame_of t) in
  if stopping t
  then (frame_calls G X p vl vao vs cam', Returns cam')
  else (frame_calls G X p vl vao vs cam'
          ++ fst (main_loop G M X p vl vao vs ticks cam'),
        snd (main_loop G M X p vl vao vs ticks cam')).
Proof.
  cbn [main_loop]. rewrite !bind_does. cbn [fst snd].
  rewrite bind_do_all. cbv zeta. unfold stopping, frame_calls, step, frame_of.
  cbn [keys_pressed mouse_moved elapsed].
  destruct (existsb stops (events t)); cbn [negb fst snd io_ret app];
    rewrite ?app_nil_r; reflexivity.
Qed.

Lemma main_loop_running G (M : Type) (X : matrices M) p vl vao vs ticks :
  forall cam,
  Forall (fun t => stopping t = false) ticks ->
  main_loop G M X p vl vao vs ticks cam
  = (flat_map (frame_calls G X p vl vao vs) (cameras G ticks cam), Running).
Proof.
  induction ticks as [| t ticks IH]; intros cam H; [reflexivity |].
  inversion H as [| ? ? Ht Hrest]; subst.
  rewrite main_loop_step. cbv zeta. rewrite Ht, (IH _ Hrest). reflexivity.
Qed.

Lemma last_cons {A : Type} (a : A) (l : list A) (d d' : A) :
  last (a :: l) d = last (a :: l) d'.
Proof.
  revert a. induction l as [| b l IH]; intros a; [reflexivity |].
  cbn [last] in *. apply IH.
Qed.

Lemma main_loop_stops G (M : Type) (X : matrices M) p vl vao vs t after before :
  forall cam,
  Forall (fun t => stopping t = false) before ->
  stopping t = true ->
  main_loop G M X p vl vao vs (before ++ t :: after) cam
  = (flat_map (frame_calls G X p vl vao vs) (cameras G (before ++ [t]) cam),
     Returns (last (cameras G (before ++ [t]) cam) cam)).
Proof.
  induction before as [| b before IH]; intros cam H Ht.
  - cbn [app]. rewrite main_loop_step. cbv zeta. rewrite Ht.
    cbn [cameras flat_map last]. rewrite app_nil_r. reflexivity.
  - inversion H as [| ? ? Hb Hrest]; subst.
    cbn [app]. rewrite main_loop_step. cbv zeta. rewrite Hb.
    rewrite (IH _ Hrest Ht). cbn [fst snd cameras flat_map]. f_equal.
    f_equal. destruct (cameras G (before ++ [t]) (step G cam (frame_of b)))
      eqn:E; [destruct before; discriminate |].
    cbn [last]. apply last_cons.
Qed.

(** The frames split at the first one that stops the loop, if any. *)
Lemma first_stopping (ticks : list tick) :
  (existsb stopping ticks = false /\
   Forall (fun t => stopping t = false) ticks) \/
  (existsb stopping ticks = true /\
   exists before t after,
     ticks = before ++ t :: after /\
     Forall (fun t => stopping t = false) before /\ stopping t = true).
Proof.
  induction ticks as [| t ticks IH]; [left; split; [reflexivity | constructor] |].
  cbn [existsb]. destruct (stopping t) eqn:Ht.
  - right. split; [reflexivity |]. exists [], t, ticks. auto.
  - destruct IH as [[E H] | [E (before & s & after & -> & H & Hs)]].
    + left. split; [exact E | constructor; assumption].
    + right. split; [exact E |]. exists (t :: before), s, after.
      repeat split; [constructor; assumption | exact Hs].
Qed.

Lemma cameras_length G ticks : forall cam,
  List.length (cameras G ticks cam) = List.length ticks.
Proof.
  induction ticks as [| t ticks IH]; intros cam; [reflexivity |].
  cbn [cameras List.length]. rewrite IH. reflexivity.
Qed.

(** The camera of frame [n] is the one that [n] calls of [process_input]
    leave. *)
Lemma cameras_run G ticks : forall cam,
  cameras G ticks cam
  = map (fun n => run G (map frame_of (firstn n ticks)) cam)
        (seq 1 (List.length ticks)).
Proof.
  induction ticks as [| t ticks IH]; intros cam; [reflexivity |].
  cbn [cameras List.length seq map]. f_equal.
  rewrite IH, <- (seq_shift (List.length ticks) 1), map_map. reflexivity.
Qed.

Lemma last_cameras G ticks t cam :
  last (cameras G (ticks ++ [t]) cam) cam
  = run G (map frame_of (ticks ++ [t])) cam.
Proof.
  revert cam. induction ticks as [| b ticks IH]; intros cam; [reflexivity |].
  change (run G (map frame_of ((b :: ticks) ++ [t])) cam)
    with (run G (map frame_of (ticks ++ [t])) (step G cam (frame_of b))).
  cbn [app cameras]. rewrite <- (IH (step G cam (frame_of b))).
  destruct (cameras G (ticks ++ [t]) (step G cam (frame_of b))) eqn:E.
  - destruct ticks; discriminate.
  - cbn [last]. apply last_cons.
Qed.

(** X22. The loop calls [process_input] once in each frame, with the keys,
    the pointer motion and the milliseconds of the frame divided by 1000,
    and draws with the camera this leaves: when the frame [t] is the first
    with an event that stops the loop, the loop makes the calls of the
    frames up to [t], the [n]-th with the camera that [n] calls of
    [process_input] leave, and returns after [t] without a look at the
    frames after it. *)
Theorem loop_runs_the_camera
    G (M : Type) (X : matrices M) p vl vao vs before t after cam :
  Forall (fun t => stopping t = false) before ->
  stopping t = true ->
  main_loop G M X p vl vao vs (before ++ t :: after) cam
  = (flat_map
       (fun n => frame_calls G X p vl vao vs
                   (run G (map frame_of (firstn n (before ++ [t]))) cam))
       (seq 1 (List.length (before ++ [t]))),
     Returns (run G (map frame_of (before ++ [t])) cam)).
Proof.
  intros Hb Ht. rewrite (main_loop_stops G M X p vl vao vs t after before
                           cam Hb Ht).
  rewrite last_cameras, cameras_run. f_equal.
  rewrite flat_map_concat_map, map_map, <- flat_map_concat_map. reflexivity.
Qed.

Lemma loop_runs_the_camera_witness :
  main_loop axis_lib vec3 eye_only 3 1 1 []
    ([idle_tick; walking_tick] ++ closing_tick :: [walking_tick])
    Camera_default
  = (flat_map
       (fun n => frame_calls axis_lib eye_only 3 1 1 []
                   (run axis_lib
                      (map frame_of
                         (firstn n ([idle_tick; walking_tick]
                                    ++ [closing_tick])))
                      Camera_default))
       (seq 1 (List.length ([idle_tick; walking_tick] ++ [closing_tick]))),
     Returns (run axis_lib
                (map frame_of ([idle_tick; walking_tick] ++ [closing_tick]))
                Camera_default)).
Proof.
  apply loop_runs_the_camera.
  - repeat constructor.
  - reflexivity.
Defined.

(** X23. Every view matrix the loop gives to OpenGL is the one of a camera
    whose pitch is between -89 and 89: [process_input] is called before
    [get_view_matrix] in every frame, the first one included. *)
Theorem views_are_of_clamped_cameras
    G (M : Type) (X : matrices M) p vl vao vs ticks cam :
  Forall (fun e => match e with
                   | glUniformMatrix4fv _ value =>
                       exists c, pitch_clamped c /\
                                 value = get_view_matrix G M X c
                   | _ => True
                   end)
         (fst (main_loop G M X p vl vao vs ticks cam)).
Proof.
  revert cam. induction ticks as [| t ticks IH]; intros cam; [constructor |].
  rewrite main_loop_step. cbv zeta.
  assert (Hframe : Forall (fun e => match e with
                   | glUniformMatrix4fv _ value =>
                       exists c, pitch_clamped c /\
                                 value = get_view_matrix G M X c
                   | _ => True
                   end)
            (frame_calls G X p vl vao vs (step G cam (frame_of t)))).
  { unfold frame_calls, draw_frame. cbn [app].
    repeat (apply Forall_cons; [exact I |]).
    apply Forall_cons.
    - eexists. split; [| reflexivity]. apply process_input_clamps.
    - repeat constructor. }
  destruct (stopping t); cbn [fst]; [exact Hframe |].
  apply Forall_app. split; [exact Hframe | apply IH].
Qed.

(** ** The entry point *)

Lemma draws_app {M : Type} (t t' : list (effect M)) :
  draws (t ++ t') = draws t ++ draws t'.
Proof. unfold draws. apply flat_map_app. Qed.

Lemma ticks_of_app {M : Type} (t t' : list (effect M)) :
  ticks_of (t ++ t') = (ticks_of t + ticks_of t')%nat.
Proof. unfold ticks_of. rewrite filter_app, length_app. reflexivity. Qed.

Lemma ticks_of_none {M : Type} (t : list (effect M)) :
  Forall (fun e => is_tick e = false) t -> ticks_of t = 0%nat.
Proof.
  unfold ticks_of. induction 1 as [| e t He _ IH]; [reflexivity |].
  cbn [filter]. rewrite He. exact IH.
Qed.

Lemma frames_draws G (M : Type) (X : matrices M) p vl vao vs cams :
  draws (flat_map (frame_calls G X p vl vao vs) cams)
  = repeat (len vs) (List.length cams).
Proof.
  induction cams as [| c cams IH]; [reflexivity |].
  cbn [flat_map]. rewrite draws_app, IH. reflexivity.
Qed.

Lemma frames_ticks G (M : Type) (X : matrices M) p vl vao vs cams :
  ticks_of (flat_map (frame_calls G X p vl vao vs) cams) = List.length cams.
Proof.
  induction cams as [| c cams IH]; [reflexivity |].
  cbn [flat_map]. rewrite ticks_of_app, IH. reflexivity.
Qed.

(** The program when the file loads and the shaders build: the calls before
    the loop, the loop, and the cleanup if the loop ends. *)
Lemma main_built G (M : Type) (X : matrices M) (D : driver) fs ticks vs cs :
  returned fs "room.off" (Some quiet) = Some (vs, cs) ->
  builds D ->
  exists head,
    before_the_loop head /\
    main G M X D fs ticks =
    let e := engine_of D in
    let loop := main_loop G M X (shader_program e) (view_loc e) (VAO e) vs
                  ticks (camera e) in
    match snd loop with
    | Returns _ => (head ++ fst loop ++ cleanup M e, Returns tt)
    | RuntimeError message => (head ++ fst loop, RuntimeError message)
    | Running => (head ++ fst loop, Running)
    end.
Proof.
  intros Hret Hb.
  destruct (loading_screen_eq M fs) as (L & EL & HL).
  destruct (loading_before_the_loop L HL) as ((Ld & Lt & Lq) & _).
  destruct (setup_built G M X D vs cs Hb) as (S & ES & Sd & St & Sq).
  exists (L ++ S). split.
  { unfold before_the_loop. rewrite draws_app, Ld, Sd.
    repeat split; try apply Forall_app; auto. }
  unfold main. rewrite EL, io_bind_eq. cbn [fst snd]. rewrite Hret.
  rewrite ES, io_bind_eq. cbn [fst snd]. fold (engine_of D). cbv zeta.
  rewrite io_bind_eq.
  destruct (snd (main_loop G M X (shader_program (engine_of D))
                   (view_loc (engine_of D)) (VAO (engine_of D)) vs ticks
                   (camera (engine_of D)))); cbn [fst snd do_all];
    rewrite <- ?app_assoc; reflexivity.
Qed.

Lemma main_failed_load G (M : Type) (X : matrices M) (D : driver) fs ticks :
  returned fs "room.off" (Some quiet) = None ->
  exists calls,
    main G M X D fs ticks = (calls ++ [pygame_quit], Returns tt) /\
    Forall (fun e => is_opengl e = false) calls /\
    before_the_loop calls.
Proof.
  intros Hret.
  destruct (loading_screen_eq M fs) as (L & EL & HL).
  destruct (loading_before_the_loop L HL) as (Hb & Hg).
  exists L. split; [| split; assumption].
  unfold main. rewrite EL, io_bind_eq. cbn [fst snd]. rewrite Hret.
  reflexivity.
Qed.

Lemma is_delete_opengl {M : Type} (e : effect M) :
  is_opengl e = false -> is_delete e = false.
Proof. destruct e; try reflexivity; discriminate. Qed.

Lemma main_not_built G (M : Type) (X : matrices M) (D : driver) fs ticks
    vs cs :
  returned fs "room.off" (Some quiet) = Some (vs, cs) ->
  ~ builds D ->
  exists calls message,
    main G M X D fs ticks = (calls, RuntimeError message) /\
    before_the_loop calls /\
    Forall (fun e => is_delete e = false) calls.
Proof.
  intros Hret Hnot.
  destruct (loading_screen_eq M fs) as (L & EL & HL).
  destruct (loading_before_the_loop L HL) as ((Ld & Lt & Lq) & Lg).
  destruct (setup_not_built G M X D vs cs Hnot)
    as (S & message & ES & (Sd & St & Sq) & Sdel).
  exists (L ++ S), message.
  unfold main. rewrite EL, io_bind_eq. cbn [fst snd]. rewrite Hret.
  rewrite ES, io_bind_eq. cbn [fst snd].
  split; [reflexivity |]. split.
  - unfold before_the_loop. rewrite draws_app, Ld, Sd.
    repeat split; try apply Forall_app; auto.
  - apply Forall_app. split; [| exact Sdel].
    eapply Forall_impl; [| exact Lg]. intros e. apply is_delete_opengl.
Qed.

Lemma builds_dec (D : driver) : builds D \/ ~ builds D.
Proof.
  unfold builds.
  destruct (Z.eq_dec (compile_status D (shader_name D GL_VERTEX_SHADER)) 0);
    [right; tauto |].
  destruct (Z.eq_dec (compile_status D (shader_name D GL_FRAGMENT_SHADER)) 0);
    [right; tauto |].
  destruct (Z.eq_dec (link_status D (program_name D)) 0);
    [right; tauto | left; tauto].
Qed.

(** X24. A load that fails ends the program before the OpenGL window is
    opened: [main] returns after the calls of the loading screen and of the
    loader, none of them a call of OpenGL, and one [pygame.quit()]. *)
Theorem failed_load_opens_no_window
    G (M : Type) (X : matrices M) (D : driver) fs ticks :
  returned fs "room.off" (Some quiet) = None ->
  exists calls,
    main G M X D fs ticks = (calls ++ [pygame_quit], Returns tt) /\
    Forall (fun e => is_opengl e = false) calls /\
    before_the_loop calls.
Proof.
  intros Hret. exact (main_failed_load G M X D fs ticks Hret).
Qed.

Lemma failed_load_opens_no_window_witness :
  exists calls,
    main axis_lib vec3 eye_only good_driver no_file [closing_tick]
    = (calls ++ [pygame_quit], Returns tt) /\
    Forall (fun e => is_opengl e = false) calls /\
    before_the_loop calls.
Proof.
  apply failed_load_opens_no_window. reflexivity.
Defined.

(** X25. A shader that does not compile, or a program that does not link,
    keeps the program out of its loop: [main] raises [RuntimeError] without
    a tick of the clock and without a draw call, and also without a call of
    [pygame.quit()] and without deleting an object of OpenGL. *)
Theorem failed_build_never_draws
    G (M : Type) (X : matrices M) (D : driver) fs ticks arrays :
  returned fs "room.off" (Some quiet) = Some arrays ->
  ~ builds D ->
  exists message,
    snd (main G M X D fs ticks) = RuntimeError message /\
    before_the_loop (fst (main G M X D fs ticks)) /\
    Forall (fun e => is_delete e = false) (fst (main G M X D fs ticks)).
Proof.
  intros Hret Hnot. destruct arrays as [vs cs].
  destruct (main_not_built G M X D fs ticks vs cs Hret Hnot)
    as (calls & message & E & Hb & Hdel).
  exists message. rewrite E. cbn [fst snd]. auto.
Qed.

Lemma failed_build_never_draws_witness :
  exists message,
    snd (main axis_lib vec3 eye_only fragment_fails
           (one_file two_red_triangles) [closing_tick])
    = RuntimeError message /\
    before_the_loop
      (fst (main axis_lib vec3 eye_only fragment_fails
              (one_file two_red_triangles) [closing_tick])) /\
    Forall (fun e => is_delete e = false)
      (fst (main axis_lib vec3 eye_only fragment_fails
              (one_file two_red_triangles) [closing_tick])).
Proof.
  destruct (returned (one_file two_red_triangles) "room.off" (Some quiet))
    as [arrays |] eqn:H.
  - apply (failed_build_never_draws axis_lib vec3 eye_only fragment_fails
             (one_file two_red_triangles) [closing_tick] arrays H).
    intros (_ & Hf & _). apply Hf. reflexivity.
  - vm_compute in H. discriminate.
Defined.

(** X26. Once the file is loaded and the shaders are built, the program
    ends only when it is asked to: [main] returns when one of the frames
    holds a [QUIT] event or the press of the escape key, and is still in its
    loop after any number of frames that hold neither. *)
Theorem main_returns_when_asked
    G (M : Type) (X : matrices M) (D : driver) fs ticks arrays :
  returned fs "room.off" (Some quiet) = Some arrays ->
  builds D ->
  snd (main G M X D fs ticks)
  = if existsb stopping ticks then Returns tt else Running.
Proof.
  intros Hret Hb. destruct arrays as [vs cs].
  destruct (main_built G M X D fs ticks vs cs Hret Hb) as (head & _ & E).
  rewrite E. cbv zeta.
  destruct (first_stopping ticks)
    as [[-> H] | [-> (before & t & after & -> & H & Ht)]].
  - rewrite main_loop_running by exact H. reflexivity.
  - rewrite main_loop_stops by assumption. reflexivity.
Qed.

Lemma main_returns_when_asked_witness :
  snd (main axis_lib vec3 eye_only good_driver (one_file two_red_triangles)
         [idle_tick; walking_tick; closing_tick; idle_tick])
  = Returns tt /\
  snd (main axis_lib vec3 eye_only good_driver (one_file two_red_triangles)
         [idle_tick; walking_tick; idle_tick])
  = Running.
Proof.
  destruct (returned (one_file two_red_triangles) "room.off" (Some quiet))
    as [arrays |] eqn:H.
  - split.
    + apply (main_returns_when_asked axis_lib vec3 eye_only good_driver
               (one_file two_red_triangles)
               [idle_tick; walking_tick; closing_tick; idle_tick] arrays H).
      repeat split; discriminate.
    + apply (main_returns_when_asked axis_lib vec3 eye_only good_driver
               (one_file two_red_triangles)
               [idle_tick; walking_tick; idle_tick] arrays H).
      repeat split; discriminate.
  - vm_compute in H. discriminate.
Defined.

(** X27. The frame that asks the program to end is still drawn, and nothing
    after it: when the frame [t] is the first with an event that stops the
    loop, [main] ticks the clock and draws once for each frame up to [t],
    [t] included, each time all the vertices of the array, and then deletes
    the vertex array, the two buffers and the program and calls
    [pygame.quit()], for the first time. *)
Theorem stopping_frame_is_drawn
    G (M : Type) (X : matrices M) (D : driver) fs before t after vs cs :
  returned fs "room.off" (Some quiet) = Some (vs, cs) ->
  builds D ->
  Forall (fun t => stopping t = false) before ->
  stopping t = true ->
  let calls := fst (main G M X D fs (before ++ t :: after)) in
  draws calls = repeat (len vs) (S (List.length before)) /\
  ticks_of calls = S (List.length before) /\
  exists earlier,
    calls = earlier ++ cleanup M (engine_of D) /\
    Forall (fun e => is_quit e = false) earlier.
Proof.
  intros Hret Hb Hbefore Ht. cbv zeta.
  destruct (main_built G M X D fs (before ++ t :: after) vs cs Hret Hb)
    as (head & (Hd & Hti & Hq) & E).
  rewrite E. cbv zeta. rewrite main_loop_stops by assumption.
  cbn [fst snd].
  assert (Hlen : List.length (cameras G (before ++ [t])
                                (camera (engine_of D)))
                 = S (List.length before))
    by (rewrite cameras_length, length_app; simpl; lia).
  repeat split.
  - rewrite !draws_app, Hd, frames_draws, Hlen. cbn [app].
    apply app_nil_r.
  - rewrite !ticks_of_app, (ticks_of_none head Hti), frames_ticks, Hlen.
    cbn [ticks_of cleanup filter is_tick List.length]. lia.
  - eexists. split; [rewrite app_assoc; reflexivity |].
    apply Forall_app. split; [exact Hq |].
    apply Forall_forall. intros e He. apply in_flat_map in He.
    destruct He as (c & _ & He). unfold frame_calls, draw_frame in He.
    cbn [app] in He.
    repeat (destruct He as [<- | He]; [reflexivity |]). destruct He.
Qed.

Lemma stopping_frame_is_drawn_witness :
  match returned (one_file two_red_triangles) "room.off" (Some quiet) with
  | Some (vs, cs) =>
      let calls :=
        fst (main axis_lib vec3 eye_only good_driver
               (one_file two_red_triangles)
               ([idle_tick; walking_tick] ++ closing_tick :: [idle_tick])) in
      draws calls = repeat (len vs) (S (List.length [idle_tick; walking_tick]))
      /\ ticks_of calls = S (List.length [idle_tick; walking_tick]) /\
      exists earlier,
        calls = earlier ++ cleanup vec3 (engine_of good_driver) /\
        Forall (fun e => is_quit e = false) earlier
  | None => False
  end.
Proof.
  destruct (returned (one_file two_red_triangles) "room.off" (Some quiet))
    as [[vs cs] |] eqn:H.
  - apply (stopping_frame_is_drawn axis_lib vec3 eye_only good_driver
             (one_file two_red_triangles) [idle_tick; walking_tick]
             closing_tick [idle_tick] vs cs H).
    + repeat split; discriminate.
    + repeat constructor.
    + reflexivity.
  - vm_compute in H. discriminate.
Defined.

(** ** From the file to the draw call *)

Lemma loaded_length fs filepath cb lines V F vs cs :
  fs filepath = Ok lines ->
  declared_counts lines = Ok (V, F) ->
  returned fs filepath cb = Some (vs, cs) ->
  List.length vs = (3 * triangle_count lines V (range F))%nat.
Proof.
  intros Hfs Hc Hret.
  destruct (load_steps _ _ _ _ _ _ _ _ Hfs Hc Hret)
    as (vp & fv & fc & _ & Hf & Hv & _).
  apply np_array_Ok in Hv. subst vs. rewrite length_map.
  apply read_faces_Ok in Hf. destruct Hf as (Hall & -> & _).
  destruct (appended_lengths lines vp V (range F) Hall) as [Hlen _].
  exact Hlen.
Qed.

(** X28. Every draw call of the program draws three vertices for each
    face record of the file with leading count 3 among the [F] records the
    counts announce, in every frame. *)
Theorem every_frame_draws_the_triangles
    G (M : Type) (X : matrices M) (D : driver) fs ticks lines V F n :
  fs "room.off"%string = Ok lines ->
  declared_counts lines = Ok (V, F) ->
  In n (draws (fst (main G M X D fs ticks))) ->
  n = Z.of_nat (3 * triangle_count lines V (range F)).
Proof.
  intros Hfs Hc Hn.
  destruct (returned fs "room.off" (Some quiet)) as [[vs cs] |] eqn:Hret.
  - pose proof (loaded_length _ _ _ _ _ _ _ _ Hfs Hc Hret) as Hlen.
    destruct (builds_dec D) as [Hb | Hnot].
    + destruct (main_built G M X D fs ticks vs cs Hret Hb)
        as (head & (Hd & _) & E).
      rewrite E in Hn. cbv zeta in Hn.
      assert (Hloop : exists k,
                draws (fst (main_loop G M X (shader_program (engine_of D))
                              (view_loc (engine_of D)) (VAO (engine_of D))
                              vs ticks (camera (engine_of D))))
                = repeat (len vs) k).
      { destruct (first_stopping ticks)
          as [[_ H] | [_ (before & t & after & -> & H & Ht)]].
        - rewrite main_loop_running by exact H. cbn [fst].
          eexists. apply frames_draws.
        - rewrite main_loop_stops by assumption. cbn [fst].
          eexists. apply frames_draws. }
      destruct Hloop as (k & Hk).
      assert (Hin : In n (repeat (len vs) k)).
      { destruct (snd (main_loop G M X (shader_program (engine_of D))
                         (view_loc (engine_of D)) (VAO (engine_of D))
                         vs ticks (camera (engine_of D))));
          cbn [fst] in Hn; rewrite ?draws_app, Hd, Hk in Hn;
          cbn [app] in Hn; try exact Hn.
        apply in_app_or in Hn. destruct Hn as [Hn | Hn]; [exact Hn |].
        destruct Hn. }
      apply repeat_spec in Hin. subst n. unfold len. rewrite Hlen.
      reflexivity.
    + destruct (main_not_built G M X D fs ticks vs cs Hret Hnot)
        as (calls & message & E & (Hd & _) & _).
      rewrite E in Hn. cbn [fst] in Hn. rewrite Hd in Hn. destruct Hn.
  - destruct (main_failed_load G M X D fs ticks Hret)
      as (calls & E & _ & (Hd & _)).
    rewrite E in Hn. cbn [fst] in Hn. rewrite draws_app, Hd in Hn.
    destruct Hn.
Qed.

Lemma every_frame_draws_the_triangles_witness :
  6 = Z.of_nat (3 * triangle_count quad_between_triangles 4 (range 3)).
Proof.
  apply (every_frame_draws_the_triangles axis_lib vec3 eye_only good_driver
           (one_file quad_between_triangles) [idle_tick; closing_tick]
           quad_between_triangles 4 3 6).
  - reflexivity.
  - vm_compute. reflexivity.
  - vm_compute. left. reflexivity.
Defined.

(** * Exact steps of the camera *)

(** ** Rounding a number that needs no rounding *)

(** The number of digits is the only [d] with [2^(d-1) <= m < 2^d]. *)
Lemma digits2_unique m d :
  2 ^ (d - 1) <= Zpos m < 2 ^ d -> Zpos (digits2_pos m) = d.
Proof.
  intros [L U]. destruct (digits2_bounds m) as [L' U'].
  assert (Hd : 0 < d).
  { destruct (Z_lt_le_dec 0 d) as [|Hle]; [assumption |].
    exfalso. destruct (Z.eq_dec d 0) as [-> | Hne]; [simpl in U; lia |].
    rewrite Z.pow_neg_r in U by lia. lia. }
  destruct (Z.lt_trichotomy (Zpos (digits2_pos m)) d) as [Hlt | [E | Hgt]];
    [exfalso | exact E | exfalso].
  - assert (2 ^ Zpos (digits2_pos m) <= 2 ^ (d - 1))
      by (apply Z.pow_le_mono_r; lia). lia.
  - assert (2 ^ d <= 2 ^ (Zpos (digits2_pos m) - 1))
      by (apply Z.pow_le_mono_r; lia). lia.
Qed.

Lemma digits2_shift m m' k :
  0 <= k -> Zpos m' = Zpos m * 2 ^ k ->
  Zpos (digits2_pos m') = Zpos (digits2_pos m) + k.
Proof.
  intros Hk E. apply digits2_unique. rewrite E.
  destruct (digits2_bounds m) as [L U].
  replace (Zpos (digits2_pos m) + k - 1) with (Zpos (digits2_pos m) - 1 + k)
    by lia.
  rewrite !Z.pow_add_r by lia. nia.
Qed.

Lemma iter_xO m d : Zpos (Pos.iter xO m d) = Zpos m * 2 ^ Zpos d.
Proof.
  induction d as [| d IH] using Pos.peano_ind.
  - simpl. lia.
  - rewrite Pos.iter_succ, Pos2Z.inj_xO, IH, Pos2Z.inj_succ, Z.pow_succ_r by lia.
    lia.
Qed.

(** Shifting a multiple of a power of two right loses nothing. *)
Lemma shr_1_exact m :
  shr_1 (Build_shr_record (2 * Zpos m) false false)
  = Build_shr_record (Zpos m) false false.
Proof. reflexivity. Qed.

Lemma iter_shr_exact n : forall m m',
  Zpos m' = Zpos m * 2 ^ Zpos n ->
  iter_pos shr_1 n (Build_shr_record (Zpos m') false false)
  = Build_shr_record (Zpos m) false false.
Proof.
  induction n as [n IH | n IH |]; intros m m' E; simpl iter_pos.
  - assert (E' : Zpos m' = 2 * (Zpos m * 2 ^ Zpos n * 2 ^ Zpos n)).
    { rewrite E. replace (Zpos n~1) with (1 + Zpos n + Zpos n) by lia.
      rewrite !Z.pow_add_r by lia. lia. }
    destruct m' as [q | q |]; try lia.
    cbn [shr_1 orb].
    assert (Eq : Zpos q = Zpos m * 2 ^ Zpos n * 2 ^ Zpos n) by lia.
    assert (Hpos : 0 < 2 ^ Zpos n) by (apply Z.pow_pos_nonneg; lia).
    assert (Ex : exists x, Zpos x = Zpos m * 2 ^ Zpos n).
    { exists (Z.to_pos (Zpos m * 2 ^ Zpos n)). rewrite Z2Pos.id; [reflexivity | nia]. }
    destruct Ex as (x & Hx).
    rewrite (IH x q) by (rewrite Hx; exact Eq).
    apply IH. exact Hx.
  - assert (Hpos : 0 < 2 ^ Zpos n) by (apply Z.pow_pos_nonneg; lia).
    assert (Ex : exists x, Zpos x = Zpos m * 2 ^ Zpos n).
    { exists (Z.to_pos (Zpos m * 2 ^ Zpos n)). rewrite Z2Pos.id; [reflexivity | nia]. }
    destruct Ex as (x & Hx).
    rewrite (IH x m').
    + apply IH. exact Hx.
    + rewrite E, Hx. replace (Zpos n~0) with (Zpos n + Zpos n) by lia.
      rewrite Z.pow_add_r by lia. lia.
  - change (2 ^ 1) with 2 in E. destruct m' as [q | q |]; try lia.
    cbn [shr_1 orb]. f_equal. lia.
Qed.

(** A mantissa and an exponent that already are a binary32 number come
    out of the rounding unchanged. *)
Lemma round_aux_canonical s m e :
  bounded 24 128 m e = true ->
  binary_round_aux 24 128 s (Zpos m) e loc_Exact = S754_finite s m e.
Proof.
  unfold bounded, canonical_mantissa. intros H.
  apply andb_true_iff in H. destruct H as [Hc He].
  apply Z.eqb_eq in Hc.
  unfold binary_round_aux, shr_fexp. cbn [Zdigits2 shr_record_of_loc].
  rewrite Hc, Z.sub_diag. cbn [shr shr_m loc_of_shr_record round_nearest_even].
  cbn [Zdigits2 shr_record_of_loc]. rewrite Hc, Z.sub_diag.
  cbn [shr shr_m]. rewrite He. reflexivity.
Qed.

(** Core: rounding a value that is a binary32 number gives this number. *)
Lemma binary_round_exact s mx ex m e :
  bounded 24 128 m e = true ->
  (e <= ex /\ Zpos m = Zpos mx * 2 ^ (ex - e)) \/
  (ex < e /\ Zpos mx = Zpos m * 2 ^ (e - ex)) ->
  binary_round 24 128 s mx ex = S754_finite s m e.
Proof.
  intros Hb Hv.
  assert (Hc : fexp 24 128 (Zpos (digits2_pos m) + e) = e).
  { unfold bounded in Hb. apply andb_true_iff in Hb. destruct Hb as [Hc _].
    apply Z.eqb_eq in Hc. exact Hc. }
  assert (Hd : Zpos (digits2_pos mx) + ex = Zpos (digits2_pos m) + e).
  { destruct Hv as [[Hle E] | [Hlt E]].
    - rewrite (digits2_shift mx m (ex - e)) by (lia || exact E). lia.
    - rewrite (digits2_shift m mx (e - ex)) by (lia || exact E). lia. }
  unfold binary_round. rewrite Hd, Hc. unfold shl_align.
  destruct Hv as [[Hle E] | [Hlt E]].
  - destruct (e - ex) as [| d | d] eqn:Ed; try lia.
    + assert (e = ex) by lia. subst e. rewrite Z.sub_diag in E.
      assert (m = mx) by lia. subst m. apply round_aux_canonical. exact Hb.
    + assert (Em : Pos.iter xO mx d = m).
      { apply Pos2Z.inj. rewrite iter_xO, E.
        replace (ex - e) with (Zpos d) by lia. reflexivity. }
      rewrite Em. apply round_aux_canonical. exact Hb.
  - destruct (e - ex) as [| d | d] eqn:Ed; try lia.
    unfold binary_round_aux, shr_fexp. cbn [Zdigits2 shr_record_of_loc].
    rewrite Hd, Hc, Ed. cbn [shr].
    rewrite (iter_shr_exact d m mx) by exact E.
    cbn [shr_m loc_of_shr_record round_nearest_even].
    replace (ex + Zpos d) with e by lia.
    cbn [Zdigits2 shr_record_of_loc]. rewrite Hc, Z.sub_diag.
    cbn [shr shr_m].
    unfold bounded in Hb. apply andb_true_iff in Hb. destruct Hb as [_ He].
    rewrite He. reflexivity.
Qed.

Lemma bounded_exponent m e : bounded 24 128 m e = true -> -149 <= e <= 104.
Proof.
  unfold bounded, canonical_mantissa, fexp, emin. intros H.
  apply andb_true_iff in H. destruct H as [Hc He].
  apply Z.eqb_eq in Hc. apply Z.leb_le in He. lia.
Qed.

Lemma shl_align_fst mx ex ez :
  ez <= ex -> Zpos (fst (shl_align mx ex ez)) = Zpos mx * 2 ^ (ex - ez).
Proof.
  intros H. unfold shl_align.
  destruct (ez - ex) as [| d | d] eqn:E; try lia.
  - replace (ex - ez) with 0 by lia. simpl. lia.
  - cbn [fst]. rewrite iter_xO. f_equal. f_equal. lia.
Qed.

(** Two pairs of a mantissa and an exponent with the same value. *)
Lemma same_value mx ex m e :
  -149 <= ex -> -149 <= e ->
  Zpos mx * 2 ^ (ex + 149) = Zpos m * 2 ^ (e + 149) ->
  (e <= ex /\ Zpos m = Zpos mx * 2 ^ (ex - e)) \/
  (ex < e /\ Zpos mx = Zpos m * 2 ^ (e - ex)).
Proof.
  intros Hex He E.
  destruct (Z_le_gt_dec e ex) as [Hle | Hgt]; [left | right]; (split; [lia |]).
  - replace (ex + 149) with ((ex - e) + (e + 149)) in E by lia.
    rewrite (Z.pow_add_r 2 (ex - e) (e + 149)) in E by lia.
    assert (0 < 2 ^ (e + 149)) by (apply Z.pow_pos_nonneg; lia).
    nia.
  - replace (e + 149) with ((e - ex) + (ex + 149)) in E by lia.
    rewrite (Z.pow_add_r 2 (e - ex) (ex + 149)) in E by lia.
    assert (0 < 2 ^ (ex + 149)) by (apply Z.pow_pos_nonneg; lia).
    nia.
Qed.

Lemma binary_normalize_exact M e s :
  -149 <= e -> finite32 s = true -> units s = M * 2 ^ (e + 149) ->
  binary_normalize 24 128 M e false
  = if units s =? 0 then S754_zero false else s.
Proof.
  intros He Hs Hu.
  assert (Hpow : 0 < 2 ^ (e + 149)) by (apply Z.pow_pos_nonneg; lia).
  destruct M as [| M | M]; cbn [binary_normalize].
  - rewrite Hu. reflexivity.
  - destruct s as [ss | ss | | ss ms es]; cbn [units finite32] in *;
      try discriminate; try lia.
    pose proof (bounded_exponent ms es Hs) as Hes.
    assert (0 < 2 ^ (es + 149)) by (apply Z.pow_pos_nonneg; lia).
    destruct ss; cbn [cond_Zopp] in *; [lia |].
    replace (Zpos ms * 2 ^ (es + 149) =? 0) with false
      by (symmetry; apply Z.eqb_neq; lia).
    apply binary_round_exact; [exact Hs |].
    apply same_value; lia.
  - destruct s as [ss | ss | | ss ms es]; cbn [units finite32] in *;
      try discriminate; try lia.
    pose proof (bounded_exponent ms es Hs) as Hes.
    assert (0 < 2 ^ (es + 149)) by (apply Z.pow_pos_nonneg; lia).
    destruct ss; cbn [cond_Zopp] in *; [| lia].
    replace (- (Zpos ms * 2 ^ (es + 149)) =? 0) with false
      by (symmetry; apply Z.eqb_neq; lia).
    apply binary_round_exact; [exact Hs |].
    apply same_value; lia.
Qed.

Lemma add_exact sx mx ex sy my ey s :
  bounded 24 128 mx ex = true -> bounded 24 128 my ey = true ->
  finite32 s = true ->
  units s = units (S754_finite sx mx ex) + units (S754_finite sy my ey) ->
  SFadd 24 128 (S754_finite sx mx ex) (S754_finite sy my ey)
  = if units s =? 0 then S754_zero false else s.
Proof.
  intros Hx Hy Hs Hu. cbn [SFadd]. cbv zeta.
  pose proof (bounded_exponent mx ex Hx) as Hex.
  pose proof (bounded_exponent my ey Hy) as Hey.
  apply binary_normalize_exact; [lia | exact Hs |].
  rewrite Hu. cbn [units].
  rewrite !shl_align_fst by lia.
  set (ez := Z.min ex ey).
  replace (ex + 149) with ((ex - ez) + (ez + 149)) by lia.
  replace (ey + 149) with ((ey - ez) + (ez + 149)) by lia.
  rewrite (Z.pow_add_r 2 (ex - ez) (ez + 149)) by lia.
  rewrite (Z.pow_add_r 2 (ey - ez) (ez + 149)) by lia.
  destruct sx, sy; cbn [cond_Zopp]; ring.
Qed.

Lemma units_finite s m e :
  bounded 24 128 m e = true -> units (S754_finite s m e) <> 0.
Proof.
  intros H. pose proof (bounded_exponent m e H).
  assert (0 < 2 ^ (e + 149)) by (apply Z.pow_pos_nonneg; lia).
  cbn [units]. destruct s; cbn [cond_Zopp]; lia.
Qed.

Lemma units_opp x : units (SFopp x) = - units x.
Proof.
  destruct x as [s | s | | s m e]; try reflexivity.
  cbn [SFopp units]. destruct s; cbn [negb cond_Zopp]; lia.
Qed.

Lemma finite32_opp x : finite32 (SFopp x) = finite32 x.
Proof. destruct x; reflexivity. Qed.

(** Adding a number and taking it away again, when the sum is exact. *)
Lemma add_then_back x y :
  finite32 x = true -> x <> S754_zero true -> finite32 y = true ->
  (exists s, finite32 s = true /\ units s = units x + units y) ->
  SFadd 24 128 (SFadd 24 128 x y) (SFopp y) = x.
Proof.
  intros Hx Hneg Hy (s & Hs & Hu).
  destruct y as [sy | sy | | sy my ey]; try discriminate.
  - destruct x as [[|] | sx | | sx mx ex]; try discriminate;
      try (contradiction Hneg; reflexivity);
      destruct sy; reflexivity.
  - destruct x as [[|] | sx | | sx mx ex]; try discriminate;
      try (contradiction Hneg; reflexivity).
    + cbn [SFadd SFopp]. cbv zeta.
      unfold shl_align. rewrite Z.min_id, Z.sub_diag. cbn [fst].
      replace (cond_Zopp sy (Zpos my) + cond_Zopp (negb sy) (Zpos my)) with 0
        by (destruct sy; cbn [negb cond_Zopp]; lia).
      reflexivity.
    + cbn [finite32] in Hx, Hy.
      rewrite (add_exact sx mx ex sy my ey s Hx Hy Hs Hu).
      destruct (units s =? 0) eqn:E0.
      * apply Z.eqb_eq in E0.
        change (SFadd 24 128 (S754_zero false) (SFopp (S754_finite sy my ey)))
          with (S754_finite (negb sy) my ey).
        pose proof (add_exact sx mx ex sy my ey (S754_zero false) Hx Hy
                      eq_refl) as A.
        pose proof (add_exact (negb sy) my ey sy my ey (S754_zero false) Hy Hy
                      eq_refl) as B.
        cbn [units] in *.
        (* x and -y have the same value, hence are the same number *)
        pose proof (bounded_exponent mx ex Hx) as Hex.
        pose proof (bounded_exponent my ey Hy) as Hey.
        assert (P1 : 0 < 2 ^ (ex + 149)) by (apply Z.pow_pos_nonneg; lia).
        assert (P2 : 0 < 2 ^ (ey + 149)) by (apply Z.pow_pos_nonneg; lia).
        assert (Esign : sx = negb sy)
          by (destruct sx, sy; cbn [cond_Zopp negb] in *; try reflexivity; lia).
        assert (Eval : Zpos my * 2 ^ (ey + 149) = Zpos mx * 2 ^ (ex + 149))
          by (destruct sx, sy; cbn [cond_Zopp negb] in *; lia).
        pose proof (binary_round_exact sx my ey mx ex Hx
                      (same_value my ey mx ex ltac:(lia) ltac:(lia) Eval)) as R1.
        pose proof (binary_round_exact sx my ey my ey Hy
                      (same_value my ey my ey ltac:(lia) ltac:(lia) eq_refl))
          as R2.
        rewrite R1 in R2. rewrite <- Esign. symmetry. exact R2.
      * destruct s as [ss | ss | | ss ms es]; try discriminate;
          try (cbn [units] in E0; discriminate).
        cbn [finite32] in Hs. cbn [SFopp].
        rewrite (add_exact ss ms es (negb sy) my ey (S754_finite sx mx ex)
                   Hs Hy Hx).
        -- pose proof (units_finite sx mx ex Hx) as Hne.
           apply Z.eqb_neq in Hne. rewrite Hne. reflexivity.
        -- rewrite Hu. change (S754_finite (negb sy) my ey)
             with (SFopp (S754_finite sy my ey)).
           rewrite units_opp. lia.
Qed.

Lemma sub_add_opp x y : SFsub 24 128 x y = SFadd 24 128 x (SFopp y).
Proof.
  destruct x as [sx | sx | | sx mx ex], y as [sy | sy | | sy my ey];
    try reflexivity;
    destruct sx, sy; reflexivity.
Qed.

Lemma opp_opp x : SFopp (SFopp x) = x.
Proof. destruct x as [s | s | | s m e]; cbn; rewrite ?negb_involutive; reflexivity. Qed.

Lemma there_and_back32 x y :
  finite32 x = true -> x <> S754_zero true -> finite32 y = true ->
  (exists s, finite32 s = true /\ units s = units x + units y) ->
  SFsub 24 128 (SFadd 24 128 x y) y = x.
Proof.
  intros. rewrite sub_add_opp. apply add_then_back; assumption.
Qed.

Lemma back_and_there32 x y :
  finite32 x = true -> x <> S754_zero true -> finite32 y = true ->
  (exists s, finite32 s = true /\ units s = units x - units y) ->
  SFadd 24 128 (SFsub 24 128 x y) y = x.
Proof.
  intros Hx Hn Hy Hs. rewrite sub_add_opp.
  rewrite <- (opp_opp y) at 2. apply add_then_back; try assumption.
  - rewrite finite32_opp. exact Hy.
  - rewrite units_opp. replace (units x + - units y) with (units x - units y)
      by lia. exact Hs.
Qed.

(** What [fits32] tests: the units are those of a binary32 number. *)
Lemma fits32_number z :
  fits32 z = true -> exists s, finite32 s = true /\ units s = z.
Proof.
  unfold fits32. cbv zeta. intros H. apply andb_true_iff in H.
  destruct H as [Hmod Hd]. apply Z.eqb_eq in Hmod. apply Z.leb_le in Hd.
  destruct (Z.eq_dec z 0) as [-> | Hz];
    [exists (S754_zero false); split; reflexivity |].
  set (a := Z.abs z) in *.
  assert (Ha : 0 < a) by (unfold a; lia).
  assert (Hda : Zdigits2 z = Zdigits2 a)
    by (unfold a; destruct z; reflexivity).
  rewrite Hda in *.
  set (t := Z.max (Zdigits2 a - 24) 0) in *.
  assert (Ht : 0 <= t) by (unfold t; lia).
  assert (Hpow : 0 < 2 ^ t) by (apply Z.pow_pos_nonneg; lia).
  pose proof (Z.div_mod a (2 ^ t) ltac:(lia)) as Hdiv.
  rewrite Hmod, Z.add_0_r in Hdiv.
  set (q := a / 2 ^ t) in *.
  assert (Hq : 0 < q) by nia.
  exists (S754_finite (z <? 0) (Z.to_pos q) (t - 149)).
  assert (Eq : Zpos (Z.to_pos q) = q) by (apply Z2Pos.id; exact Hq).
  split.
  - cbn [finite32]. unfold bounded, canonical_mantissa, fexp, emin.
    change F32.prec with 24. change F32.emax with 128.
    destruct a as [| pa | pa] eqn:Epa; try lia.
    assert (Edig : Zpos (digits2_pos pa)
                   = Zpos (digits2_pos (Z.to_pos q)) + t)
      by (apply digits2_shift; [exact Ht | rewrite Eq; lia]).
    cbn [Zdigits2] in *.
    apply andb_true_iff. split; [apply Z.eqb_eq | apply Z.leb_le]; lia.
  - cbn [units]. replace (t - 149 + 149) with t by lia. rewrite Eq.
    destruct (Z.ltb_spec z 0); cbn [cond_Zopp]; unfold a in *; lia.
Qed.

(** ** Rounding a number that needs rounding *)

(** One more shift keeps the place of the remainder. *)
Lemma located_shr_1 k M0 rec :
  0 <= k -> located k M0 rec -> located (k + 1) M0 (shr_1 rec).
Proof.
  intros Hk (rem & Hrem & E & Hm & Hloc).
  assert (Hp : 0 < 2 ^ k) by (apply Z.pow_pos_nonneg; lia).
  assert (Hs : 2 ^ (k + 1) = 2 * 2 ^ k)
    by (rewrite Z.pow_add_r by lia; lia).
  destruct rec as [m r s]. cbn [shr_m shr_r shr_s] in *.
  destruct m as [| [p | p |] | p]; try lia; cbn [shr_1].
  - exists rem. cbn [shr_m shr_r shr_s]. rewrite Hs.
    destruct r, s; cbn [orb]; repeat split; try lia.
  - exists (rem + 2 ^ k). cbn [shr_m shr_r shr_s]. rewrite Hs.
    rewrite Pos2Z.inj_xI in E.
    destruct r, s; cbn [orb]; repeat split; try lia.
  - exists rem. cbn [shr_m shr_r shr_s]. rewrite Hs.
    rewrite Pos2Z.inj_xO in E.
    destruct r, s; cbn [orb]; repeat split; try lia.
  - exists (rem + 2 ^ k). cbn [shr_m shr_r shr_s]. rewrite Hs.
    destruct r, s; cbn [orb]; repeat split; try lia.
Qed.

Lemma located_iter M0 n : forall k rec,
  0 <= k -> located k M0 rec ->
  located (k + Zpos n) M0 (iter_pos shr_1 n rec).
Proof.
  induction n as [n IH | n IH |]; intros k rec Hk H; cbn [iter_pos].
  - replace (k + Zpos n~1) with (k + 1 + Zpos n + Zpos n) by lia.
    apply IH; [lia |]. apply IH; [lia |]. apply located_shr_1; assumption.
  - replace (k + Zpos n~0) with (k + Zpos n + Zpos n) by lia.
    apply IH; [lia |]. apply IH; assumption.
  - apply located_shr_1; assumption.
Qed.

Lemma located_round k M0 rec :
  0 <= k -> located k M0 rec ->
  let m := round_nearest_even (shr_m rec) (loc_of_shr_record rec) in
  shr_m rec <= m <= shr_m rec + 1 /\
  2 * Z.abs (m * 2 ^ k - M0) <= 2 ^ k.
Proof.
  intros Hk (rem & Hrem & E & Hm & Hloc). cbv zeta.
  assert (Hp : 0 < 2 ^ k) by (apply Z.pow_pos_nonneg; lia).
  destruct rec as [m r s]. cbn [shr_m shr_r shr_s] in *.
  destruct r, s; cbn [loc_of_shr_record round_nearest_even].
  - split; [lia |]. nia.
  - destruct (Z.even m); split; try lia; nia.
  - split; [lia |]. nia.
  - split; [lia |]. nia.
Qed.

(** The first shift of [binary_round_aux]. *)
Lemma first_shr mz ez :
  ez <= fexp 24 128 (Zpos (digits2_pos mz) + ez) ->
  exists rec1,
    shr_fexp 24 128 (Zpos mz) ez loc_Exact
    = (rec1, fexp 24 128 (Zpos (digits2_pos mz) + ez)) /\
    located (fexp 24 128 (Zpos (digits2_pos mz) + ez) - ez) (Zpos mz) rec1.
Proof.
  intros Hle. unfold shr_fexp. cbn [Zdigits2 shr_record_of_loc].
  set (f := fexp 24 128 (Zpos (digits2_pos mz) + ez)) in *.
  assert (H0 : located 0 (Zpos mz) (Build_shr_record (Zpos mz) false false)).
  { exists 0. cbn [shr_m shr_r shr_s]. repeat split; simpl; lia. }
  unfold shr. destruct (f - ez) as [| p | p] eqn:En; try lia.
  - eexists. split; [f_equal; lia | exact H0].
  - eexists. split; [f_equal; lia |].
    apply (located_iter (Zpos mz) p 0); [lia | exact H0].
Qed.

(** The second shift: a mantissa of 25 bits can only be [2 ^ 24]. *)
Lemma second_shr m f :
  0 < m <= 2 ^ 24 -> -149 <= f ->
  exists rec e',
    shr_fexp 24 128 m f loc_Exact = (rec, e') /\
    0 < shr_m rec /\ f <= e' /\
    shr_m rec * 2 ^ (e' + 149) = m * 2 ^ (f + 149).
Proof.
  intros Hm Hf. unfold shr_fexp, fexp, emin.
  destruct (Z.eq_dec m (2 ^ 24)) as [-> | Hne].
  - change (Zdigits2 (2 ^ 24)) with 25.
    replace (Z.max (25 + f - 24) (3 - 128 - 24) - f) with 1 by lia.
    exists (Build_shr_record (2 ^ 23) false false), (f + 1).
    split; [reflexivity |]. cbn [shr_m]. split; [lia |]. split; [lia |].
    replace (f + 1 + 149) with (1 + (f + 149)) by lia.
    rewrite Z.pow_add_r by lia. lia.
  - assert (Hd : Zdigits2 m <= 24)
      by (apply Zdigits2_upper; lia).
    unfold shr.
    destruct (Z.max (Zdigits2 m + f - 24) (3 - 128 - 24) - f)
      as [| p | p] eqn:En; try lia;
      eexists _, _; (split; [reflexivity |]);
      cbn [shr_m shr_record_of_loc]; repeat split; lia.
Qed.

(** The error of a rounding that does not overflow is at most half a unit
    in the last place of the result. *)
Lemma round_aux_error s mz ez r :
  -149 <= ez ->
  ez <= fexp 24 128 (Zpos (digits2_pos mz) + ez) ->
  binary_round_aux 24 128 s (Zpos mz) ez loc_Exact = r ->
  finite32 r = true ->
  2 * Z.abs (units r - cond_Zopp s (Zpos mz * 2 ^ (ez + 149))) <= ulp32 r.
Proof.
  intros Hez Hle Hr Hfin. unfold binary_round_aux in Hr.
  destruct (first_shr mz ez Hle) as (rec1 & E1 & Hloc). rewrite E1 in Hr.
  set (f := fexp 24 128 (Zpos (digits2_pos mz) + ez)) in *.
  set (n := f - ez) in *.
  assert (Hn : 0 <= n) by (unfold n; lia).
  destruct (located_round n (Zpos mz) rec1 Hn Hloc) as [Hm2 Herr].
  set (m2 := round_nearest_even (shr_m rec1) (loc_of_shr_record rec1)) in *.
  destruct Hloc as (rem & Hrem & E & Hm1 & _).
  destruct (digits2_bounds mz) as [L U].
  set (d := Zpos (digits2_pos mz)) in *.
  assert (Hf : f = Z.max (d + ez - 24) (-149)) by reflexivity.
  assert (Hpn : 0 < 2 ^ n) by (apply Z.pow_pos_nonneg; lia).
  assert (Hw : 1 <= d - n <= 24) by (unfold n; lia).
  assert (Hup : shr_m rec1 < 2 ^ (d - n)).
  { assert (Hsplit : 2 ^ d = 2 ^ (d - n) * 2 ^ n)
      by (rewrite <- Z.pow_add_r by lia; f_equal; lia).
    nia. }
  assert (H24 : 2 ^ (d - n) <= 2 ^ 24) by (apply Z.pow_le_mono_r; lia).
  assert (Hlow : 1 <= shr_m rec1).
  { assert (Hsplit : 2 ^ (d - 1) = 2 ^ (d - 1 - n) * 2 ^ n)
      by (rewrite <- Z.pow_add_r by lia; f_equal; lia).
    assert (0 < 2 ^ (d - 1 - n)) by (apply Z.pow_pos_nonneg; lia).
    nia. }
  destruct (second_shr m2 f ltac:(lia) ltac:(lia))
    as (rec2 & e2 & E2 & Hpos & He2 & Hval).
  rewrite E2 in Hr.
  destruct (shr_m rec2) as [| m3 | m3] eqn:Em3; try lia.
  destruct (e2 <=? 128 - 24) eqn:Eov; subst r; [| discriminate].
  cbn [units ulp32].
  assert (Hpe : 0 < 2 ^ (ez + 149)) by (apply Z.pow_pos_nonneg; lia).
  assert (Hpf : 2 ^ (f + 149) = 2 ^ n * 2 ^ (ez + 149))
    by (rewrite <- Z.pow_add_r by lia; f_equal; unfold n; lia).
  assert (Hpe2 : 2 ^ (f + 149) <= 2 ^ (e2 + 149))
    by (apply Z.pow_le_mono_r; lia).
  rewrite Hval, Hpf.
  replace (cond_Zopp s (m2 * (2 ^ n * 2 ^ (ez + 149)))
           - cond_Zopp s (Zpos mz * 2 ^ (ez + 149)))
    with (cond_Zopp s ((m2 * 2 ^ n - Zpos mz) * 2 ^ (ez + 149)))
    by (destruct s; cbn [cond_Zopp]; ring).
  assert (Habs : Z.abs (cond_Zopp s ((m2 * 2 ^ n - Zpos mz) * 2 ^ (ez + 149)))
                 = Z.abs (m2 * 2 ^ n - Zpos mz) * 2 ^ (ez + 149)).
  { destruct s; cbn [cond_Zopp]; rewrite ?Z.abs_opp, Z.abs_mul;
      rewrite (Z.abs_eq (2 ^ (ez + 149))) by lia; reflexivity. }
  rewrite Habs. nia.
Qed.

Lemma binary_round_error s mx ex r :
  -149 <= ex ->
  binary_round 24 128 s mx ex = r ->
  finite32 r = true ->
  2 * Z.abs (units r - cond_Zopp s (Zpos mx * 2 ^ (ex + 149))) <= ulp32 r.
Proof.
  intros Hex Hr Hfin. unfold binary_round in Hr.
  set (f := fexp 24 128 (Zpos (digits2_pos mx) + ex)) in *.
  assert (Hf : -149 <= f) by (unfold f, fexp, emin; lia).
  unfold shl_align in Hr.
  destruct (f - ex) as [| d | d] eqn:Ed.
  - apply round_aux_error; try assumption. fold f. lia.
  - apply round_aux_error; try assumption. fold f. lia.
  - assert (Em : Zpos (Pos.iter xO mx d) = Zpos mx * 2 ^ (ex - f))
      by (rewrite iter_xO; f_equal; f_equal; lia).
    assert (Hd : Zpos (digits2_pos (Pos.iter xO mx d)) + f
                 = Zpos (digits2_pos mx) + ex)
      by (rewrite (digits2_shift mx (Pos.iter xO mx d) (ex - f))
            by (lia || exact Em); lia).
    replace (Zpos mx * 2 ^ (ex + 149))
      with (Zpos (Pos.iter xO mx d) * 2 ^ (f + 149)).
    + apply round_aux_error; try assumption. rewrite Hd. fold f. lia.
    + rewrite Em. replace (ex + 149) with ((ex - f) + (f + 149)) by lia.
      rewrite (Z.pow_add_r 2 (ex - f) (f + 149)) by lia. ring.
Qed.

Lemma binary_normalize_error M e r :
  -149 <= e ->
  binary_normalize 24 128 M e false = r ->
  finite32 r = true ->
  2 * Z.abs (units r - M * 2 ^ (e + 149)) <= ulp32 r.
Proof.
  intros He Hr Hfin. destruct M as [| m | m]; cbn [binary_normalize] in Hr.
  - subst r. cbn. lia.
  - apply (binary_round_error false m e r He Hr Hfin).
  - pose proof (binary_round_error true m e r He Hr Hfin) as H.
    cbn [cond_Zopp] in H.
    replace (Z.neg m * 2 ^ (e + 149)) with (- (Zpos m * 2 ^ (e + 149)))
      by lia.
    exact H.
Qed.

(** The error of an addition that does not overflow. *)
Lemma add_error x y :
  finite32 x = true -> finite32 y = true ->
  finite32 (SFadd 24 128 x y) = true ->
  2 * Z.abs (units (SFadd 24 128 x y) - (units x + units y))
  <= ulp32 (SFadd 24 128 x y).
Proof.
  intros Hx Hy Hr.
  destruct x as [sx | sx | | sx mx ex], y as [sy | sy | | sy my ey];
    try discriminate.
  - destruct sx, sy; cbn; lia.
  - cbn [SFadd units ulp32].
    pose proof (bounded_exponent my ey Hy).
    assert (0 < 2 ^ (ey + 149)) by (apply Z.pow_pos_nonneg; lia). lia.
  - cbn [SFadd units ulp32].
    pose proof (bounded_exponent mx ex Hx).
    assert (0 < 2 ^ (ex + 149)) by (apply Z.pow_pos_nonneg; lia). lia.
  - cbn [finite32] in Hx, Hy.
    pose proof (bounded_exponent mx ex Hx) as Hex.
    pose proof (bounded_exponent my ey Hy) as Hey.
    cbn [SFadd] in *. cbv zeta in *.
    match goal with
    | |- context [binary_normalize _ _ ?M ?e _] =>
        assert (He : -149 <= e) by lia;
        pose proof (binary_normalize_error M e _ He eq_refl Hr) as H
    end.
    replace (units (S754_finite sx mx ex) + units (S754_finite sy my ey))
      with ((cond_Zopp sx (Zpos (fst (shl_align mx ex (Z.min ex ey))))
             + cond_Zopp sy (Zpos (fst (shl_align my ey (Z.min ex ey)))))
            * 2 ^ (Z.min ex ey + 149)); [exact H |].
    cbn [units]. rewrite !shl_align_fst by lia.
    set (ez := Z.min ex ey).
    replace (ex + 149) with ((ex - ez) + (ez + 149)) by lia.
    replace (ey + 149) with ((ey - ez) + (ez + 149)) by lia.
    rewrite (Z.pow_add_r 2 (ex - ez) (ez + 149)) by lia.
    rewrite (Z.pow_add_r 2 (ey - ez) (ez + 149)) by lia.
    destruct sx, sy; cbn [cond_Zopp]; ring.
Qed.

Lemma there_and_back_error x y :
  finite32 x = true -> finite32 y = true ->
  finite32 (SFadd 24 128 x y) = true ->
  finite32 (SFsub 24 128 (SFadd 24 128 x y) y) = true ->
  within_rounding x (SFadd 24 128 x y) (SFsub 24 128 (SFadd 24 128 x y) y).
Proof.
  intros Hx Hy Hs Hr. unfold within_rounding. rewrite sub_add_opp in *.
  pose proof (add_error x y Hx Hy Hs) as A.
  pose proof (add_error (SFadd 24 128 x y) (SFopp y) Hs
                ltac:(rewrite finite32_opp; exact Hy) Hr) as B.
  rewrite units_opp in B. lia.
Qed.

Lemma back_and_there_error x y :
  finite32 x = true -> finite32 y = true ->
  finite32 (SFsub 24 128 x y) = true ->
  finite32 (SFadd 24 128 (SFsub 24 128 x y) y) = true ->
  within_rounding x (SFsub 24 128 x y) (SFadd 24 128 (SFsub 24 128 x y) y).
Proof.
  intros Hx Hy Hs Hr. unfold within_rounding. rewrite sub_add_opp in *.
  pose proof (add_error x (SFopp y) Hx
                ltac:(rewrite finite32_opp; exact Hy) Hs) as A.
  pose proof (add_error (SFadd 24 128 x (SFopp y)) y Hs Hy Hr) as B.
  rewrite units_opp in A. lia.
Qed.

(** ** A coordinate that takes a step and comes back *)

Lemma there_and_back_coordinate x y :
  exact_sum x y -> F32.sub (F32.add x y) y = x.
Proof.
  intros (Hx & Hn & Hy & Hs). apply there_and_back32; try assumption.
  apply fits32_number. exact Hs.
Qed.

Lemma back_and_there_coordinate x y :
  exact_difference x y -> F32.add (F32.sub x y) y = x.
Proof.
  intros (Hx & Hn & Hy & Hs). apply back_and_there32; try assumption.
  apply fits32_number. exact Hs.
Qed.

Lemma exact_step_forth_back p d :
  exact_step_forth p d -> exact_there_and_back p d.
Proof.
  intros (Hx & Hy & Hz). unfold exact_there_and_back, Glm.sub, Glm.add.
  destruct p as [px py pz]. cbn [vx vy vz] in *.
  rewrite !there_and_back_coordinate by assumption. reflexivity.
Qed.

Lemma exact_step_back_forth p d :
  exact_step_back p d -> exact_back_and_there p d.
Proof.
  intros (Hx & Hy & Hz). unfold exact_back_and_there, Glm.sub, Glm.add.
  destruct p as [px py pz]. cbn [vx vy vz] in *.
  rewrite !back_and_there_coordinate by assumption. reflexivity.
Qed.

Lemma finite3_coordinates p :
  finite3 p = true ->
  finite32 (vx p) = true /\ finite32 (vy p) = true /\ finite32 (vz p) = true.
Proof.
  unfold finite3. intros H.
  apply andb_true_iff in H. destruct H as [H Hz].
  apply andb_true_iff in H. destruct H as [Hx Hy].
  repeat split; assumption.
Qed.

Lemma step_forth_back_error p d :
  finite_forth_and_back p d = true ->
  step_within_rounding p (Glm.add p d) (Glm.sub (Glm.add p d) d).
Proof.
  unfold finite_forth_and_back. intros H.
  apply andb_true_iff in H. destruct H as [H Hr].
  apply andb_true_iff in H. destruct H as [H Hs].
  apply andb_true_iff in H. destruct H as [Hp Hd].
  apply finite3_coordinates in Hp, Hd, Hs, Hr.
  destruct Hp as (Hp1 & Hp2 & Hp3), Hd as (Hd1 & Hd2 & Hd3),
    Hs as (Hs1 & Hs2 & Hs3), Hr as (Hr1 & Hr2 & Hr3).
  cbn [Glm.add Glm.sub vx vy vz] in *.
  repeat split; apply there_and_back_error; assumption.
Qed.

Lemma step_back_forth_error p d :
  finite_back_and_forth p d = true ->
  step_within_rounding p (Glm.sub p d) (Glm.add (Glm.sub p d) d).
Proof.
  unfold finite_back_and_forth. intros H.
  apply andb_true_iff in H. destruct H as [H Hr].
  apply andb_true_iff in H. destruct H as [H Hs].
  apply andb_true_iff in H. destruct H as [Hp Hd].
  apply finite3_coordinates in Hp, Hd, Hs, Hr.
  destruct Hp as (Hp1 & Hp2 & Hp3), Hd as (Hd1 & Hd2 & Hd3),
    Hs as (Hs1 & Hs2 & Hs3), Hr as (Hr1 & Hr2 & Hr3).
  cbn [Glm.add Glm.sub vx vy vz] in *.
  repeat split; apply back_and_there_error; assumption.
Qed.

(** C9, as the code has it.  With both keys of an axis pressed, the camera
    adds the displacement of this axis to its position and subtracts it
    again (for left and right, the other way round), in binary32
    arithmetic.

    The frame ends exactly as if neither key were pressed whenever the
    first of the two operations needs no rounding: each coordinate of the
    position and of the displacement is a finite number, no coordinate of
    the position is the negative zero, and each exact sum (for left and
    right, difference) of a coordinate and its displacement is a binary32
    number.

    When it is rounded, and no coordinate becomes an infinity or a NaN,
    the two operations of an axis move each coordinate of the position by
    at most half a unit in the last place of the coordinate between them
    plus half a unit in the last place of the coordinate after them. *)
Theorem opposing_keys_cancel_up_to_rounding
    (G : Glm.lib) self keys mouse_rel delta_time :
  let c := look self mouse_rel in
  let v := velocity c delta_time in
  let forward := Glm.scale (forward_axis G c) v in
  let right := Glm.scale (right_axis G c) v in
  let up := Glm.scale world_up v in
  let p0 := position c in
  let p1 := move_forward keys (forward_axis G c) v p0 in
  let p2 := move_right keys (right_axis G c) v p1 in
  let p3 := move_up keys world_up v p2 in
  position (process_input G self keys mouse_rel delta_time) = p3 /\
  ((keys K_w = true -> keys K_s = true ->
    exact_step_forth p0 forward ->
    process_input G self keys mouse_rel delta_time
    = process_input G self (release [K_w; K_s] keys) mouse_rel delta_time) /\
   (keys K_a = true -> keys K_d = true ->
    exact_step_back p1 right ->
    process_input G self keys mouse_rel delta_time
    = process_input G self (release [K_a; K_d] keys) mouse_rel delta_time) /\
   (keys K_SPACE = true -> keys K_LCTRL || keys K_LSHIFT = true ->
    exact_step_forth p2 up ->
    process_input G self keys mouse_rel delta_time
    = process_input G self (release [K_SPACE; K_LCTRL; K_LSHIFT] keys)
        mouse_rel delta_time)) /\
  ((keys K_w = true -> keys K_s = true ->
    finite_forth_and_back p0 forward = true ->
    step_within_rounding p0 (Glm.add p0 forward) p1) /\
   (keys K_a = true -> keys K_d = true ->
    finite_back_and_forth p1 right = true ->
    step_within_rounding p1 (Glm.sub p1 right) p2) /\
   (keys K_SPACE = true -> keys K_LCTRL || keys K_LSHIFT = true ->
    finite_forth_and_back p2 up = true ->
    step_within_rounding p2 (Glm.add p2 up) p3)).
Proof.
  pose proof (keys_cancel_when_round_trip_exact G self keys mouse_rel
                delta_time) as T.
  cbv zeta in *. destruct T as (T1 & T2 & T3).
  split; [reflexivity |]. split; (split; [| split]).
  - intros Hw Hs E. apply T1; try assumption.
    apply exact_step_forth_back. exact E.
  - intros Ha Hd E. apply T2; try assumption.
    apply exact_step_back_forth. exact E.
  - intros Hs Hc E. apply T3; try assumption.
    apply exact_step_forth_back. exact E.
  - intros Hw Hs E. unfold move_forward. rewrite Hw, Hs.
    apply step_forth_back_error. exact E.
  - intros Ha Hd E. unfold move_right at 1. rewrite Ha, Hd.
    apply step_back_forth_error. exact E.
  - intros Hs Hc E. unfold move_up at 1. rewrite Hs, Hc.
    apply step_forth_back_error. exact E.
Qed.

(** The default camera: a frame of 100 milliseconds, where every step is
    exact, and a frame of 16 milliseconds, where the steps up and down are
    rounded and the camera ends one unit in the last place lower. *)
Lemma opposing_keys_cancel_up_to_rounding_witness :
  (process_input axis_lib Camera_default (only [K_w; K_s]) (0, 0)
     (milliseconds 100)
   = process_input axis_lib Camera_default
       (release [K_w; K_s] (only [K_w; K_s])) (0, 0) (milliseconds 100)
   /\
   process_input axis_lib Camera_default (only [K_a; K_d]) (0, 0)
     (milliseconds 100)
   = process_input axis_lib Camera_default
       (release [K_a; K_d] (only [K_a; K_d])) (0, 0) (milliseconds 100)
   /\
   process_input axis_lib Camera_default (only [K_SPACE; K_LCTRL]) (0, 0)
     (milliseconds 100)
   = process_input axis_lib Camera_default
       (release [K_SPACE; K_LCTRL; K_LSHIFT] (only [K_SPACE; K_LCTRL])) (0, 0)
       (milliseconds 100))
  /\
  (let up := Glm.scale world_up (velocity Camera_default (milliseconds 16)) in
   let p := position Camera_default in
   let r := position (process_input axis_lib Camera_default
                        (only [K_SPACE; K_LCTRL]) (0, 0) (milliseconds 16)) in
   vy p = S754_finite false 8388608 (-22) /\
   vy r = S754_finite false 16777215 (-23) /\
   step_within_rounding p (Glm.add p up) r).
Proof.
  split; [split; [| split] |].
  - pose proof (opposing_keys_cancel_up_to_rounding axis_lib Camera_default
                  (only [K_w; K_s]) (0, 0) (milliseconds 100)) as T.
    cbv zeta in T. destruct T as (_ & (H & _) & _). apply H.
    + reflexivity.
    + reflexivity.
    + repeat split; try (vm_compute; reflexivity); vm_compute; discriminate.
  - pose proof (opposing_keys_cancel_up_to_rounding axis_lib Camera_default
                  (only [K_a; K_d]) (0, 0) (milliseconds 100)) as T.
    cbv zeta in T. destruct T as (_ & (_ & H & _) & _). apply H.
    + reflexivity.
    + reflexivity.
    + repeat split; try (vm_compute; reflexivity); vm_compute; discriminate.
  - pose proof (opposing_keys_cancel_up_to_rounding axis_lib Camera_default
                  (only [K_SPACE; K_LCTRL]) (0, 0) (milliseconds 100)) as T.
    cbv zeta in T. destruct T as (_ & (_ & _ & H) & _). apply H.
    + reflexivity.
    + reflexivity.
    + repeat split; try (vm_compute; reflexivity); vm_compute; discriminate.
  - cbv zeta. split; [vm_compute; reflexivity |].
    split; [vm_compute; reflexivity |].
    pose proof (opposing_keys_cancel_up_to_rounding axis_lib Camera_default
                  (only [K_SPACE; K_LCTRL]) (0, 0) (milliseconds 16)) as T.
    cbv zeta in T. destruct T as (_ & _ & (_ & _ & H)). apply H.
    + reflexivity.
    + reflexivity.
    + vm_compute. reflexivity.
Defined.

(** * What the [try] statement catches *)

Lemma act_bind_eq {A B : Type} (m : action A) (k : A -> action B) :
  act_bind m k =
  match snd m with
  | Finishes a => (fst m ++ fst (k a), snd (k a))
  | Raises r => (fst m, Raises r)
  end.
Proof.
  destruct m as [t [a | r]]; cbn [act_bind fst snd]; [| reflexivity].
  destruct (k a); reflexivity.
Qed.

Lemma act_snd_bind {A B : Type} (m : action A) (k : A -> action B) :
  snd (act_bind m k) =
  match snd m with
  | Finishes a => snd (k a)
  | Raises r => Raises r
  end.
Proof. rewrite act_bind_eq. destruct (snd m); reflexivity. Qed.

(** The steps of the loader above raise subclasses of [Exception]. *)
Lemma of_traced_base {A : Type} (m : traced A) b :
  snd (of_traced m) <> Raises (BaseException b).
Proof. unfold of_traced. cbn [snd]. destruct (snd m); discriminate. Qed.

(** A step of the loader above followed by another. *)
Lemma of_traced_bind {A B : Type} (m : traced A) (k : A -> traced B) :
  act_bind (of_traced m) (fun a => of_traced (k a)) = of_traced (bind m k).
Proof.
  unfold of_traced. destruct m as [t [a | e]]; cbn [act_bind bind fst snd].
  - destruct (k a) as [t' r]. reflexivity.
  - reflexivity.
Qed.

Lemma act_bind_ext {A B : Type} (m : action A) (k k' : A -> action B) :
  (forall a, k a = k' a) -> act_bind m k = act_bind m k'.
Proof.
  intros H. destruct m as [t [a | r]]; cbn [act_bind]; [| reflexivity].
  rewrite H. reflexivity.
Qed.

(** ** An exception that is no [Exception] comes from the callback or from
    [print] *)

Lemma bind_base {A B : Type} (m : action A) (k : A -> action B) b
    (P : Prop) :
  snd (act_bind m k) = Raises (BaseException b) ->
  (snd m = Raises (BaseException b) -> P) ->
  (forall a, snd m = Finishes a ->
             snd (k a) = Raises (BaseException b) -> P) ->
  P.
Proof.
  rewrite act_snd_bind. destruct (snd m) as [a | r]; intros H H1 H2.
  - exact (H2 a eq_refl H).
  - injection H as ->. apply H1. reflexivity.
Qed.

Ltac not_from_the_loader :=
  let H := fresh in
  intros H; exfalso; exact (of_traced_base _ _ H).

Lemma read_faces_base cb lines vp V F n b : forall i fv fc,
  snd (Raising.read_faces cb lines vp V F n i fv fc)
  = Raises (BaseException b) ->
  exists f fraction num den,
    cb = Some f /\ f fraction num den = Some (BaseException b).
Proof.
  induction n as [| n IH]; intros i fv fc H; cbn [Raising.read_faces] in H.
  - discriminate.
  - apply (bind_base _ _ _ _ H); clear H.
    + destruct cb as [f |]; [| discriminate].
      destruct (reports F i); [| discriminate].
      intros H. apply (bind_base _ _ _ _ H); clear H;
        [not_from_the_loader |].
      intros x _ H. unfold Raising.call in H. cbn [snd] in H.
      destruct (f x (i + 1) F) as [r |] eqn:Ef; [| discriminate].
      injection H as ->. exists f, x, (i + 1), F. split; [reflexivity | exact Ef].
    + intros _ _ H. apply (bind_base _ _ _ _ H); clear H;
        [not_from_the_loader |].
      intros line _ H. apply (bind_base _ _ _ _ H); clear H;
        [not_from_the_loader |].
      intros [[vs cs] |] _ H; apply IH in H; exact H.
Qed.

Lemma load_body_base out fs filepath cb b :
  snd (Raising.load_body out fs filepath cb) = Raises (BaseException b) ->
  (exists f fraction num den,
     cb = Some f /\ f fraction num den = Some (BaseException b)) \/
  (exists n, out (Loaded n) = Some (BaseException b)).
Proof.
  unfold Raising.load_body. intros H.
  apply (bind_base _ _ _ _ H); clear H; [not_from_the_loader |].
  intros lines _ H.
  apply (bind_base _ _ _ _ H); clear H; [not_from_the_loader |].
  intros l0 _ H.
  apply (bind_base _ _ _ _ H); clear H; [not_from_the_loader |].
  intros _ _ H.
  apply (bind_base _ _ _ _ H); clear H; [not_from_the_loader |].
  intros l1 _ H.
  apply (bind_base _ _ _ _ H); clear H; [not_from_the_loader |].
  intros [V F] _ H.
  apply (bind_base _ _ _ _ H); clear H; [not_from_the_loader |].
  intros vp _ H.
  apply (bind_base _ _ _ _ H); clear H.
  { intros H. left. exact (read_faces_base _ _ _ _ _ _ _ _ _ _ H). }
  intros [fv fc] _ H.
  apply (bind_base _ _ _ _ H); clear H; [not_from_the_loader |].
  intros vnp _ H.
  apply (bind_base _ _ _ _ H); clear H; [not_from_the_loader |].
  intros cnp _ H.
  apply (bind_base _ _ _ _ H); clear H.
  - unfold Raising.print.
    destruct (out (Loaded (List.length vnp))) as [r |] eqn:E;
      [| discriminate].
    cbn [snd]. intros H. injection H as ->. right. eauto.
  - intros _ _ H. discriminate.
Qed.

(** ** With a standard output that can be written and a callback that
    raises subclasses of [Exception], the function is the loader above *)

Lemma exceptions_of_agree cb f fraction num den :
  raises_exceptions_only cb -> cb = Some f ->
  f fraction num den = option_map Exception (exceptions_of f fraction num den).
Proof.
  intros H E. unfold exceptions_of.
  destruct (f fraction num den) as [[e | b] |] eqn:Ef; try reflexivity.
  exfalso. exact (H f fraction num den b E Ef).
Qed.

Lemma read_faces_agree cb lines vp V F n : forall i fv fc,
  raises_exceptions_only cb ->
  Raising.read_faces cb lines vp V F n i fv fc
  = of_traced (read_faces (option_map exceptions_of cb) lines vp V F n i
                 fv fc).
Proof.
  induction n as [| n IH]; intros i fv fc Hcb;
    cbn [Raising.read_faces read_faces].
  - reflexivity.
  - rewrite <- of_traced_bind.
    assert (E1 : match cb with
                 | Some f =>
                     if reports F i
                     then act_bind
                            (of_traced (lift (F64.true_div (i + 1) F)))
                            (fun progress_percentage =>
                               Raising.call f progress_percentage (i + 1) F)
                     else act_ret tt
                 | None => act_ret tt
                 end
                 = of_traced
                     match option_map exceptions_of cb with
                     | Some f0 =>
                         if reports F i
                         then bind (lift (F64.true_div (i + 1) F))
                                (fun progress_percentage =>
                                   call f0 progress_percentage (i + 1) F)
                         else ret tt
                     | None => ret tt
                     end).
    { destruct cb as [f |]; cbn [option_map]; [| reflexivity].
      destruct (reports F i); [| reflexivity].
      rewrite <- of_traced_bind. apply act_bind_ext. intros x.
      unfold Raising.call, call, of_traced. cbn [fst snd].
      rewrite (exceptions_of_agree (Some f) f x (i + 1) F Hcb eq_refl).
      destruct (exceptions_of f x (i + 1) F); reflexivity. }
    rewrite E1. apply act_bind_ext. intros _.
    rewrite <- of_traced_bind. apply act_bind_ext. intros line.
    rewrite <- of_traced_bind. apply act_bind_ext.
    intros [[vs cs] |]; apply IH; exact Hcb.
Qed.

Lemma print_agree out m :
  out m = None -> Raising.print out m = of_traced (print m).
Proof. unfold Raising.print. intros ->. reflexivity. Qed.

Lemma load_body_agree out fs filepath cb :
  (forall m, out m = None) ->
  raises_exceptions_only cb ->
  Raising.load_body out fs filepath cb
  = of_traced (load_body fs filepath (option_map exceptions_of cb)).
Proof.
  intros Hout Hcb. unfold Raising.load_body, load_body.
  rewrite <- of_traced_bind. apply act_bind_ext. intros lines.
  rewrite <- of_traced_bind. apply act_bind_ext. intros l0.
  rewrite <- of_traced_bind. apply act_bind_ext. intros _.
  rewrite <- of_traced_bind. apply act_bind_ext. intros l1.
  rewrite <- of_traced_bind. apply act_bind_ext. intros [V F].
  rewrite <- of_traced_bind. apply act_bind_ext. intros vp.
  rewrite <- of_traced_bind, read_faces_agree by exact Hcb.
  apply act_bind_ext. intros [fv fc].
  rewrite <- of_traced_bind. apply act_bind_ext. intros vnp.
  rewrite <- of_traced_bind. apply act_bind_ext. intros cnp.
  rewrite <- of_traced_bind, print_agree by apply Hout.
  apply act_bind_ext. intros _. reflexivity.
Qed.



